(** * A shallow embedding of the packet layer of the MySQL driver

    Sources embedded: [buffer.go] (the framing buffer), [packets.go]
    (packet codec, command writers, row decoders) and [rows.go]
    (result-set closing).

    Conventions.
    - A Go [byte] is a [Z] in [0, 256); a conversion [byte(x)] is written
      [x mod 256].  Go [int] values are unbounded [Z] (the lengths that
      occur are far below 2^63).
    - A Go slice is a window on a backing array: [slice] keeps the array
      from the slice's first element up to its capacity, and its length.
    - A function that can fail returns [res]: a value, a Go [error], or a
      run-time panic (index or slice bound out of range).
    - Methods of [*mysqlConn] pass the connection state explicitly. *)

From Stdlib Require Import ZArith List Lia Bool.
Import ListNotations.
Open Scope Z_scope.

(** ** Errors and results *)

Inductive error : Type :=
| ErrBusyBuffer
| ErrPktTooLarge
| ErrInvalidConn
| errBadConnNoWrite
| ErrPktSync
| ErrPktSyncMul
| ErrMalformPkt
| ErrBadConn                      (* driver.ErrBadConn *)
| io_EOF                          (* io.EOF *)
| ErrIO (code : Z)                (* an error of the network layer *)
| ErrCanceled (cause : Z)         (* a context's cancellation cause *)
| MySQLError (number : Z) (sqlState : list Z) (message : list Z)
| ErrRange                        (* strconv.ErrRange *)
| ErrSyntax                       (* strconv.ErrSyntax *)
| ErrFmt (what : Z).              (* an error built with fmt.Errorf *)

Inductive res (A : Type) : Type :=
| Ok (a : A)
| Err (e : error)
| Panic.

Arguments Ok {A} a.
Arguments Err {A} e.
Arguments Panic {A}.

Definition bind {A B} (r : res A) (k : A -> res B) : res B :=
  match r with
  | Ok a => k a
  | Err e => Err e
  | Panic => Panic
  end.

Notation "x <- r ;; k" := (bind r (fun x => k))
  (at level 61, r at next level, right associativity).

(** ** Constants *)

Definition defaultBufSize : Z := 4 * 1024.
Definition maxCachedBufSize : Z := 256 * 1024.

(** Modelled from the spec: the constant [maxPacketSize] of const.go,
    which is not among the sources; section 6 gives 16_777_215 = 2^24 - 1. *)
Definition maxPacketSize : Z := 16777215.

(** ** Slices *)

Record slice : Type := mkSlice {
  arr : list Z;   (* backing array, from the slice's start to its capacity *)
  len : Z         (* len(s) *)
}.

Definition zlen {A} (l : list A) : Z := Z.of_nat (length l).

Definition cap (s : slice) : Z := zlen (arr s).

(** The elements of the slice: the first [len] cells of its array. *)
Definition elems (s : slice) : list Z := firstn (Z.to_nat (len s)) (arr s).

(** [make([]byte, n)] *)
Definition make (n : Z) : slice := mkSlice (repeat 0 (Z.to_nat n)) n.

(** [s[:n]]: legal up to the capacity, a panic beyond it. *)
Definition slice_to (s : slice) (n : Z) : res slice :=
  if (0 <=? n) && (n <=? cap s) then Ok (mkSlice (arr s) n) else Panic.

(** [s[:cap(s)]] *)
Definition slice_full (s : slice) : slice := mkSlice (arr s) (cap s).

(** ** The framing buffer (buffer.go) *)

Record buffer : Type := mkBuffer {
  b_buf : slice;      (* buf: the primary buffer *)
  b_length : Z;       (* length *)
  b_flipcnt : Z       (* flipcnt *)
}.

Definition set_buf (b : buffer) (s : slice) : buffer :=
  mkBuffer s (b_length b) (b_flipcnt b).

Definition newBuffer : buffer := mkBuffer (make defaultBufSize) 0 0.

Definition flip (b : buffer) : buffer :=
  mkBuffer (b_buf b) (b_length b) (b_flipcnt b + 1).

Definition takeBuffer (b : buffer) (length : Z) : res slice * buffer :=
  if 0 <? b_length b then (Err ErrBusyBuffer, b)
  else if length <=? cap (b_buf b) then (slice_to (b_buf b) length, b)
  else if length <? maxPacketSize then
    (Ok (make length), set_buf b (make length))
  else (Ok (make length), b).

(** [takeSmallBuffer] has no assignment to [b.buf] and no [make]: it only
    reads the buffer, so it returns a result and no new buffer state. *)
Definition takeSmallBuffer (b : buffer) (length : Z) : res slice :=
  if 0 <? b_length b then Err ErrBusyBuffer
  else slice_to (b_buf b) length.

Definition takeCompleteBuffer (b : buffer) : res slice :=
  if 0 <? b_length b then Err ErrBusyBuffer
  else Ok (b_buf b).

Definition store (b : buffer) (buf : slice) : option error * buffer :=
  if 0 <? b_length b then (Some ErrBusyBuffer, b)
  else if (cap buf <=? maxPacketSize) && (cap (b_buf b) <? cap buf)
       then (None, set_buf b (slice_full buf))
       else (None, b).

(** ** List helpers for indexed access *)

(** [l[i]] *)
Definition idx (l : list Z) (i : Z) : res Z :=
  if i <? 0 then Panic
  else match nth_error l (Z.to_nat i) with
       | Some v => Ok v
       | None => Panic
       end.

Fixpoint upd_nat (l : list Z) (n : nat) (v : Z) : res (list Z) :=
  match l, n with
  | [], _ => Panic
  | _ :: t, O => Ok (v :: t)
  | h :: t, S n' => t' <- upd_nat t n' v ;; Ok (h :: t')
  end.

(** [l[i] = v] *)
Definition upd (l : list Z) (i : Z) (v : Z) : res (list Z) :=
  if i <? 0 then Panic else upd_nat l (Z.to_nat i) v.

(** [l[i:]] *)
Definition from (l : list Z) (i : Z) : res (list Z) :=
  if (0 <=? i) && (i <=? zlen l) then Ok (skipn (Z.to_nat i) l) else Panic.

(** [l[i:j]] *)
Definition sub (l : list Z) (i j : Z) : res (list Z) :=
  if (0 <=? i) && (i <=? j) && (j <=? zlen l)
  then Ok (firstn (Z.to_nat (j - i)) (skipn (Z.to_nat i) l))
  else Panic.

(** ** The connection *)

Record mysqlResult : Type := mkResult {
  affectedRows : list Z;
  insertIds : list Z
}.

Record mysqlConn : Type := mkConn {
  mc_buf : buffer;               (* buf *)
  mc_sequence : Z;               (* sequence, a uint8 *)
  mc_maxAllowedPacket : Z;       (* maxAllowedPacket *)
  mc_status : Z;                 (* status, a uint16 *)
  mc_flags : Z;                  (* flags *)
  mc_result : mysqlResult;       (* result *)
  mc_parseTime : bool;           (* parseTime *)
  mc_rejectReadOnly : bool;      (* cfg.RejectReadOnly *)
  mc_closed : bool;              (* the closed latch *)
  mc_canceled : option error;    (* canceled: the pending cancellation *)
  mc_finished : bool;            (* the watcher was told the operation ended *)
  mc_logged : list error;        (* what cfg.Logger.Print received *)
  mc_input : list Z;             (* bytes of the server not yet read *)
  mc_readErr : error;            (* what a read reports at the end of input *)
  mc_sent : list (list Z)        (* the slices sent on writeReq, in order *)
}.

Definition set_sequence (mc : mysqlConn) (s : Z) : mysqlConn :=
  mkConn (mc_buf mc) s (mc_maxAllowedPacket mc) (mc_status mc) (mc_flags mc)
    (mc_result mc) (mc_parseTime mc) (mc_rejectReadOnly mc) (mc_closed mc)
    (mc_canceled mc) (mc_finished mc) (mc_logged mc) (mc_input mc)
    (mc_readErr mc) (mc_sent mc).

Definition set_status (mc : mysqlConn) (s : Z) : mysqlConn :=
  mkConn (mc_buf mc) (mc_sequence mc) (mc_maxAllowedPacket mc) s (mc_flags mc)
    (mc_result mc) (mc_parseTime mc) (mc_rejectReadOnly mc) (mc_closed mc)
    (mc_canceled mc) (mc_finished mc) (mc_logged mc) (mc_input mc)
    (mc_readErr mc) (mc_sent mc).

Definition set_result (mc : mysqlConn) (r : mysqlResult) : mysqlConn :=
  mkConn (mc_buf mc) (mc_sequence mc) (mc_maxAllowedPacket mc) (mc_status mc)
    (mc_flags mc) r (mc_parseTime mc) (mc_rejectReadOnly mc) (mc_closed mc)
    (mc_canceled mc) (mc_finished mc) (mc_logged mc) (mc_input mc)
    (mc_readErr mc) (mc_sent mc).

Definition set_closed (mc : mysqlConn) (c : bool) : mysqlConn :=
  mkConn (mc_buf mc) (mc_sequence mc) (mc_maxAllowedPacket mc) (mc_status mc)
    (mc_flags mc) (mc_result mc) (mc_parseTime mc) (mc_rejectReadOnly mc) c
    (mc_canceled mc) (mc_finished mc) (mc_logged mc) (mc_input mc)
    (mc_readErr mc) (mc_sent mc).

Definition set_finished (mc : mysqlConn) (f : bool) : mysqlConn :=
  mkConn (mc_buf mc) (mc_sequence mc) (mc_maxAllowedPacket mc) (mc_status mc)
    (mc_flags mc) (mc_result mc) (mc_parseTime mc) (mc_rejectReadOnly mc)
    (mc_closed mc) (mc_canceled mc) f (mc_logged mc) (mc_input mc)
    (mc_readErr mc) (mc_sent mc).

Definition set_input (mc : mysqlConn) (i : list Z) : mysqlConn :=
  mkConn (mc_buf mc) (mc_sequence mc) (mc_maxAllowedPacket mc) (mc_status mc)
    (mc_flags mc) (mc_result mc) (mc_parseTime mc) (mc_rejectReadOnly mc)
    (mc_closed mc) (mc_canceled mc) (mc_finished mc) (mc_logged mc) i
    (mc_readErr mc) (mc_sent mc).

Definition set_mcbuf (mc : mysqlConn) (b : buffer) : mysqlConn :=
  mkConn b (mc_sequence mc) (mc_maxAllowedPacket mc) (mc_status mc)
    (mc_flags mc) (mc_result mc) (mc_parseTime mc) (mc_rejectReadOnly mc)
    (mc_closed mc) (mc_canceled mc) (mc_finished mc) (mc_logged mc)
    (mc_input mc) (mc_readErr mc) (mc_sent mc).

(** [mc.cfg.Logger.Print(e)] *)
Definition logPrint (mc : mysqlConn) (e : error) : mysqlConn :=
  mkConn (mc_buf mc) (mc_sequence mc) (mc_maxAllowedPacket mc) (mc_status mc)
    (mc_flags mc) (mc_result mc) (mc_parseTime mc) (mc_rejectReadOnly mc)
    (mc_closed mc) (mc_canceled mc) (mc_finished mc) (mc_logged mc ++ [e])
    (mc_input mc) (mc_readErr mc) (mc_sent mc).

(** [mc.writeReq <- data] *)
Definition send (mc : mysqlConn) (data : list Z) : mysqlConn :=
  mkConn (mc_buf mc) (mc_sequence mc) (mc_maxAllowedPacket mc) (mc_status mc)
    (mc_flags mc) (mc_result mc) (mc_parseTime mc) (mc_rejectReadOnly mc)
    (mc_closed mc) (mc_canceled mc) (mc_finished mc) (mc_logged mc)
    (mc_input mc) (mc_readErr mc) (mc_sent mc ++ [data]).

(** Modelled from the spec: [cleanup], [Close], [isBroken] and [finish] of
    connection.go, which is not among the sources.  Section 3 gives the
    connection a closed latch; section 4.4 has every I/O error, sequence
    mismatch or malformed packet mark the connection broken, and the
    packet codec does that by calling [Close] or [cleanup] only: the
    latch they set is the one [isBroken] reads.  [finish] tells the
    cancellation watcher that the operation ended (section 4.8). *)
Definition cleanup (mc : mysqlConn) : mysqlConn := set_closed mc true.
Definition Close (mc : mysqlConn) : mysqlConn := cleanup mc.
Definition isBroken (mc : mysqlConn) : bool := mc_closed mc.
Definition finish (mc : mysqlConn) : mysqlConn := set_finished mc true.

(** Modelled from the spec: [readNext] (section 4.1) is not in the
    [buffer.go] of the sources.  It yields the next [n] bytes of the
    socket, or the socket's error when they never arrive. *)
Definition readNext (mc : mysqlConn) (n : Z) : res (list Z) * mysqlConn :=
  if (0 <=? n) && (n <=? zlen (mc_input mc))
  then (Ok (firstn (Z.to_nat n) (mc_input mc)),
        set_input mc (skipn (Z.to_nat n) (mc_input mc)))
  else (Err (mc_readErr mc), mc).

(** What [writePacket] observes of one exchange with the writer loop:
    either [closech] wins one of the two [select]s, or the writer answers
    with [writeResult{n, err}]. *)
Inductive wevent : Type :=
| WClosedBeforeSend
| WClosedBeforeResult
| WResult (n : Z) (err : option error).

(** The writer loop: its answer to the [k]-th slice it receives. *)
Definition writer : Type := nat -> list Z -> wevent.

(** A writer that puts every slice on the wire in full. *)
Definition fullWriter : writer := fun _ data => WResult (zlen data) None.

(** One turn of a [for] loop: leave with a result, or go round again. *)
Inductive turn (A L : Type) : Type :=
| Return (r : res A) (mc : mysqlConn)
| Again (l : L) (mc : mysqlConn).

Arguments Return {A L} r mc.
Arguments Again {A L} l mc.

Section Packets.

Variable net : writer.

(** *** readPacket *)

(** The part of the loop body after [mc.sequence++]. [prevData] is nil
    exactly when it is empty: only full packets are appended to it. *)
Definition readPacket_payload (pktLen : Z) (prevData : list Z) (mc : mysqlConn)
  : turn (list Z) (list Z) :=
  if pktLen =? 0 then
    match prevData with
    | [] => Return (Err ErrInvalidConn) (Close (logPrint mc ErrMalformPkt))
    | _ => Return (Ok prevData) mc
    end
  else
    match readNext mc pktLen with
    | (Ok data, mc1) =>
        if pktLen <? maxPacketSize then
          match prevData with
          | [] => Return (Ok data) mc1
          | _ => Return (Ok (prevData ++ data)) mc1
          end
        else Again (prevData ++ data) mc1
    | (Err err, mc1) =>
        match mc_canceled mc1 with
        | Some cerr => Return (Err cerr) mc1
        | None => Return (Err ErrInvalidConn) (Close (logPrint mc1 err))
        end
    | (Panic, mc1) => Return Panic mc1
    end.

(** One turn of the loop of [readPacket]. *)
Definition readPacket_turn (prevData : list Z) (mc : mysqlConn)
  : turn (list Z) (list Z) :=
  match readNext mc 4 with
  | (Ok data, mc1) =>
      let pktLen := Z.lor (Z.lor (nth 0 data 0) (Z.shiftl (nth 1 data 0) 8))
                          (Z.shiftl (nth 2 data 0) 16) in
      if negb (nth 3 data 0 =? mc_sequence mc1) then
        if mc_sequence mc1 <? nth 3 data 0
        then Return (Err ErrPktSyncMul) (Close mc1)
        else Return (Err ErrPktSync) (Close mc1)
      else
        readPacket_payload pktLen prevData
          (set_sequence mc1 ((mc_sequence mc1 + 1) mod 256))
  | (Err err, mc1) =>
      match mc_canceled mc1 with
      | Some cerr => Return (Err cerr) mc1
      | None => Return (Err ErrInvalidConn) (Close (logPrint mc1 err))
      end
  | (Panic, mc1) => Return Panic mc1
  end.

(** The loop, on a bound of turns; [None] when the bound is exhausted. *)
Fixpoint readPacket_loop (fuel : nat) (prevData : list Z) (mc : mysqlConn)
  : option (res (list Z) * mysqlConn) :=
  match fuel with
  | O => None
  | S fuel' =>
      match readPacket_turn prevData mc with
      | Return r mc1 => Some (r, mc1)
      | Again prev mc1 => readPacket_loop fuel' prev mc1
      end
  end.

(** Every further turn has read at least a header: the unread input
    bounds the turns. *)
Definition readPacket (mc : mysqlConn) : option (res (list Z) * mysqlConn) :=
  readPacket_loop (S (length (mc_input mc))) [] mc.

(** *** writePacket *)

(** The three length bytes and the sequence byte, written to [data[0..3]]. *)
Definition put_header (data : list Z) (b0 b1 b2 s : Z) : res (list Z) :=
  d <- upd data 0 b0 ;;
  d <- upd d 1 b1 ;;
  d <- upd d 2 b2 ;;
  upd d 3 s.

(** One turn of the loop of [writePacket]; the loop state is
    [(pktLen, data)]. *)
Definition writePacket_turn (pktLen : Z) (data : list Z) (mc : mysqlConn)
  : turn unit (Z * list Z) :=
  let size := if maxPacketSize <=? pktLen then maxPacketSize else pktLen in
  let hdr :=
    if maxPacketSize <=? pktLen
    then put_header data 255 255 255 (mc_sequence mc)
    else put_header data (pktLen mod 256) (Z.shiftr pktLen 8 mod 256)
           (Z.shiftr pktLen 16 mod 256) (mc_sequence mc) in
  match hdr with
  | Ok data =>
      match net (length (mc_sent mc)) data with
      | WClosedBeforeSend => Return (Err ErrInvalidConn) mc
      | WClosedBeforeResult => Return (Err ErrInvalidConn) (send mc data)
      | WResult n err =>
          let mc := send mc data in
          match err with
          | None =>
              if n =? 4 + size then
                let mc := set_sequence mc ((mc_sequence mc + 1) mod 256) in
                if negb (size =? maxPacketSize) then Return (Ok tt) mc
                else match from data size with
                     | Ok data' => Again (pktLen - size, data') mc
                     | _ => Return Panic mc
                     end
              else Return (Err ErrInvalidConn)
                     (logPrint (cleanup mc) ErrMalformPkt)
          | Some err =>
              match mc_canceled mc with
              | Some cerr => Return (Err cerr) mc
              | None =>
                  if (n =? 0) && (pktLen =? zlen data - 4)
                  then Return (Err errBadConnNoWrite) mc
                  else Return (Err ErrInvalidConn) (logPrint (cleanup mc) err)
              end
          end
      end
  | _ => Return Panic mc
  end.

Fixpoint writePacket_loop (fuel : nat) (pktLen : Z) (data : list Z)
  (mc : mysqlConn) : option (res unit * mysqlConn) :=
  match fuel with
  | O => None
  | S fuel' =>
      match writePacket_turn pktLen data mc with
      | Return r mc1 => Some (r, mc1)
      | Again (pktLen', data') mc1 => writePacket_loop fuel' pktLen' data' mc1
      end
  end.

(** [data] is the slice's elements; each further turn has dropped
    [maxPacketSize] of them, which bounds the turns. *)
Definition writePacket (mc : mysqlConn) (data : list Z)
  : option (res unit * mysqlConn) :=
  let pktLen := zlen data - 4 in
  if mc_maxAllowedPacket mc <? pktLen then Some (Err ErrPktTooLarge, mc)
  else writePacket_loop (S (S (Z.to_nat (pktLen / maxPacketSize)))) pktLen data mc.

End Packets.

(** ** Protocol constants

    Modelled from the spec: const.go is not among the sources; the values
    are those of section 6. *)

Definition iOK : Z := 0x00.
Definition iAuthMoreData : Z := 0x01.
Definition iLocalInFile : Z := 0xfb.
Definition iEOF : Z := 0xfe.
Definition iERR : Z := 0xff.

Definition comStmtExecute : Z := 0x17.
Definition comStmtSendLongData : Z := 0x18.

Definition statusMoreResultsExists : Z := 0x0008.
Definition flagUnsigned : Z := 0x0020.

(** The field types the row decoders distinguish; [fieldTypeOther] is any
    code outside the list, which the decoders send to [default]. *)
Inductive fieldType : Type :=
| fieldTypeDecimal | fieldTypeTiny | fieldTypeShort | fieldTypeLong
| fieldTypeFloat | fieldTypeDouble | fieldTypeNULL | fieldTypeTimestamp
| fieldTypeLongLong | fieldTypeInt24 | fieldTypeDate | fieldTypeTime
| fieldTypeDateTime | fieldTypeYear | fieldTypeNewDate | fieldTypeVarChar
| fieldTypeBit | fieldTypeJSON | fieldTypeNewDecimal | fieldTypeEnum
| fieldTypeSet | fieldTypeTinyBLOB | fieldTypeMediumBLOB | fieldTypeLongBLOB
| fieldTypeBLOB | fieldTypeVarString | fieldTypeString | fieldTypeGeometry
| fieldTypeOther (code : Z).

(** [byte(t)], for the types [writeExecutePacket] writes. *)
Definition fieldType_code (t : fieldType) : Z :=
  match t with
  | fieldTypeDecimal => 0 | fieldTypeTiny => 1 | fieldTypeShort => 2
  | fieldTypeLong => 3 | fieldTypeFloat => 4 | fieldTypeDouble => 5
  | fieldTypeNULL => 6 | fieldTypeTimestamp => 7 | fieldTypeLongLong => 8
  | fieldTypeInt24 => 9 | fieldTypeDate => 10 | fieldTypeTime => 11
  | fieldTypeDateTime => 12 | fieldTypeYear => 13 | fieldTypeNewDate => 14
  | fieldTypeVarChar => 15 | fieldTypeBit => 16 | fieldTypeJSON => 245
  | fieldTypeNewDecimal => 246 | fieldTypeEnum => 247 | fieldTypeSet => 248
  | fieldTypeTinyBLOB => 249 | fieldTypeMediumBLOB => 250
  | fieldTypeLongBLOB => 251 | fieldTypeBLOB => 252
  | fieldTypeVarString => 253 | fieldTypeString => 254
  | fieldTypeGeometry => 255 | fieldTypeOther c => c
  end.

(** ** Values and columns *)

(** [driver.Value] by dynamic type.  A float is kept as its IEEE 754 bit
    pattern, a [time.Time] as an opaque number. *)
Inductive value : Type :=
| VNil
| VInt64 (v : Z)
| VUint64 (v : Z)
| VFloat32 (bits : Z)
| VFloat64 (bits : Z)
| VBool (b : bool)
| VBytes (b : list Z)
| VNilBytes                      (* []byte(nil) *)
| VString (s : list Z)
| VTime (t : Z)
| VRawMessage (b : list Z)       (* json.RawMessage *)
| VOther (tag : Z).              (* a value of any other type *)

Record mysqlField : Type := mkField {
  tableName : list Z;
  name : list Z;
  flags : Z;
  ftype : fieldType;   (* fieldType *)
  decimals : Z
}.

Record resultSet : Type := mkResultSet {
  columns : list mysqlField;
  done : bool
}.

(** [mysqlRows]: [attached] is [rows.mc != nil]; the connection that
    [rows.mc] points to is the one passed along. *)
Record mysqlRows : Type := mkRows {
  attached : bool;
  rs : resultSet
}.

Definition detach (rows : mysqlRows) : mysqlRows := mkRows false (rs rows).
Definition set_done (rows : mysqlRows) : mysqlRows :=
  mkRows (attached rows) (mkResultSet (columns (rs rows)) true).

(** ** Functions of the driver and of Go's library that the sources call
    and do not contain.

    utils.go ([readLengthEncodedInteger] and its companions, the date and
    time codecs), infile.go ([handleInFileRequest]) and the float parser
    of [strconv] are parameters of the development: what is proved holds
    for every implementation of them. *)
Record helpers : Type := mkHelpers {
  readLengthEncodedInteger : list Z -> res (Z * bool * Z);
  readLengthEncodedString : list Z -> res (list Z * bool * Z);
  (* the bytes that appendLengthEncodedInteger(b, n) appends to b *)
  appendLengthEncodedInteger : Z -> list Z;
  uint64ToString : Z -> list Z;
  formatBinaryTime : list Z -> Z -> res value;
  formatBinaryDateTime : list Z -> Z -> res value;
  parseBinaryDateTime : Z -> list Z -> res value;
  parseDateTime : list Z -> res value;
  (* the bytes that appendDateTime(b, t.In(loc)) appends to b *)
  appendDateTime : Z -> res (list Z);
  timeIsZero : Z -> bool;        (* Time.IsZero *)
  (* append: the capacity of the array allocated for a slice of capacity
     c that has to hold n elements *)
  growcap : Z -> Z -> Z;
  parseFloat : list Z -> Z -> res Z;   (* strconv.ParseFloat *)
  float32 : Z -> Z;                    (* float32(d) of a float64 *)
  handleInFileRequest : list Z -> mysqlConn -> option (res unit * mysqlConn)
}.

(** ** Little-endian integers (encoding/binary) *)

(** [binary.LittleEndian.UintN] of a slice of N/8 bytes. *)
Fixpoint le_uint (b : list Z) : Z :=
  match b with
  | [] => 0
  | x :: t => x + 256 * le_uint t
  end.

(** The [n] low bytes of [v], least significant first. *)
Fixpoint le_bytes (n : nat) (v : Z) : list Z :=
  match n with
  | O => []
  | S n' => v mod 256 :: le_bytes n' (v / 256)
  end.

(** [uint64ToBytes] of utils.go.
    Modelled from the spec: utils.go is not among the sources; section
    4.3 has all integers little-endian. *)
Definition uint64ToBytes (v : Z) : list Z := le_bytes 8 v.

(** [intN(u)] of an unsigned [bits]-bit [u]: two's complement. *)
Definition to_signed (bits : Z) (u : Z) : Z :=
  if u <? 2 ^ (bits - 1) then u else u - 2 ^ bits.

(** [uint64(v)] of an [int64]. *)
Definition to_uint64 (v : Z) : Z := v mod 2 ^ 64.

(** ** strconv.ParseInt and strconv.ParseUint, base 10

    Go's library: digits are read left to right; the first byte that is
    not a digit is a syntax error, the first prefix whose value leaves the
    range of [bitSize] bits is a range error. *)

Fixpoint parse_digits (maxVal : Z) (acc : Z) (s : list Z) : res Z :=
  match s with
  | [] => Ok acc
  | c :: t =>
      if (48 <=? c) && (c <=? 57) then
        let n := acc * 10 + (c - 48) in
        if maxVal <? n then Err ErrRange else parse_digits maxVal n t
      else Err ErrSyntax
  end.

Definition ParseUint (s : list Z) (bitSize : Z) : res Z :=
  match s with
  | [] => Err ErrSyntax
  | _ => parse_digits (2 ^ bitSize - 1) 0 s
  end.

Definition ParseInt (s : list Z) (bitSize : Z) : res Z :=
  match s with
  | [] => Err ErrSyntax
  | c :: t =>
      let neg := c =? 45 in
      let s' := if (c =? 43) || (c =? 45) then t else s in
      un <- ParseUint s' bitSize ;;
      let cutoff := 2 ^ (bitSize - 1) in
      if negb neg && (cutoff <=? un) then Err ErrRange
      else if neg && (cutoff <? un) then Err ErrRange
      else Ok (if neg then - un else un)
  end.

Section Results.

Variable net : writer.
Variable U : helpers.

(** *** Result packets *)

Definition readStatus (b : list Z) : res Z :=
  b0 <- idx b 0 ;;
  b1 <- idx b 1 ;;
  Ok (Z.lor b0 (Z.shiftl b1 8)).

(** [s[len(s)-1] = v] when [len(s) > 0] *)
Definition set_last (s : list Z) (v : Z) : list Z :=
  match s with
  | [] => []
  | _ => removelast s ++ [v]
  end.

(** The error that [handleErrorPacket] returns is its [Ok] result. *)
Definition handleErrorPacket (mc : mysqlConn) (data : list Z)
  : res error * mysqlConn :=
  match idx data 0 with
  | Ok d0 =>
      if negb (d0 =? iERR) then (Ok ErrMalformPkt, mc)
      else
        match sub data 1 3 with
        | Ok b =>
            let errno := le_uint b in
            if ((errno =? 1792) || (errno =? 1290)) && mc_rejectReadOnly mc
            then (Ok ErrBadConn, Close mc)
            else
              (d3 <- idx data 3 ;;
               if d3 =? 0x23 then
                 st <- sub data 4 (4 + 5) ;;
                 msg <- from data 9 ;;
                 Ok (MySQLError errno st msg)
               else
                 msg <- from data 3 ;;
                 Ok (MySQLError errno [0; 0; 0; 0; 0] msg), mc)
        | _ => (Panic, mc)
        end
  | _ => (Panic, mc)
  end.

Definition handleOkPacket (mc : mysqlConn) (data : list Z)
  : res unit * mysqlConn :=
  let r :=
    d1 <- from data 1 ;;
    a <- readLengthEncodedInteger U d1 ;;
    let '(affected, _, n) := a in
    d2 <- from data (1 + n) ;;
    b <- readLengthEncodedInteger U d2 ;;
    let '(insertId, _, m) := b in
    let result :=
      mkResult (set_last (affectedRows (mc_result mc)) (to_signed 64 affected))
               (set_last (insertIds (mc_result mc)) (to_signed 64 insertId)) in
    st <- sub data (1 + n + m) (1 + n + m + 2) ;;
    s <- readStatus st ;;
    Ok (result, s) in
  match r with
  | Ok (result, s) => (Ok tt, set_status (set_result mc result) s)
  | Err e => (Err e, mc)
  | Panic => (Panic, mc)
  end.

(** Turns a returned error into the failure of an [error]-valued call. *)
Definition fail_with {A} (r : res error * mysqlConn) : res A * mysqlConn :=
  match r with
  | (Ok e, mc) => (Err e, mc)
  | (Err e, mc) => (Err e, mc)
  | (Panic, mc) => (Panic, mc)
  end.

Definition readResultSetHeaderPacket (mc : mysqlConn)
  : option (res Z * mysqlConn) :=
  let mc := set_result mc
              (mkResult (affectedRows (mc_result mc) ++ [0])
                        (insertIds (mc_result mc) ++ [0])) in
  match readPacket mc with
  | None => None
  | Some (Ok data, mc) =>
      match idx data 0 with
      | Ok d0 =>
          if d0 =? iOK then
            match handleOkPacket mc data with
            | (Ok _, mc) => Some (Ok 0, mc)
            | (Err e, mc) => Some (Err e, mc)
            | (Panic, mc) => Some (Panic, mc)
            end
          else if d0 =? iERR then Some (fail_with (handleErrorPacket mc data))
          else if d0 =? iLocalInFile then
            match from data 1 with
            | Ok nm =>
                match handleInFileRequest U nm mc with
                | None => None
                | Some (Ok _, mc) => Some (Ok 0, mc)
                | Some (Err e, mc) => Some (Err e, mc)
                | Some (Panic, mc) => Some (Panic, mc)
                end
            | _ => Some (Panic, mc)
            end
          else
            (* [int(num)]: Go's [int] has 64 bits on the platforms the
               driver is built for *)
            match readLengthEncodedInteger U data with
            | Ok (num, _, _) => Some (Ok (to_signed 64 num), mc)
            | Err e => Some (Err e, mc)
            | Panic => Some (Panic, mc)
            end
      | _ => Some (Panic, mc)
      end
  | Some (Err e, mc) => Some (Err e, mc)
  | Some (Panic, mc) => Some (Panic, mc)
  end.

(** One turn of the loop of [readUntilEOF]. *)
Definition readUntilEOF_turn (mc : mysqlConn)
  : option (turn unit unit) :=
  match readPacket mc with
  | None => None
  | Some (Ok data, mc) =>
      match idx data 0 with
      | Ok d0 =>
          if d0 =? iERR then
            Some (let '(r, mc) := fail_with (handleErrorPacket mc data) in
                  Return r mc)
          else if d0 =? iEOF then
            if zlen data =? 5 then
              match s <- from data 3 ;; readStatus s with
              | Ok s => Some (Return (Ok tt) (set_status mc s))
              | Err e => Some (Return (Err e) mc)
              | Panic => Some (Return Panic mc)
              end
            else Some (Return (Ok tt) mc)
          else Some (Again tt mc)
      | _ => Some (Return Panic mc)
      end
  | Some (Err e, mc) => Some (Return (Err e) mc)
  | Some (Panic, mc) => Some (Return Panic mc)
  end.

Fixpoint readUntilEOF_loop (fuel : nat) (mc : mysqlConn)
  : option (res unit * mysqlConn) :=
  match fuel with
  | O => None
  | S fuel' =>
      match readUntilEOF_turn mc with
      | None => None
      | Some (Return r mc) => Some (r, mc)
      | Some (Again _ mc) => readUntilEOF_loop fuel' mc
      end
  end.

(** Every turn reads a packet, so at least a header. *)
Definition readUntilEOF (mc : mysqlConn) : option (res unit * mysqlConn) :=
  readUntilEOF_loop (S (length (mc_input mc))) mc.

(** One turn of the loop of [discardResults], entered when the loop
    condition holds. *)
Definition discardResults_turn (mc : mysqlConn)
  : option (turn unit unit) :=
  match readResultSetHeaderPacket mc with
  | None => None
  | Some (Ok resLen, mc) =>
      if 0 <? resLen then
        match readUntilEOF mc with
        | None => None
        | Some (Ok _, mc) =>
            match readUntilEOF mc with
            | None => None
            | Some (Ok _, mc) => Some (Again tt mc)
            | Some (Err e, mc) => Some (Return (Err e) mc)
            | Some (Panic, mc) => Some (Return Panic mc)
            end
        | Some (Err e, mc) => Some (Return (Err e) mc)
        | Some (Panic, mc) => Some (Return Panic mc)
        end
      else Some (Again tt mc)
  | Some (Err e, mc) => Some (Return (Err e) mc)
  | Some (Panic, mc) => Some (Return Panic mc)
  end.

Fixpoint discardResults_loop (fuel : nat) (mc : mysqlConn)
  : option (res unit * mysqlConn) :=
  match fuel with
  | O => None
  | S fuel' =>
      if negb (Z.land (mc_status mc) statusMoreResultsExists =? 0) then
        match discardResults_turn mc with
        | None => None
        | Some (Return r mc) => Some (r, mc)
        | Some (Again _ mc) => discardResults_loop fuel' mc
        end
      else Some (Ok tt, mc)
  end.

Definition discardResults (mc : mysqlConn) : option (res unit * mysqlConn) :=
  discardResults_loop (S (length (mc_input mc))) mc.

(** *** rows.go *)

Definition HasNextResultSet (rows : mysqlRows) (mc : mysqlConn) : bool :=
  if negb (attached rows) then false
  else negb (Z.land (mc_status mc) statusMoreResultsExists =? 0).

(** [mysqlRows.Close]. [mc] is the connection [rows.mc] points to when
    [rows] is attached. *)
Definition mysqlRows_Close (rows : mysqlRows) (mc : mysqlConn)
  : option (res unit * mysqlRows * mysqlConn) :=
  if negb (attached rows) then Some (Ok tt, rows, mc)
  else if isBroken mc then Some (Err ErrInvalidConn, rows, mc)
  else
    let drained :=
      if negb (done (rs rows)) then readUntilEOF mc else Some (Ok tt, mc) in
    match drained with
    | None => None
    | Some (Ok _, mc) =>
        match discardResults mc with
        | None => None
        | Some (Ok _, mc) => Some (Ok tt, detach rows, finish mc)
        | Some (r, mc) => Some (r, rows, mc)
        end
    | Some (Err e, mc) => Some (Err e, detach rows, finish mc)
    | Some (Panic, mc) => Some (Panic, rows, mc)
    end.

End Results.

Section Rows.

Variable U : helpers.

(** *** textRows.readRow *)

(** The [switch] on the column's field type, for one non-NULL field. *)
Definition text_value (parseTime : bool) (col : mysqlField) (buf : list Z)
  : res value :=
  match ftype col with
  | fieldTypeTimestamp | fieldTypeDateTime | fieldTypeDate | fieldTypeNewDate =>
      if parseTime then parseDateTime U buf else Ok (VBytes buf)
  | fieldTypeTiny | fieldTypeShort | fieldTypeInt24 | fieldTypeYear
  | fieldTypeLong =>
      v <- ParseInt buf 32 ;; Ok (VInt64 v)
  | fieldTypeLongLong =>
      if negb (Z.land (flags col) flagUnsigned =? 0)
      then v <- ParseUint buf 64 ;; Ok (VUint64 v)
      else v <- ParseInt buf 64 ;; Ok (VInt64 v)
  | fieldTypeFloat =>
      d <- parseFloat U buf 32 ;; Ok (VFloat32 (float32 U d))
  | fieldTypeDouble =>
      d <- parseFloat U buf 64 ;; Ok (VFloat64 d)
  | _ => Ok (VBytes buf)
  end.

(** The loop [for i := range dest], from index [i], on [n] remaining
    entries; the values decoded and the final [pos]. *)
Fixpoint text_fields (parseTime : bool) (cols : list mysqlField)
  (data : list Z) (n : nat) (i pos : Z) : res (list value * Z) :=
  match n with
  | O => Ok ([], pos)
  | S n' =>
      d <- from data pos ;;
      r <- readLengthEncodedString U d ;;
      let '(buf, isNull, m) := r in
      let pos := pos + m in
      v <- (if isNull then Ok VNil
            else match nth_error cols (Z.to_nat i) with
                 | Some col => text_value parseTime col buf
                 | None => Panic
                 end) ;;
      rest <- text_fields parseTime cols data n' (i + 1) pos ;;
      Ok (v :: fst rest, snd rest)
  end.

(** [textRows.readRow(dest)] with [len(dest) = ndest]; the values written
    to [dest] are the result. *)
Definition textRows_readRow (rows : mysqlRows) (mc : mysqlConn) (ndest : nat)
  : option (res (list value) * mysqlRows * mysqlConn) :=
  if done (rs rows) then Some (Err io_EOF, rows, mc)
  else
    match readPacket mc with
    | None => None
    | Some (Ok data, mc) =>
        match idx data 0 with
        | Ok d0 =>
            if (d0 =? iEOF) && (zlen data =? 5) then
              match s <- from data 3 ;; readStatus s with
              | Ok s =>
                  let mc := set_status mc s in
                  let rows := set_done rows in
                  Some (Err io_EOF,
                        if negb (HasNextResultSet rows mc)
                        then detach rows else rows, mc)
              | Err e => Some (Err e, rows, mc)
              | Panic => Some (Panic, rows, mc)
              end
            else if d0 =? iERR then
              let '(r, mc) := fail_with (handleErrorPacket mc data) in
              Some (r, detach rows, mc)
            else
              match text_fields (mc_parseTime mc) (columns (rs rows)) data
                      ndest 0 0 with
              | Ok (dest, _) => Some (Ok dest, rows, mc)
              | Err e => Some (Err e, rows, mc)
              | Panic => Some (Panic, rows, mc)
              end
        | _ => Some (Panic, rows, mc)
        end
    | Some (Err e, mc) => Some (Err e, rows, mc)
    | Some (Panic, mc) => Some (Panic, rows, mc)
    end.

(** *** binaryRows.readRow *)

(** [dstlen] from the column's decimals; [base] is 8 for TIME and 19 for
    the date-time types. *)
Definition dstlen_of (base : Z) (col : mysqlField) : res Z :=
  let d := decimals col in
  if (d =? 0x00) || (d =? 0x1f) then Ok base
  else if (1 <=? d) && (d <=? 6) then Ok (base + 1 + d)
  else Err (ErrFmt d).

(** Is the column one of the length-coded binary string types? *)
Definition is_lenenc_type (t : fieldType) : bool :=
  match t with
  | fieldTypeDecimal | fieldTypeNewDecimal | fieldTypeVarChar
  | fieldTypeBit | fieldTypeEnum | fieldTypeSet | fieldTypeTinyBLOB
  | fieldTypeMediumBLOB | fieldTypeLongBLOB | fieldTypeBLOB
  | fieldTypeVarString | fieldTypeString | fieldTypeGeometry
  | fieldTypeJSON => true
  | _ => false
  end.

Definition is_temporal_type (t : fieldType) : bool :=
  match t with
  | fieldTypeDate | fieldTypeNewDate | fieldTypeTime
  | fieldTypeTimestamp | fieldTypeDateTime => true
  | _ => false
  end.

Definition is_unsigned (col : mysqlField) : bool :=
  negb (Z.land (flags col) flagUnsigned =? 0).

(** A fixed-width integer of [w] bytes at [pos]. *)
Definition binary_int (col : mysqlField) (data : list Z) (pos w : Z)
  : res (value * Z) :=
  b <- sub data pos (pos + w) ;;
  let u := le_uint b in
  Ok (VInt64 (if is_unsigned col then u else to_signed (8 * w) u), pos + w).

(** The [switch] on the column's field type, for one non-NULL field at
    [pos]; the value and the new [pos]. *)
Definition binary_value (parseTime : bool) (col : mysqlField)
  (data : list Z) (pos : Z) : res (value * Z) :=
  match ftype col with
  | fieldTypeNULL => Ok (VNil, pos)
  | fieldTypeTiny =>
      b <- idx data pos ;;
      Ok (VInt64 (if is_unsigned col then b else to_signed 8 b), pos + 1)
  | fieldTypeShort | fieldTypeYear => binary_int col data pos 2
  | fieldTypeInt24 | fieldTypeLong => binary_int col data pos 4
  | fieldTypeLongLong =>
      b <- sub data pos (pos + 8) ;;
      let val := le_uint b in
      if is_unsigned col then
        if 2 ^ 63 - 1 <? val
        then Ok (VString (uint64ToString U val), pos + 8)
        else Ok (VInt64 val, pos + 8)
      else Ok (VInt64 (to_signed 64 val), pos + 8)
  | fieldTypeFloat =>
      b <- sub data pos (pos + 4) ;; Ok (VFloat32 (le_uint b), pos + 4)
  | fieldTypeDouble =>
      b <- sub data pos (pos + 8) ;; Ok (VFloat64 (le_uint b), pos + 8)
  | fieldTypeOther c => Err (ErrFmt c)
  | t =>
      if is_lenenc_type t then
        d <- from data pos ;;
        r <- readLengthEncodedString U d ;;
        let '(buf, isNull, n) := r in
        Ok (if isNull then VNil else VBytes buf, pos + n)
      else
        (* the date and time types *)
        d <- from data pos ;;
        r <- readLengthEncodedInteger U d ;;
        let '(num, isNull, n) := r in
        let pos := pos + n in
        if isNull then Ok (VNil, pos)
        else
          v <- (match t with
                | fieldTypeTime =>
                    dstlen <- dstlen_of 8 col ;;
                    b <- sub data pos (pos + num) ;;
                    formatBinaryTime U b dstlen
                | _ =>
                    if parseTime then
                      b <- from data pos ;; parseBinaryDateTime U num b
                    else
                      dstlen <- (match t with
                                 | fieldTypeDate => Ok 10
                                 | _ => dstlen_of 19 col
                                 end) ;;
                      b <- sub data pos (pos + num) ;;
                      formatBinaryDateTime U b dstlen
                end) ;;
          Ok (v, pos + num)
  end.

(** Bit [i+2] of the NULL bitmap. *)
Definition null_bit (nullMask : list Z) (i : Z) : res bool :=
  b <- idx nullMask (Z.shiftr (i + 2) 3) ;;
  Ok (Z.land (Z.shiftr b (Z.land (i + 2) 7)) 1 =? 1).

(** The loop [for i := range dest], from index [i], on [n] remaining
    entries; the values decoded and the final [pos]. *)
Fixpoint binary_fields (parseTime : bool) (cols : list mysqlField)
  (nullMask data : list Z) (n : nat) (i pos : Z) : res (list value * Z) :=
  match n with
  | O => Ok ([], pos)
  | S n' =>
      isNull <- null_bit nullMask i ;;
      r <- (if isNull : bool then Ok (VNil, pos)
            else match nth_error cols (Z.to_nat i) with
                 | Some col => binary_value parseTime col data pos
                 | None => Panic
                 end) ;;
      rest <- binary_fields parseTime cols nullMask data n' (i + 1) (snd r) ;;
      Ok (fst r :: fst rest, snd rest)
  end.

(** The part of [binaryRows.readRow] that decodes a row packet [data]
    into [ndest] values: the values and the final [pos]. *)
Definition binary_row (parseTime : bool) (cols : list mysqlField)
  (data : list Z) (ndest : nat) : res (list value * Z) :=
  let pos := 1 + Z.shiftr (Z.of_nat ndest + 7 + 2) 3 in
  nullMask <- sub data 1 pos ;;
  binary_fields parseTime cols nullMask data ndest 0 pos.

Definition binaryRows_readRow (rows : mysqlRows) (mc : mysqlConn) (ndest : nat)
  : option (res (list value) * mysqlRows * mysqlConn) :=
  match readPacket mc with
  | None => None
  | Some (Ok data, mc) =>
      match idx data 0 with
      | Ok d0 =>
          if negb (d0 =? iOK) then
            if (d0 =? iEOF) && (zlen data =? 5) then
              match s <- from data 3 ;; readStatus s with
              | Ok s =>
                  let mc := set_status mc s in
                  let rows := set_done rows in
                  Some (Err io_EOF,
                        if negb (HasNextResultSet rows mc)
                        then detach rows else rows, mc)
              | Err e => Some (Err e, rows, mc)
              | Panic => Some (Panic, rows, mc)
              end
            else
              let '(r, mc) := fail_with (handleErrorPacket mc data) in
              Some (r, detach rows, mc)
          else
            match binary_row (mc_parseTime mc) (columns (rs rows)) data
                    ndest with
            | Ok (dest, _) => Some (Ok dest, rows, mc)
            | Err e => Some (Err e, rows, mc)
            | Panic => Some (Panic, rows, mc)
            end
      | _ => Some (Panic, rows, mc)
      end
  | Some (Err e, mc) => Some (Err e, rows, mc)
  | Some (Panic, mc) => Some (Panic, rows, mc)
  end.

End Rows.

(** ** Prepared statements *)

Record mysqlStmt : Type := mkStmt {
  stmt_id : Z;         (* id, a uint32 *)
  paramCount : Z
}.

(** [s[i] = v] *)
Definition sset (s : slice) (i v : Z) : res slice :=
  if (0 <=? i) && (i <? len s)
  then a <- upd (arr s) i v ;; Ok (mkSlice a (len s))
  else Panic.

(** [copy(l[off:], b)] when [b] fits. *)
Definition write_at (l : list Z) (off : Z) (b : list Z) : list Z :=
  firstn (Z.to_nat off) l ++ b ++ skipn (Z.to_nat off + length b) l.

Section Statements.

Variable net : writer.
Variable U : helpers.

(** [append(s, x...)]: in place while the capacity lasts, else into a
    new array. *)
Definition append_slice (s : slice) (x : list Z) : slice :=
  let n := len s + zlen x in
  if n <=? cap s then mkSlice (write_at (arr s) (len s) x) n
  else
    let c := Z.max n (growcap U (cap s) n) in
    mkSlice (elems s ++ x ++ repeat 0 (Z.to_nat (c - n))) n.

(** One turn of the loop of [writeCommandLongData]; the loop state is
    [(argLen, pktLen, data)]. *)
Definition writeCommandLongData_turn (stmt : mysqlStmt) (paramID : Z)
  (maxLen argLen pktLen : Z) (data : list Z) (mc : mysqlConn)
  : option (turn unit (Z * Z * list Z)) :=
  let dataOffset := 1 + 4 + 2 in
  let pktLen := if dataOffset + argLen <? maxLen then dataOffset + argLen
                else pktLen in
  let mc := set_sequence mc 0 in
  let filled :=
    d <- upd data 4 comStmtSendLongData ;;
    d <- upd d 5 (stmt_id stmt mod 256) ;;
    d <- upd d 6 (Z.shiftr (stmt_id stmt) 8 mod 256) ;;
    d <- upd d 7 (Z.shiftr (stmt_id stmt) 16 mod 256) ;;
    d <- upd d 8 (Z.shiftr (stmt_id stmt) 24 mod 256) ;;
    d <- upd d 9 (paramID mod 256) ;;
    d <- upd d 10 (Z.shiftr paramID 8 mod 256) ;;
    pkt <- sub d 0 (4 + pktLen) ;;
    Ok (d, pkt) in
  match filled with
  | Ok (data, pkt) =>
      match writePacket net mc pkt with
      | None => None
      | Some (Ok _, mc) =>
          match from data (pktLen - dataOffset) with
          | Ok data' =>
              Some (Again (argLen - (pktLen - dataOffset), pktLen, data') mc)
          | _ => Some (Return Panic mc)
          end
      | Some (r, mc) => Some (Return r mc)
      end
  | _ => Some (Return Panic mc)
  end.

Fixpoint writeCommandLongData_loop (fuel : nat) (stmt : mysqlStmt)
  (paramID maxLen argLen pktLen : Z) (data : list Z) (mc : mysqlConn)
  : option (res unit * mysqlConn) :=
  match fuel with
  | O => None
  | S fuel' =>
      if 0 <? argLen then
        match writeCommandLongData_turn stmt paramID maxLen argLen pktLen
                data mc with
        | None => None
        | Some (Return r mc) => Some (r, mc)
        | Some (Again (argLen', pktLen', data') mc) =>
            writeCommandLongData_loop fuel' stmt paramID maxLen argLen'
              pktLen' data' mc
        end
      else Some (Ok tt, set_sequence mc 0)
  end.

Definition writeCommandLongData (stmt : mysqlStmt) (mc : mysqlConn)
  (paramID : Z) (arg : list Z) : option (res unit * mysqlConn) :=
  let maxLen := mc_maxAllowedPacket mc - 1 in
  let data := repeat 0 (4 + 1 + 4 + 2) ++ arg in
  writeCommandLongData_loop (S (length arg)) stmt paramID maxLen (zlen arg)
    maxLen data mc.

(** The state of the loop over the arguments of [writeExecutePacket]:
    [data] with the NULL bitmap and the types written through
    [nullMask] and [paramTypes], and [paramValues]. *)
Record execState : Type := mkExec {
  ex_data : slice;
  ex_paramValues : slice
}.

(** [nullMask[i/8] |= 1 << (uint(i) & 7)]; [nullMask] is [data[maskPos:]]. *)
Definition set_null (data : slice) (maskPos i : Z) : res slice :=
  b <- idx (elems data) (maskPos + i / 8) ;;
  sset data (maskPos + i / 8) (Z.lor b (Z.shiftl 1 (Z.land i 7)) mod 256).

(** [paramTypes[i+i] = t; paramTypes[i+i+1] = f]; [paramTypes] is
    [data[typesPos:]]. *)
Definition set_type (data : slice) (typesPos i : Z) (t : fieldType) (f : Z)
  : res slice :=
  d <- sset data (typesPos + (i + i)) (fieldType_code t) ;;
  sset d (typesPos + (i + i + 1)) f.

(** The eight bytes of a 64-bit parameter. *)
Definition put_value64 (pv : slice) (v : Z) : slice :=
  if 0 <=? cap pv - len pv - 8
  then mkSlice (write_at (arr pv) (len pv) (le_bytes 8 v)) (len pv + 8)
  else append_slice pv (uint64ToBytes v).

(** A byte string parameter that is not nil. *)
Definition put_bytes (stmt : mysqlStmt) (longDataSize i : Z) (v : list Z)
  (st : execState) (mc : mysqlConn)
  : option (res execState * mysqlConn) :=
  if zlen v <? longDataSize then
    let pv := append_slice (ex_paramValues st)
                (appendLengthEncodedInteger U (zlen v)) in
    Some (Ok (mkExec (ex_data st) (append_slice pv v)), mc)
  else
    match writeCommandLongData stmt mc i v with
    | None => None
    | Some (Ok _, mc) => Some (Ok st, mc)
    | Some (Err e, mc) => Some (Err e, mc)
    | Some (Panic, mc) => Some (Panic, mc)
    end.

(** The body of the loop for argument [i]. *)
Definition exec_arg (stmt : mysqlStmt) (longDataSize maskPos typesPos i : Z)
  (arg : value) (st : execState) (mc : mysqlConn)
  : option (res execState * mysqlConn) :=
  let data := ex_data st in
  let pv := ex_paramValues st in
  let null :=
    Some (d <- set_null data maskPos i ;;
          d <- set_type d typesPos i fieldTypeNULL 0x00 ;;
          Ok (mkExec d pv), mc) in
  let typed t f (k : slice -> option (res execState * mysqlConn)) :=
    match set_type data typesPos i t f with
    | Ok d => k d
    | Err e => Some (Err e, mc)
    | Panic => Some (Panic, mc)
    end in
  match arg with
  | VNil => null
  | VInt64 v =>
      typed fieldTypeLongLong 0x00 (fun d =>
        Some (Ok (mkExec d (put_value64 pv (to_uint64 v))), mc))
  | VUint64 v =>
      typed fieldTypeLongLong 0x80 (fun d =>
        Some (Ok (mkExec d (put_value64 pv v)), mc))
  | VFloat64 bits =>
      typed fieldTypeDouble 0x00 (fun d =>
        Some (Ok (mkExec d (put_value64 pv bits)), mc))
  | VBool v =>
      typed fieldTypeTiny 0x00 (fun d =>
        Some (Ok (mkExec d (append_slice pv [if v then 0x01 else 0x00])), mc))
  | VBytes v | VRawMessage v =>
      typed fieldTypeString 0x00 (fun d =>
        put_bytes stmt longDataSize i v (mkExec d pv) mc)
  | VNilBytes => null
  | VString v =>
      typed fieldTypeString 0x00 (fun d =>
        put_bytes stmt longDataSize i v (mkExec d pv) mc)
  | VTime t =>
      typed fieldTypeString 0x00 (fun d =>
        let b := if timeIsZero U t
                 then Ok [48; 48; 48; 48; 45; 48; 48; 45; 48; 48]
                 else appendDateTime U t in
        match b with
        | Ok b =>
            let pv := append_slice pv
                        (appendLengthEncodedInteger U (zlen b)) in
            Some (Ok (mkExec d (append_slice pv b)), mc)
        | Err e => Some (Err e, mc)
        | Panic => Some (Panic, mc)
        end)
  | VFloat32 _ => Some (Err (ErrFmt 0), mc)
  | VOther tag => Some (Err (ErrFmt tag), mc)
  end.

(** The loop [for i, arg := range args], from index [i]. *)
Fixpoint exec_args (stmt : mysqlStmt) (longDataSize maskPos typesPos : Z)
  (args : list value) (i : Z) (st : execState) (mc : mysqlConn)
  : option (res execState * mysqlConn) :=
  match args with
  | [] => Some (Ok st, mc)
  | arg :: rest =>
      match exec_arg stmt longDataSize maskPos typesPos i arg st mc with
      | None => None
      | Some (Ok st, mc) =>
          exec_args stmt longDataSize maskPos typesPos rest (i + 1) st mc
      | Some (r, mc) => Some (r, mc)
      end
  end.

(** The fixed head of the packet: command, statement id, flags and
    iteration count, in [data[4..13]]. *)
Definition exec_head (stmt : mysqlStmt) (data : slice) : res slice :=
  d <- sset data 4 comStmtExecute ;;
  d <- sset d 5 (stmt_id stmt mod 256) ;;
  d <- sset d 6 (Z.shiftr (stmt_id stmt) 8 mod 256) ;;
  d <- sset d 7 (Z.shiftr (stmt_id stmt) 16 mod 256) ;;
  d <- sset d 8 (Z.shiftr (stmt_id stmt) 24 mod 256) ;;
  d <- sset d 9 0x00 ;;
  d <- sset d 10 0x01 ;;
  d <- sset d 11 0x00 ;;
  d <- sset d 12 0x00 ;;
  sset d 13 0x00.

(** The part of [writeExecutePacket] under [if len(args) > 0], up to the
    final [writePacket]: the slice to send. *)
Definition exec_params (stmt : mysqlStmt) (longDataSize : Z)
  (args : list value) (data : slice) (mc : mysqlConn)
  : option (res slice * mysqlConn) :=
  let pos := 4 + 1 + 4 + 1 + 4 in
  let maskLen := (zlen args + 7) / 8 in
  let typesLen := 1 + 2 * zlen args in
  let prepared :=
    if cap data <=? pos + maskLen + typesLen then
      h <- sub (arr data) 0 pos ;;
      Ok (mkSlice (h ++ repeat 0 (Z.to_nat (maskLen + typesLen)))
                  (pos + maskLen + typesLen))
    else
      m <- sub (arr data) pos (pos + maskLen) ;;
      Ok (mkSlice (write_at (arr data) pos (repeat 0 (length m))) (len data)) in
  let maskPos := pos in
  let pos := pos + maskLen in
  match d <- prepared ;; sset d pos 0x01 with
  | Ok data =>
      let pos := pos + 1 in
      let typesPos := pos in
      let pos := pos + zlen args * 2 in
      match from (arr data) pos with
      | Ok tail =>
          let paramValues := mkSlice tail 0 in
          let valuesCap := cap paramValues in
          match exec_args stmt longDataSize maskPos typesPos args 0
                  (mkExec data paramValues) mc with
          | None => None
          | Some (Ok st, mc) =>
              let data := ex_data st in
              let paramValues := ex_paramValues st in
              if negb (valuesCap =? cap paramValues) then
                let data := append_slice (mkSlice (arr data) pos)
                              (elems paramValues) in
                match store (mc_buf mc) data with
                | (Some err, b) =>
                    Some (Err errBadConnNoWrite,
                          logPrint (set_mcbuf mc b) err)
                | (None, b) =>
                    Some (slice_to data (pos + len paramValues),
                          set_mcbuf mc b)
                end
              else
                (* [paramValues] still shares the array of [data] *)
                Some (slice_to
                        (mkSlice (firstn (Z.to_nat pos) (arr data)
                                  ++ arr paramValues) (len data))
                        (pos + len paramValues), mc)
          | Some (Err e, mc) => Some (Err e, mc)
          | Some (Panic, mc) => Some (Panic, mc)
          end
      | _ => Some (Panic, mc)
      end
  | _ => Some (Panic, mc)
  end.

Definition writeExecutePacket (stmt : mysqlStmt) (mc : mysqlConn)
  (args : list value) : option (res unit * mysqlConn) :=
  if negb (zlen args =? paramCount stmt) then Some (Err (ErrFmt (zlen args)), mc)
  else
    let minPktLen := 4 + 1 + 4 + 1 + 4 in
    let longDataSize :=
      let l := Z.quot (mc_maxAllowedPacket mc) (paramCount stmt + 1) in
      if l <? 64 then 64 else l in
    let mc := set_sequence mc 0 in
    let taken :=
      match args with
      | [] => takeBuffer (mc_buf mc) minPktLen
      | _ => (takeCompleteBuffer (mc_buf mc), mc_buf mc)
      end in
    match taken with
    | (Err err, b) => Some (Err errBadConnNoWrite, logPrint (set_mcbuf mc b) err)
    | (Panic, b) => Some (Panic, set_mcbuf mc b)
    | (Ok data, b) =>
        let mc := set_mcbuf mc b in
        match exec_head stmt data with
        | Ok data =>
            let built :=
              match args with
              | [] => Some (Ok data, mc)
              | _ => exec_params stmt longDataSize args data mc
              end in
            match built with
            | None => None
            | Some (Ok data, mc) => writePacket net mc (elems data)
            | Some (Err e, mc) => Some (Err e, mc)
            | Some (Panic, mc) => Some (Panic, mc)
            end
        | _ => Some (Panic, mc)
        end
    end.

End Statements.

(** ** What the claims speak of *)

(** A physical packet: the 3-byte little-endian length of the payload,
    the sequence byte, the payload. *)
Definition frame (seq : Z) (payload : list Z) : list Z :=
  [zlen payload mod 256; Z.shiftr (zlen payload) 8 mod 256;
   Z.shiftr (zlen payload) 16 mod 256; seq] ++ payload.

(** The physical packets of a payload of at most [maxPacketSize] bytes
    sent from sequence number [seq]: the payload's packet, and an empty
    packet after a payload of exactly [maxPacketSize] bytes. *)
Definition wire_frames (seq : Z) (payload : list Z) : list (list Z) :=
  if zlen payload <? maxPacketSize then [frame seq payload]
  else [frame seq payload; frame ((seq + 1) mod 256) []].

(** The number of headers that the split-packet rule gives for a payload
    of [L] bytes: [ceil (L / maxPacketSize)], and one more when [L] is a
    positive multiple of [maxPacketSize]. *)
Definition split_headers (L : Z) : Z :=
  (L + maxPacketSize - 1) / maxPacketSize
  + (if (0 <? L) && (L mod maxPacketSize =? 0) then 1 else 0).

(** The slice that the first turn of [writePacket] sends: [data] with its
    first four bytes overwritten by the header. *)
Definition first_chunk (mc : mysqlConn) (data : list Z) : list Z :=
  let pktLen := zlen data - 4 in
  (if maxPacketSize <=? pktLen then [255; 255; 255; mc_sequence mc]
   else [pktLen mod 256; Z.shiftr pktLen 8 mod 256;
         Z.shiftr pktLen 16 mod 256; mc_sequence mc])
  ++ skipn 4 data.

(** The width of the value of column [col] found at [d], the rest of the
    row packet: fixed for the numeric types, that of a length-encoded
    string for the string types, the length byte and the length it gives
    for the date and time types. *)
Definition value_width (U : helpers) (col : mysqlField) (d : list Z)
  (w : Z) : Prop :=
  match ftype col with
  | fieldTypeNULL => w = 0
  | fieldTypeTiny => w = 1
  | fieldTypeShort | fieldTypeYear => w = 2
  | fieldTypeInt24 | fieldTypeLong | fieldTypeFloat => w = 4
  | fieldTypeLongLong | fieldTypeDouble => w = 8
  | t =>
      if is_lenenc_type t then
        exists buf isNull, readLengthEncodedString U d = Ok (buf, isNull, w)
      else if is_temporal_type t then
        exists num isNull n,
          readLengthEncodedInteger U d = Ok (num, isNull, n) /\
          w = n + (if isNull then 0 else num)
      else False
  end.

(** Bit [k] of a bitmap: bit [k mod 8], counted from the least
    significant one, of its byte [k / 8]. *)
Definition bitmap_bit (bitmap : list Z) (k : Z) : bool :=
  Z.testbit (nth (Z.to_nat (k / 8)) bitmap 0) (k mod 8).

(** The widths [ws] of the columns from index [i] on, the first of
    them at [pos]: a column whose bit [i+2] of the NULL bitmap is set
    takes no bytes, another one its [value_width]. *)
Inductive row_layout (U : helpers) (cols : list mysqlField)
  (nullMask data : list Z) : Z -> Z -> list Z -> Prop :=
| layout_end : forall i pos, row_layout U cols nullMask data i pos []
| layout_null : forall i pos ws,
    bitmap_bit nullMask (i + 2) = true ->
    row_layout U cols nullMask data (i + 1) pos ws ->
    row_layout U cols nullMask data i pos (0 :: ws)
| layout_value : forall i pos col w ws,
    bitmap_bit nullMask (i + 2) = false ->
    nth_error cols (Z.to_nat i) = Some col ->
    value_width U col (skipn (Z.to_nat pos) data) w ->
    row_layout U cols nullMask data (i + 1) (pos + w) ws ->
    row_layout U cols nullMask data i pos (w :: ws).

Definition sumZ (l : list Z) : Z := fold_right Z.add 0 l.

(** ** Concrete instances for evaluating the code *)

(** Modelled from the spec: the length-encoded integer of section 4.3.
    The spec does not say what an empty input or a first byte 0xff give:
    here the first fails, the second is a malformed packet. *)
Definition lenencInteger (b : list Z) : res (Z * bool * Z) :=
  b0 <- idx b 0 ;;
  if b0 <? 0xfb then Ok (b0, false, 1)
  else if b0 =? 0xfb then Ok (0, true, 1)
  else if b0 =? 0xfc then v <- sub b 1 3 ;; Ok (le_uint v, false, 3)
  else if b0 =? 0xfd then v <- sub b 1 4 ;; Ok (le_uint v, false, 4)
  else if b0 =? 0xfe then v <- sub b 1 9 ;; Ok (le_uint v, false, 9)
  else Err ErrMalformPkt.

(** Modelled from the spec: the length-encoded string of section 4.3;
    a string longer than the input is an unexpected end of input. *)
Definition lenencString (b : list Z) : res (list Z * bool * Z) :=
  r <- lenencInteger b ;;
  let '(num, isNull, n) := r in
  if isNull then Ok ([], true, n)
  else if n + num <=? zlen b
       then Ok (firstn (Z.to_nat num) (skipn (Z.to_nat n) b), false, n + num)
       else Err io_EOF.

(** Modelled from the spec: the encoding of a length-encoded integer, in
    the 1/3/4/9-byte bands of section 8. *)
Definition lenencBytes (n : Z) : list Z :=
  if n <? 251 then [n]
  else if n <? 2 ^ 16 then 0xfc :: le_bytes 2 n
  else if n <? 2 ^ 24 then 0xfd :: le_bytes 3 n
  else 0xfe :: le_bytes 8 n.

(** Helpers for the examples: the length-encoded codecs above; the date,
    time and float codecs and the infile handler, which no example
    reaches, fail. *)
Definition exampleHelpers : helpers :=
  mkHelpers lenencInteger lenencString lenencBytes
    (fun _ => []) (fun _ _ => Err (ErrFmt 0)) (fun _ _ => Err (ErrFmt 0))
    (fun _ _ => Err (ErrFmt 0)) (fun _ => Err (ErrFmt 0))
    (fun _ => Err (ErrFmt 0)) (fun _ => false) (fun c n => 2 * n)
    (fun _ _ => Err ErrSyntax) (fun d => d)
    (fun _ mc => Some (Err (ErrFmt 0), mc)).

(** A connection after the handshake: a fresh buffer, the default
    [maxAllowedPacket] of 4 MiB, nothing read or sent yet. *)
Definition exampleConn (input : list Z) : mysqlConn :=
  mkConn newBuffer 0 4194304 0 0 (mkResult [] []) false false false None
    false [] input io_EOF [].

(** The number of bytes of the server still unread. *)
Definition inlen (mc : mysqlConn) : nat := length (mc_input mc).


(** The rest of a first result set (a row, then the EOF packet with
    [MORE_RESULTS_EXISTS]) and a whole second result set: column count,
    one column definition, EOF, one row, EOF. *)
Definition twoResultSets : list Z :=
  [2; 0; 0; 5; 1; 49] ++ [5; 0; 0; 6; 254; 0; 0; 10; 0]
  ++ [1; 0; 0; 7; 1] ++ [3; 0; 0; 8; 3; 100; 101]
  ++ [5; 0; 0; 9; 254; 0; 0; 10; 0]
  ++ [2; 0; 0; 10; 1; 50] ++ [5; 0; 0; 11; 254; 0; 0; 2; 0].

(** The payload of COM_STMT_EXECUTE for statement [id] with the
    arguments NULL and int64 42: command, statement id, flags, iteration
    count, NULL bitmap, new-parameter-bound flag, the two types, the
    value. *)
Definition execute_payload (id : Z) : list Z :=
  [comStmtExecute; id mod 256; Z.shiftr id 8 mod 256; Z.shiftr id 16 mod 256;
   Z.shiftr id 24 mod 256; 0x00; 0x01; 0x00; 0x00; 0x00;
   0x01; 0x01; 0x06; 0x00; 0x08; 0x00; 42; 0; 0; 0; 0; 0; 0; 0].

(** ** Further functions of the sources *)

Section Commands.

Variable net : writer.
Variable U : helpers.

(** *** Command packets

    [mc.data], the connection's scratch array declared in connection.go,
    is passed as [scratch]. *)

Definition writeCommandPacket (mc : mysqlConn) (scratch : list Z)
  (command : Z) : option (res unit * mysqlConn) :=
  let mc := set_sequence mc 0 in
  match d <- upd scratch 4 command ;; sub d 0 5 with
  | Ok pkt => writePacket net mc pkt
  | Err e => Some (Err e, mc)
  | Panic => Some (Panic, mc)
  end.

Definition writeCommandPacketUint32 (mc : mysqlConn) (scratch : list Z)
  (command arg : Z) : option (res unit * mysqlConn) :=
  let mc := set_sequence mc 0 in
  match d <- upd scratch 4 command ;;
        d <- upd d 5 (arg mod 256) ;;
        d <- upd d 6 (Z.shiftr arg 8 mod 256) ;;
        d <- upd d 7 (Z.shiftr arg 16 mod 256) ;;
        d <- upd d 8 (Z.shiftr arg 24 mod 256) ;;
        sub d 0 (4 + 1 + 4) with
  | Ok pkt => writePacket net mc pkt
  | Err e => Some (Err e, mc)
  | Panic => Some (Panic, mc)
  end.

(** [copy(s[off:], src)]: as many bytes as fit in [s]. *)
Definition copy_to (s : slice) (off : Z) (src : list Z) : res slice :=
  if (0 <=? off) && (off <=? len s) then
    let n := Z.min (len s - off) (zlen src) in
    Ok (mkSlice (write_at (arr s) off (firstn (Z.to_nat n) src)) (len s))
  else Panic.

Definition writeCommandPacketStr (mc : mysqlConn) (command : Z)
  (arg : list Z) : option (res unit * mysqlConn) :=
  let mc := set_sequence mc 0 in
  let pktLen := 1 + zlen arg in
  match takeBuffer (mc_buf mc) (pktLen + 4) with
  | (Ok data, b) =>
      let mc := set_mcbuf mc b in
      match d <- sset data 4 command ;; copy_to d 5 arg with
      | Ok data => writePacket net mc (elems data)
      | Err e => Some (Err e, mc)
      | Panic => Some (Panic, mc)
      end
  | (Err err, b) => Some (Err errBadConnNoWrite, logPrint (set_mcbuf mc b) err)
  | (Panic, b) => Some (Panic, set_mcbuf mc b)
  end.

Definition writeAuthSwitchPacket (mc : mysqlConn) (authData : list Z)
  : option (res unit * mysqlConn) :=
  let pktLen := 4 + zlen authData in
  match takeSmallBuffer (mc_buf mc) pktLen with
  | Ok data =>
      match copy_to data 4 authData with
      | Ok data => writePacket net mc (elems data)
      | Err e => Some (Err e, mc)
      | Panic => Some (Panic, mc)
      end
  | Err err => Some (Err errBadConnNoWrite, logPrint mc err)
  | Panic => Some (Panic, mc)
  end.

(** *** Result packets *)

Definition readResultOK (mc : mysqlConn) : option (res unit * mysqlConn) :=
  match readPacket mc with
  | None => None
  | Some (Ok data, mc) =>
      match idx data 0 with
      | Ok d0 =>
          if d0 =? iOK then Some (handleOkPacket U mc data)
          else Some (fail_with (handleErrorPacket mc data))
      | _ => Some (Panic, mc)
      end
  | Some (Err e, mc) => Some (Err e, mc)
  | Some (Panic, mc) => Some (Panic, mc)
  end.

(** [bytes.IndexByte(b, c)] *)
Fixpoint IndexByte (b : list Z) (c : Z) : Z :=
  match b with
  | [] => -1
  | x :: t => if x =? c then 0
              else let i := IndexByte t c in if i <? 0 then -1 else i + 1
  end.

(** [readAuthResult]: the auth data and the plugin name. *)
Definition readAuthResult (mc : mysqlConn)
  : option (res (list Z * list Z) * mysqlConn) :=
  match readPacket mc with
  | None => None
  | Some (Ok data, mc) =>
      match idx data 0 with
      | Ok d0 =>
          if d0 =? iOK then
            match handleOkPacket U mc data with
            | (Ok _, mc) => Some (Ok ([], []), mc)
            | (Err e, mc) => Some (Err e, mc)
            | (Panic, mc) => Some (Panic, mc)
            end
          else if d0 =? iAuthMoreData then
            Some (d <- from data 1 ;; Ok (d, []), mc)
          else if d0 =? iEOF then
            if zlen data =? 1 then
              (* "mysql_old_password" *)
              Some (Ok ([], [109; 121; 115; 113; 108; 95; 111; 108; 100; 95;
                             112; 97; 115; 115; 119; 111; 114; 100]), mc)
            else
              let pluginEndIndex := IndexByte data 0x00 in
              if pluginEndIndex <? 0 then Some (Err ErrMalformPkt, mc)
              else
                Some (plugin <- sub data 1 pluginEndIndex ;;
                      authData <- from data (pluginEndIndex + 1) ;;
                      Ok (authData, plugin), mc)
          else Some (fail_with (handleErrorPacket mc data))
      | _ => Some (Panic, mc)
      end
  | Some (Err e, mc) => Some (Err e, mc)
  | Some (Panic, mc) => Some (Panic, mc)
  end.

(** [readPrepareResultPacket]: the column count, and the statement with
    the id and the parameter count of the packet. *)
Definition readPrepareResultPacket (stmt : mysqlStmt) (mc : mysqlConn)
  : option (res Z * mysqlStmt * mysqlConn) :=
  match readPacket mc with
  | None => None
  | Some (Ok data, mc) =>
      match idx data 0 with
      | Ok d0 =>
          if negb (d0 =? iOK) then
            let '(r, mc) := fail_with (handleErrorPacket mc data) in
            Some (r, stmt, mc)
          else
            match sub data 1 5 with
            | Ok b =>
                let stmt := mkStmt (le_uint b) (paramCount stmt) in
                match sub data 5 7 with
                | Ok c =>
                    match sub data 7 9 with
                    | Ok p => Some (Ok (le_uint c),
                                    mkStmt (stmt_id stmt) (le_uint p), mc)
                    | _ => Some (Panic, stmt, mc)
                    end
                | _ => Some (Panic, stmt, mc)
                end
            | _ => Some (Panic, stmt, mc)
            end
      | _ => Some (Panic, stmt, mc)
      end
  | Some (Err e, mc) => Some (Err e, stmt, mc)
  | Some (Panic, mc) => Some (Panic, stmt, mc)
  end.

(** *** rows.go: the next result set *)




(** [binaryRows.Next] and [textRows.Next], on the row reader [readRow]. *)
Definition rows_Next
  (readRow : mysqlRows -> mysqlConn -> nat ->
             option (res (list value) * mysqlRows * mysqlConn))
  (rows : mysqlRows) (mc : mysqlConn) (ndest : nat)
  : option (res (list value) * mysqlRows * mysqlConn) :=
  if attached rows then
    match mc_canceled mc with
    | Some err => Some (Err err, rows, mc)
    | None =>
        if isBroken mc then Some (Err ErrInvalidConn, rows, mc)
        else readRow rows mc ndest
    end
  else Some (Err io_EOF, rows, mc).

(** *** The byte buffer of the unnamed source file *)

(** [io.ReadFull(r, p)] as the buffer sees it: the bytes that [r] gives
    for a request of [n] bytes, and no error exactly when it gives all
    [n]. *)
Definition reader : Type := Z -> list Z * option error.

(** [buffer.reset] *)
Definition buffer_reset (b : slice) : slice := mkSlice (arr b) 0.

(** [buffer.len] *)
Definition buffer_len (b : slice) : Z := len b.

(** [buffer.readN] *)
Definition buffer_readN (b : slice) (r : reader) (n : Z)
  : res (option error * slice) :=
  let l := len b in
  b1 <- (if cap b <? l + n then
           if 0 <=? n then Ok (append_slice U b (repeat 0 (Z.to_nat n)))
           else Panic
         else Ok b) ;;
  b2 <- slice_to b1 (l + n) ;;
  if (0 <=? l) && (l <=? l + n) then
    let '(got, err) := r n in
    Ok (err, mkSlice (write_at (arr b2) l got) (len b2))
  else Panic.

End Commands.

(** *** connection_go18.go *)

(** [namedValueToValue]: a [driver.NamedValue] is its name and its
    value. *)
Fixpoint namedValueToValue (named : list (list Z * value)) : res (list value) :=
  match named with
  | [] => Ok []
  | (nm, v) :: rest =>
      if 0 <? zlen nm then Err (ErrFmt 0)
      else dargs <- namedValueToValue rest ;; Ok (v :: dargs)
  end.

(** *** atomic_bool_go118.go: the value of an [atomicBool] is its
    [uint32]. *)

Definition atomicBool_Load (ab : Z) : bool := 0 <? ab.
Definition atomicBool_Store (value : bool) : Z := if value then 1 else 0.
Definition atomicBool_Swap (ab : Z) (value : bool) : bool * Z :=
  (0 <? ab, if value then 1 else 0).

(** The bytes on the wire of the packets of payloads [ps], numbered from
    [seq]. *)
Fixpoint packets (seq : Z) (ps : list (list Z)) : list Z :=
  match ps with
  | [] => []
  | p :: t => frame seq p ++ packets ((seq + 1) mod 256) t
  end.

(** A payload that fits in one physical packet and is not empty. *)
Definition one_packet (p : list Z) : Prop :=
  0 < zlen p < maxPacketSize.

(** A packet of a result set that [readUntilEOF] reads over: one physical
    packet that starts neither as an EOF nor as an ERR packet. *)
Definition data_packet (p : list Z) : Prop :=
  one_packet p /\ nth 0 p 0 <> iEOF /\ nth 0 p 0 <> iERR.

(** *** Result sets on the wire *)










(** What the buffer's comment asks of [buf]: its length is its capacity;
    and it is never shorter than the first one. *)
Definition buffer_ok (b : buffer) : Prop :=
  len (b_buf b) = cap (b_buf b) /\ defaultBufSize <= cap (b_buf b).

(** The width in bytes of the integer types of a binary row. *)
Definition int_width (t : fieldType) : option nat :=
  match t with
  | fieldTypeTiny => Some 1%nat
  | fieldTypeShort | fieldTypeYear => Some 2%nat
  | fieldTypeInt24 | fieldTypeLong => Some 4%nat
  | fieldTypeLongLong => Some 8%nat
  | _ => None
  end.

(** *** What the further properties speak of *)

(** The pieces of at most [size] bytes of [l], in order; [fuel] bounds
    their number. *)
Fixpoint chunks_fuel (fuel size : nat) (l : list Z) : list (list Z) :=
  match fuel, l with
  | S fuel', _ :: _ =>
      firstn size l :: chunks_fuel fuel' size (skipn size l)
  | _, _ => []
  end.

Definition chunks (size : nat) (l : list Z) : list (list Z) :=
  chunks_fuel (length l) size l.

(** The head of a COM_STMT_SEND_LONG_DATA packet. *)
Definition longDataHead (stmt : mysqlStmt) (paramID : Z) : list Z :=
  [comStmtSendLongData; stmt_id stmt mod 256;
   Z.shiftr (stmt_id stmt) 8 mod 256; Z.shiftr (stmt_id stmt) 16 mod 256;
   Z.shiftr (stmt_id stmt) 24 mod 256; paramID mod 256;
   Z.shiftr paramID 8 mod 256].

(** What [readPacket] leaves behind a result: no panic, and behind an
    error either the pending cancellation, which is the error, or a
    closed connection. *)
Definition read_outcome (r : res (list Z)) (mc' : mysqlConn) : Prop :=
  r <> Panic /\
  forall e, r = Err e ->
    mc_canceled mc' = Some e \/
    (isBroken mc' = true /\
     (e = ErrInvalidConn \/ e = ErrPktSync \/ e = ErrPktSyncMul)).

(** What [writePacket] leaves behind a result: no panic, and no error
    but the three of the codec and the pending cancellation. *)
Definition write_outcome (r : res unit) (mc' : mysqlConn) : Prop :=
  r <> Panic /\
  forall e, r = Err e ->
    e = ErrInvalidConn \/ e = errBadConnNoWrite \/ mc_canceled mc' = Some e.

(** * Properties *)

(** ** Basic facts *)

Lemma zlen_nonneg {A} (l : list A) : 0 <= zlen l.
Proof. unfold zlen. lia. Qed.

Lemma zlen_cons {A} (x : A) (l : list A) : zlen (x :: l) = zlen l + 1.
Proof. unfold zlen. simpl length. lia. Qed.

Lemma zlen_app {A} (l1 l2 : list A) : zlen (l1 ++ l2) = zlen l1 + zlen l2.
Proof. unfold zlen. rewrite length_app. lia. Qed.

Lemma zlen_repeat {A} (x : A) (n : Z) : 0 <= n -> zlen (repeat x (Z.to_nat n)) = n.
Proof. intros H. unfold zlen. rewrite repeat_length. lia. Qed.

Lemma cap_make (n : Z) : 0 <= n -> cap (make n) = n.
Proof. intros H. unfold cap, make. simpl. now apply zlen_repeat. Qed.

Lemma bind_ok {A B} (r : res A) (k : A -> res B) (b : B) :
  bind r k = Ok b -> exists a, r = Ok a /\ k a = Ok b.
Proof. destruct r; cbn; intros H; try discriminate. eauto. Qed.

Lemma from_ok (l d : list Z) (i : Z) :
  from l i = Ok d -> d = skipn (Z.to_nat i) l.
Proof.
  unfold from. destruct (_ && _); intros H; inversion H. reflexivity.
Qed.

(** ** The framing buffer *)

(** C7, as amended.  With no buffer in use, [takeSmallBuffer(n)] returns
    the first [n] cells of the primary buffer, on the same array, for
    every [n] up to the capacity of the primary buffer; it compares [n]
    with nothing else, and an [n] outside that range is a run-time panic.
    With a buffer in use it returns [ErrBusyBuffer]. *)
Theorem takeSmallBuffer_spec (b : buffer) (n : Z) :
  (b_length b <= 0 -> 0 <= n <= cap (b_buf b) ->
     takeSmallBuffer b n = Ok (mkSlice (arr (b_buf b)) n)) /\
  (b_length b <= 0 -> n < 0 \/ cap (b_buf b) < n ->
     takeSmallBuffer b n = Panic) /\
  (0 < b_length b -> takeSmallBuffer b n = Err ErrBusyBuffer).
Proof.
  unfold takeSmallBuffer, slice_to.
  repeat split; intros.
  - destruct (Z.ltb_spec 0 (b_length b)); [lia|].
    destruct (Z.leb_spec 0 n); [|lia].
    destruct (Z.leb_spec n (cap (b_buf b))); [reflexivity|lia].
  - destruct (Z.ltb_spec 0 (b_length b)); [lia|].
    destruct (Z.leb_spec 0 n); destruct (Z.leb_spec n (cap (b_buf b)));
      simpl; try reflexivity; lia.
  - destruct (Z.ltb_spec 0 (b_length b)); [reflexivity|lia].
Qed.

Lemma takeSmallBuffer_spec_witness :
  takeSmallBuffer newBuffer 100 = Ok (mkSlice (arr (b_buf newBuffer)) 100).
Proof.
  apply (proj1 (takeSmallBuffer_spec newBuffer 100)).
  - vm_compute. discriminate.
  - split; vm_compute; discriminate.
Defined.

(** C7, as stated, fails: after [takeBuffer(8192)] has grown the primary
    buffer, [takeSmallBuffer(5000)] succeeds although 5000 exceeds
    [defaultBufSize]. *)
Lemma takeSmallBuffer_above_defaultBufSize :
  let b := snd (takeBuffer newBuffer 8192) in
  b_length b = 0 /\
  defaultBufSize < 5000 /\
  takeSmallBuffer b 5000 = Ok (mkSlice (arr (b_buf b)) 5000).
Proof. vm_compute. repeat split. Qed.

(** C8, as amended.  With no buffer in use, [store(buf)] adopts [buf],
    at its full capacity, exactly when its capacity is larger than that
    of the primary buffer and at most [maxPacketSize]; it always returns
    no error. *)
Theorem store_spec (b : buffer) (buf : slice) :
  b_length b <= 0 ->
  fst (store b buf) = None /\
  (cap (b_buf b) < cap buf <= maxPacketSize ->
     snd (store b buf) = set_buf b (slice_full buf)) /\
  (~ cap (b_buf b) < cap buf <= maxPacketSize -> snd (store b buf) = b).
Proof.
  intros Hl. unfold store.
  destruct (Z.ltb_spec 0 (b_length b)); [lia|].
  destruct (Z.leb_spec (cap buf) maxPacketSize);
    destruct (Z.ltb_spec (cap (b_buf b)) (cap buf)); simpl;
    repeat split; intros; try reflexivity; lia.
Qed.

Lemma store_spec_witness :
  snd (store newBuffer (make 8192)) = set_buf newBuffer (slice_full (make 8192)).
Proof.
  apply (store_spec newBuffer (make 8192)).
  - vm_compute. discriminate.
  - split; vm_compute; [reflexivity | discriminate].
Defined.

(** C8, as stated, fails: a buffer of 300000 bytes, larger than the
    256 KiB of [maxCachedBufSize], is adopted. *)
Lemma store_adopts_above_maxCachedBufSize :
  let buf := make 300000 in
  b_length newBuffer = 0 /\
  maxCachedBufSize < cap buf /\
  store newBuffer buf = (None, set_buf newBuffer (slice_full buf)) /\
  set_buf newBuffer (slice_full buf) <> newBuffer.
Proof.
  intros buf.
  assert (Hc : cap buf = 300000) by (apply cap_make; lia).
  assert (Hn : cap (b_buf newBuffer) = 4096) by (apply cap_make; vm_compute; discriminate).
  clearbody buf.
  repeat split.
  - rewrite Hc. reflexivity.
  - unfold store. rewrite Hc, Hn. reflexivity.
  - intros H. apply (f_equal (fun b => len (b_buf b))) in H.
    cbn in H. rewrite Hc in H. discriminate.
Qed.

(** ** The packet codec: reading *)

Lemma readNext_header (mc : mysqlConn) (b0 b1 b2 s : Z) (rest : list Z) :
  mc_input mc = b0 :: b1 :: b2 :: s :: rest ->
  readNext mc 4 = (Ok [b0; b1; b2; s], set_input mc rest).
Proof.
  intros H. unfold readNext. rewrite H.
  rewrite !zlen_cons.
  destruct (Z.leb_spec 4 (zlen rest + 1 + 1 + 1 + 1)).
  - reflexivity.
  - pose proof (zlen_nonneg rest). lia.
Qed.

(** C3.  Whenever a turn of the loop of [readPacket] has read a header
    [b0 b1 b2 s]: if [s] differs from [mc.sequence] the connection is
    closed and [readPacket] returns [ErrPktSyncMul] when [s] is the
    greater and [ErrPktSync] otherwise; if they are equal the rest of the
    turn runs with [mc.sequence] incremented by one (modulo 256). *)
Theorem readPacket_sequence_check (fuel : nat) (prevData : list Z)
  (mc : mysqlConn) (b0 b1 b2 s : Z) (rest : list Z) :
  mc_input mc = b0 :: b1 :: b2 :: s :: rest ->
  let mc1 := set_input mc rest in
  (s <> mc_sequence mc ->
     readPacket_loop (S fuel) prevData mc
     = Some (Err (if mc_sequence mc <? s then ErrPktSyncMul else ErrPktSync),
             Close mc1)
     /\ isBroken (Close mc1) = true) /\
  (s = mc_sequence mc ->
     readPacket_loop (S fuel) prevData mc
     = match readPacket_payload
               (Z.lor (Z.lor b0 (Z.shiftl b1 8)) (Z.shiftl b2 16)) prevData
               (set_sequence mc1 ((mc_sequence mc + 1) mod 256)) with
       | Return r mc2 => Some (r, mc2)
       | Again prev mc2 => readPacket_loop fuel prev mc2
       end).
Proof.
  intros Hin mc1. cbn [readPacket_loop]. unfold readPacket_turn.
  rewrite (readNext_header mc b0 b1 b2 s rest Hin). fold mc1.
  change (nth 0 [b0; b1; b2; s] 0) with b0.
  change (nth 1 [b0; b1; b2; s] 0) with b1.
  change (nth 2 [b0; b1; b2; s] 0) with b2.
  change (nth 3 [b0; b1; b2; s] 0) with s.
  change (mc_sequence mc1) with (mc_sequence mc).
  split; intros Hs.
  - destruct (Z.eqb_spec s (mc_sequence mc)); [contradiction|].
    cbn [negb]. split; [|reflexivity].
    destruct (mc_sequence mc <? s); reflexivity.
  - destruct (Z.eqb_spec s (mc_sequence mc)); [|contradiction].
    reflexivity.
Qed.

(** The server answers a query with sequence byte 2 where 1 is expected. *)
Lemma readPacket_sequence_check_witness :
  let mc := set_sequence (exampleConn [1; 0; 0; 2; 0]) 1 in
  readPacket mc = Some (Err ErrPktSyncMul, Close (set_input mc [0]))
  /\ isBroken (Close (set_input mc [0])) = true.
Proof.
  intros mc.
  apply (proj1 (readPacket_sequence_check 5 [] mc 1 0 0 2 [0] eq_refl)).
  vm_compute. discriminate.
Defined.

(** ** The packet codec: writing *)

(** C5.  A payload longer than [maxAllowedPacket] makes [writePacket]
    return [ErrPktTooLarge] and leaves the connection as it was: nothing
    was sent to the writer, the closed latch is untouched. *)
Theorem writePacket_too_large (net : writer) (mc : mysqlConn) (data : list Z) :
  mc_maxAllowedPacket mc < zlen data - 4 ->
  writePacket net mc data = Some (Err ErrPktTooLarge, mc).
Proof.
  intros H. unfold writePacket.
  destruct (Z.ltb_spec (mc_maxAllowedPacket mc) (zlen data - 4)); [reflexivity|lia].
Qed.

Lemma writePacket_too_large_witness :
  let mc := set_sequence (mkConn newBuffer 0 2 0 0 (mkResult [] []) false
                            false false None false [] [] io_EOF []) 0 in
  writePacket fullWriter mc [0; 0; 0; 0; 3; 1; 2]
  = Some (Err ErrPktTooLarge, mc).
Proof.
  intros mc. apply (writePacket_too_large fullWriter mc [0; 0; 0; 0; 3; 1; 2]).
  vm_compute. reflexivity.
Defined.

Lemma maxPacketSize_value : maxPacketSize = 16777215.
Proof. reflexivity. Qed.

Lemma four_cells (data : list Z) :
  4 <= zlen data ->
  exists a b c d t, data = a :: b :: c :: d :: t /\ zlen t = zlen data - 4.
Proof.
  intros H.
  destruct data as [|a [|b [|c [|d t]]]];
    try (unfold zlen in H; simpl in H; lia).
  exists a, b, c, d, t. split; [reflexivity|].
  rewrite !zlen_cons. lia.
Qed.

Lemma put_header_cells (a b c d x y z s : Z) (t : list Z) :
  put_header (a :: b :: c :: d :: t) x y z s = Ok (x :: y :: z :: s :: t).
Proof. reflexivity. Qed.

Lemma zlen_first_chunk (mc : mysqlConn) (data : list Z) :
  4 <= zlen data -> zlen (first_chunk mc data) = zlen data.
Proof.
  intros H. destruct (four_cells data H) as (a & b & c & d & t & -> & Ht).
  unfold first_chunk. cbn [skipn].
  destruct (maxPacketSize <=? _); rewrite zlen_app, !zlen_cons;
    change (zlen (@nil Z)) with 0; lia.
Qed.

(** The first turn of [writePacket]: the header is written and the slice
    goes to the writer. *)
Lemma writePacket_turn_first (net : writer) (mc : mysqlConn) (data : list Z) :
  4 <= zlen data ->
  writePacket_turn net (zlen data - 4) data mc
  = let pktLen := zlen data - 4 in
    let size := if maxPacketSize <=? pktLen then maxPacketSize else pktLen in
    let data := first_chunk mc data in
    match net (length (mc_sent mc)) data with
    | WClosedBeforeSend => Return (Err ErrInvalidConn) mc
    | WClosedBeforeResult => Return (Err ErrInvalidConn) (send mc data)
    | WResult n err =>
        let mc := send mc data in
        match err with
        | None =>
            if n =? 4 + size then
              let mc := set_sequence mc ((mc_sequence mc + 1) mod 256) in
              if negb (size =? maxPacketSize) then Return (Ok tt) mc
              else match from data size with
                   | Ok data' => Again (pktLen - size, data') mc
                   | _ => Return Panic mc
                   end
            else Return (Err ErrInvalidConn)
                   (logPrint (cleanup mc) ErrMalformPkt)
        | Some err =>
            match mc_canceled mc with
            | Some cerr => Return (Err cerr) mc
            | None =>
                if (n =? 0) && (pktLen =? zlen data - 4)
                then Return (Err errBadConnNoWrite) mc
                else Return (Err ErrInvalidConn) (logPrint (cleanup mc) err)
            end
        end
    end.
Proof.
  intros H. destruct (four_cells data H) as (a & b & c & d & t & -> & Ht).
  unfold writePacket_turn, first_chunk.
  rewrite !put_header_cells. cbn [skipn app].
  destruct (maxPacketSize <=? zlen (a :: b :: c :: d :: t) - 4); reflexivity.
Qed.

(** C10, as amended.  When the writer answers the first slice of a
    [writePacket] with an error: a pending cancellation is returned as it
    is and nothing is cleaned up; with none pending, zero bytes written
    give [errBadConnNoWrite] without cleanup, and at least one byte
    written gives cleanup and [ErrInvalidConn].  When the writer answers
    it without error but with a byte count other than [4 + size], the
    connection is cleaned up and [ErrInvalidConn] returned, a
    cancellation pending or not. *)
Theorem writePacket_first_write_failure (net : writer) (mc : mysqlConn)
  (data : list Z) (n : Z) (err : option error) :
  4 <= zlen data ->
  zlen data - 4 <= mc_maxAllowedPacket mc ->
  net (length (mc_sent mc)) (first_chunk mc data) = WResult n err ->
  let mc1 := send mc (first_chunk mc data) in
  let size := Z.min (zlen data - 4) maxPacketSize in
  (forall e, err = Some e ->
     writePacket net mc data
     = Some (match mc_canceled mc with
             | Some cerr => (Err cerr, mc1)
             | None =>
                 if n =? 0 then (Err errBadConnNoWrite, mc1)
                 else (Err ErrInvalidConn, logPrint (cleanup mc1) e)
             end)) /\
  (err = None -> n <> 4 + size ->
     writePacket net mc data
     = Some (Err ErrInvalidConn, logPrint (cleanup mc1) ErrMalformPkt)).
Proof.
  intros H4 Hmax Hnet mc1 size.
  assert (Hw : writePacket net mc data
               = match writePacket_turn net (zlen data - 4) data mc with
                 | Return r m => Some (r, m)
                 | Again (p, d) m =>
                     writePacket_loop net
                       (S (Z.to_nat ((zlen data - 4) / maxPacketSize))) p d m
                 end).
  { unfold writePacket.
    destruct (Z.ltb_spec (mc_maxAllowedPacket mc) (zlen data - 4)); [lia|].
    reflexivity. }
  rewrite Hw, (writePacket_turn_first net mc data H4). cbv zeta.
  rewrite Hnet. fold mc1.
  change (mc_canceled mc1) with (mc_canceled mc).
  split.
  - intros e ->. destruct (mc_canceled mc); [reflexivity|].
    rewrite (zlen_first_chunk mc data H4), Z.eqb_refl, andb_true_r.
    destruct (n =? 0); reflexivity.
  - intros -> Hn.
    assert (Hs : (if maxPacketSize <=? zlen data - 4 then maxPacketSize
                  else zlen data - 4) = size).
    { unfold size. destruct (Z.leb_spec maxPacketSize (zlen data - 4)); lia. }
    rewrite Hs. destruct (Z.eqb_spec n (4 + size)); [contradiction|reflexivity].
Qed.

(** A one-byte command whose write fails at once, nothing written. *)
Lemma writePacket_first_write_failure_witness :
  let net : writer := fun _ _ => WResult 0 (Some (ErrIO 32)) in
  let mc := exampleConn [] in
  writePacket net mc [0; 0; 0; 0; 14]
  = Some (Err errBadConnNoWrite, send mc [1; 0; 0; 0; 14]).
Proof.
  intros net mc.
  apply (proj1 (writePacket_first_write_failure net mc [0; 0; 0; 0; 14] 0
                  (Some (ErrIO 32))
                  ltac:(vm_compute; discriminate)
                  ltac:(vm_compute; discriminate)
                  eq_refl) (ErrIO 32) eq_refl).
Defined.

(** C10, as stated, fails: with a cancellation pending, a first write
    that fails with nothing written does not give [errBadConnNoWrite]
    but the cancellation. *)
Lemma writePacket_canceled_before_no_write :
  let net : writer := fun _ _ => WResult 0 (Some (ErrIO 32)) in
  let mc := mkConn newBuffer 0 4194304 0 0 (mkResult [] []) false false
              false (Some (ErrCanceled 1)) false [] [] io_EOF [] in
  exists mc',
    writePacket net mc [0; 0; 0; 0; 14] = Some (Err (ErrCanceled 1), mc') /\
    ErrCanceled 1 <> errBadConnNoWrite /\
    mc_closed mc' = false.
Proof.
  intros net mc. eexists. split; [vm_compute; reflexivity|].
  split; [discriminate|reflexivity].
Qed.

Lemma zlen_skipn4 (data : list Z) :
  4 <= zlen data -> zlen (skipn 4 data) = zlen data - 4.
Proof.
  intros H. destruct (four_cells data H) as (a & b & c & d & t & -> & Ht).
  exact Ht.
Qed.

Lemma zlen_nil_inv {A} (l : list A) : zlen l = 0 -> l = [].
Proof. destruct l; [reflexivity|]. rewrite zlen_cons. pose proof (zlen_nonneg l). lia. Qed.

Lemma split_headers_small (L : Z) :
  0 <= L <= maxPacketSize ->
  Z.max 1 (split_headers L) = if L <? maxPacketSize then 1 else 2.
Proof.
  intros H. unfold split_headers. rewrite maxPacketSize_value in *.
  destruct (Z.ltb_spec L 16777215).
  - rewrite (Z.mod_small L) by lia.
    assert (Hd : (L + 16777215 - 1) / 16777215 = if 0 <? L then 1 else 0).
    { destruct (Z.ltb_spec 0 L).
      - symmetry. apply Z.div_unique with (r := L - 1); lia.
      - replace L with 0 by lia. reflexivity. }
    rewrite Hd. destruct (Z.ltb_spec 0 L); destruct (Z.eqb_spec L 0); cbn; lia.
  - replace L with 16777215 by lia. reflexivity.
Qed.

(** C1, as amended.  For a payload of [L <= maxAllowedPacket] bytes with
    [L <= maxPacketSize], and a writer that takes every slice in full,
    [writePacket] succeeds and puts on the wire [max 1 (ceil (L /
    maxPacketSize))] headers, one more when [L = maxPacketSize] (an
    empty trailing packet); each header carries the sequence byte of the
    one before plus 1 modulo 256, and [mc.sequence] has advanced by as
    much. *)
Theorem writePacket_frames (mc : mysqlConn) (data : list Z) :
  4 <= zlen data ->
  zlen data - 4 <= mc_maxAllowedPacket mc ->
  zlen data - 4 <= maxPacketSize ->
  let payload := skipn 4 data in
  let seq := mc_sequence mc in
  exists mc',
    writePacket fullWriter mc data = Some (Ok tt, mc') /\
    mc_sent mc' = mc_sent mc ++ wire_frames seq payload /\
    zlen (wire_frames seq payload) = Z.max 1 (split_headers (zlen payload)) /\
    mc_sequence mc'
    = (if zlen payload <? maxPacketSize then (seq + 1) mod 256
       else ((seq + 1) mod 256 + 1) mod 256) /\
    mc_closed mc' = mc_closed mc.
Proof.
  intros H4 Hmax Hsmall payload seq.
  assert (Hp : zlen payload = zlen data - 4) by (apply zlen_skipn4; exact H4).
  assert (Hw : writePacket fullWriter mc data
               = match writePacket_turn fullWriter (zlen data - 4) data mc with
                 | Return r m => Some (r, m)
                 | Again (p, d) m =>
                     writePacket_loop fullWriter
                       (S (Z.to_nat ((zlen data - 4) / maxPacketSize))) p d m
                 end).
  { unfold writePacket.
    destruct (Z.ltb_spec (mc_maxAllowedPacket mc) (zlen data - 4)); [lia|].
    reflexivity. }
  rewrite Hw, (writePacket_turn_first fullWriter mc data H4). cbv zeta.
  unfold fullWriter at 1. rewrite (zlen_first_chunk mc data H4).
  rewrite split_headers_small by lia.
  unfold wire_frames. rewrite Hp.
  destruct (Z.ltb_spec (zlen data - 4) maxPacketSize) as [Hlt|Hge].
  - (* one packet *)
    destruct (Z.leb_spec maxPacketSize (zlen data - 4)); [lia|].
    replace (zlen data =? 4 + (zlen data - 4)) with true
      by (symmetry; apply Z.eqb_eq; lia).
    destruct (Z.eqb_spec (zlen data - 4) maxPacketSize); [lia|].
    cbn [negb]. eexists. split; [reflexivity|].
    repeat split.
    cbn [mc_sent set_sequence send]. f_equal. f_equal.
    unfold first_chunk, frame.
    destruct (Z.leb_spec maxPacketSize (zlen data - 4)); [lia|].
    fold payload. rewrite Hp. reflexivity.
  - (* a full packet and an empty one *)
    assert (HL : zlen data - 4 = maxPacketSize) by lia.
    rewrite HL. rewrite Z.leb_refl, Z.eqb_refl. cbn [negb].
    replace (zlen data =? 4 + maxPacketSize) with true
      by (symmetry; apply Z.eqb_eq; lia).
    set (fc := first_chunk mc data).
    assert (Hfc : zlen fc = zlen data) by (apply zlen_first_chunk; exact H4).
    unfold from.
    replace ((0 <=? maxPacketSize) && (maxPacketSize <=? zlen fc)) with true
      by (symmetry; apply andb_true_iff; split; apply Z.leb_le;
          rewrite ?maxPacketSize_value in *; lia).
    set (data' := skipn (Z.to_nat maxPacketSize) fc).
    assert (Hd' : zlen data' = 4).
    { unfold data', zlen. rewrite length_skipn.
      unfold zlen in Hfc, HL. rewrite maxPacketSize_value in *. lia. }
    rewrite Z.div_same by (rewrite maxPacketSize_value; lia).
    rewrite Z.sub_diag.
    change (Z.to_nat 1) with 1%nat. cbn [writePacket_loop].
    set (mc1 := set_sequence (send mc fc) ((mc_sequence (send mc fc) + 1) mod 256)).
    replace (writePacket_turn fullWriter 0 data' mc1)
      with (writePacket_turn fullWriter (zlen data' - 4) data' mc1)
      by (rewrite Hd'; reflexivity).
    rewrite (writePacket_turn_first fullWriter mc1 data') by lia. cbv zeta.
    unfold fullWriter at 1. rewrite (zlen_first_chunk mc1 data') by lia.
    rewrite Hd'. change (4 - 4) with 0.
    change (maxPacketSize <=? 0) with false. cbv iota.
    change (4 =? 4 + 0) with true. change (0 =? maxPacketSize) with false.
    cbn [negb]. eexists. split; [reflexivity|].
    repeat split.
    cbn [mc_sent set_sequence send mc1]. rewrite <- app_assoc. f_equal.
    cbn [app]. f_equal.
    + unfold fc, first_chunk, frame. rewrite HL, Z.leb_refl.
      fold payload. rewrite Hp, HL. reflexivity.
    + f_equal. unfold first_chunk. rewrite Hd'.
      destruct (four_cells data' ltac:(lia)) as (a & b & c & d & t & E & Ht).
      rewrite E. cbn [skipn]. rewrite (zlen_nil_inv t) by lia.
      reflexivity.
Qed.

(** A two-byte payload at sequence number 255: one packet, the counter
    wraps to 0. *)
Lemma writePacket_frames_witness :
  let mc := set_sequence (exampleConn []) 255 in
  exists mc',
    writePacket fullWriter mc [0; 0; 0; 0; 3; 49] = Some (Ok tt, mc') /\
    mc_sent mc' = mc_sent mc ++ wire_frames 255 [3; 49] /\
    zlen (wire_frames 255 [3; 49]) = Z.max 1 (split_headers 2) /\
    mc_sequence mc' = 0 /\
    mc_closed mc' = mc_closed mc.
Proof.
  intros mc.
  apply (writePacket_frames mc [0; 0; 0; 0; 3; 49]);
    vm_compute; discriminate.
Defined.

(** C1, as stated, fails: an empty payload goes out as one packet, so
    with one header, where the count [ceil (0 / maxPacketSize)] of the
    claim is 0. *)
Lemma writePacket_empty_payload_one_header :
  let mc := exampleConn [] in
  exists mc',
    0 <= mc_maxAllowedPacket mc /\
    writePacket fullWriter mc [0; 0; 0; 0] = Some (Ok tt, mc') /\
    mc_sent mc' = [[0; 0; 0; 0]] /\
    zlen (mc_sent mc') = 1 /\
    split_headers 0 = 0.
Proof.
  intros mc. eexists. split; [vm_compute; discriminate|].
  split; [vm_compute; reflexivity|]. repeat split.
Qed.

(** Beyond [maxPacketSize] the slice sent to the writer is not cut to the
    chunk: the first turn sends the whole of [data] under a header that
    announces [maxPacketSize] bytes, and a writer that takes all of it
    answers with a count that the turn takes for a failed write. *)
Lemma writePacket_split_sends_whole (mc : mysqlConn) (data : list Z) :
  maxPacketSize < zlen data - 4 ->
  zlen data - 4 <= mc_maxAllowedPacket mc ->
  writePacket fullWriter mc data
  = Some (Err ErrInvalidConn,
          logPrint (cleanup (send mc ([255; 255; 255; mc_sequence mc]
                                      ++ skipn 4 data)))
            ErrMalformPkt).
Proof.
  intros Hbig Hmax.
  assert (H4 : 4 <= zlen data) by (rewrite maxPacketSize_value in Hbig; lia).
  unfold writePacket.
  destruct (Z.ltb_spec (mc_maxAllowedPacket mc) (zlen data - 4)); [lia|].
  cbn [writePacket_loop].
  rewrite (writePacket_turn_first fullWriter mc data H4). cbv zeta.
  unfold fullWriter at 1. rewrite (zlen_first_chunk mc data H4).
  unfold first_chunk.
  destruct (Z.leb_spec maxPacketSize (zlen data - 4)); [|lia].
  destruct (Z.eqb_spec (zlen data) (4 + maxPacketSize)); [lia|].
  reflexivity.
Qed.

(** ** Draining result sets *)

Lemma readNext_le (mc : mysqlConn) (n : Z) :
  (inlen (snd (readNext mc n)) <= inlen mc)%nat.
Proof.
  unfold readNext, inlen.
  destruct ((0 <=? n) && (n <=? zlen (mc_input mc))); cbn; [|lia].
  rewrite length_skipn. lia.
Qed.

Lemma readNext_ok (mc mc' : mysqlConn) (n : Z) (d : list Z) :
  readNext mc n = (Ok d, mc') ->
  (inlen mc' + Z.to_nat n = inlen mc)%nat /\ zlen d = n.
Proof.
  unfold readNext, inlen.
  destruct (Z.leb_spec 0 n); destruct (Z.leb_spec n (zlen (mc_input mc)));
    cbn; intros E; inversion E; subst; clear E.
  unfold zlen in *. cbn. rewrite length_skipn, length_firstn. lia.
Qed.

Lemma readPacket_payload_measure (pktLen : Z) (prev : list Z) (mc : mysqlConn) :
  match readPacket_payload pktLen prev mc with
  | Return _ mc' => (inlen mc' <= inlen mc)%nat
  | Again _ mc' => (inlen mc' <= inlen mc)%nat
  end.
Proof.
  unfold readPacket_payload.
  destruct (pktLen =? 0).
  - destruct prev; unfold inlen; cbn; lia.
  - pose proof (readNext_le mc pktLen) as H.
    destruct (readNext mc pktLen) as [[d|e|] mc1]; cbn in H.
    + destruct (pktLen <? maxPacketSize); [destruct prev|]; exact H.
    + destruct (mc_canceled mc1); unfold inlen in *; cbn; exact H.
    + exact H.
Qed.

Lemma readPacket_turn_measure (prev : list Z) (mc : mysqlConn) :
  match readPacket_turn prev mc with
  | Return (Ok _) mc' => (inlen mc' + 4 <= inlen mc)%nat
  | Return _ mc' => (inlen mc' <= inlen mc)%nat
  | Again _ mc' => (inlen mc' + 4 <= inlen mc)%nat
  end.
Proof.
  unfold readPacket_turn.
  pose proof (readNext_le mc 4) as Hle.
  destruct (readNext mc 4) as [[d|e|] mc1] eqn:E; cbn in Hle.
  - apply readNext_ok in E. destruct E as [E _].
    change (Z.to_nat 4) with 4%nat in E.
    destruct (negb _).
    + destruct (_ <? _); unfold inlen in *; cbn; exact Hle.
    + match goal with |- context [readPacket_payload ?p ?q ?m] =>
        pose proof (readPacket_payload_measure p q m) as H;
        destruct (readPacket_payload p q m) as [r m'|l m'] end;
      change (inlen (set_sequence mc1 ((mc_sequence mc1 + 1) mod 256)))
        with (inlen mc1) in H.
      * destruct r; lia.
      * lia.
  - destruct (mc_canceled mc1); unfold inlen in *; cbn; exact Hle.
  - exact Hle.
Qed.

Lemma readPacket_loop_total (fuel : nat) : forall (prev : list Z) (mc : mysqlConn),
  (inlen mc < fuel)%nat ->
  exists r mc', readPacket_loop fuel prev mc = Some (r, mc') /\
    (inlen mc' <= inlen mc)%nat /\
    (forall d, r = Ok d -> (inlen mc' + 4 <= inlen mc)%nat).
Proof.
  induction fuel as [|fuel IH]; intros prev mc Hf; [lia|].
  cbn [readPacket_loop].
  pose proof (readPacket_turn_measure prev mc) as H.
  destruct (readPacket_turn prev mc) as [r mc1|p mc1].
  - exists r, mc1. split; [reflexivity|].
    destruct r; split; try lia; intros d' Hd; try discriminate; lia.
  - destruct (IH p mc1 ltac:(lia)) as (r & mc' & E & Hle & Hok).
    exists r, mc'. split; [exact E|]. split; [lia|].
    intros d Hd. specialize (Hok d Hd). lia.
Qed.

Lemma readPacket_total (mc : mysqlConn) :
  exists r mc', readPacket mc = Some (r, mc') /\
    (inlen mc' <= inlen mc)%nat /\
    (forall d, r = Ok d -> (inlen mc' + 4 <= inlen mc)%nat).
Proof. apply readPacket_loop_total. unfold inlen. lia. Qed.



Lemma fail_with_spec {A} (r : res error * mysqlConn) :
  snd (@fail_with A r) = snd r /\ forall a, fst (@fail_with A r) <> Ok a.
Proof. destruct r as [[e|e|] mc]; cbn; split; try reflexivity; discriminate. Qed.









(** The caller has read one row of the first of two result sets:
    [Close] returns no error and has read the second result set to its
    end. *)
Example rows_Close_two_result_sets :
  let rows := mkRows true (mkResultSet [] false) in
  let mc := set_sequence (exampleConn twoResultSets) 5 in
  exists rows' mc',
    mysqlRows_Close exampleHelpers rows mc = Some (Ok tt, rows', mc') /\
    mc_input mc' = [] /\ mc_status mc' = 2 /\ mc_sequence mc' = 12.
Proof. eexists _, _. vm_compute. repeat split. Qed.

(** ** Decoding rows *)

Lemma binary_int_width (col : mysqlField) (data : list Z) (pos w : Z)
  (v : value) (pos' : Z) :
  binary_int col data pos w = Ok (v, pos') -> pos' = pos + w.
Proof.
  unfold binary_int. intros H. apply bind_ok in H. destruct H as (b & _ & H).
  inversion H. reflexivity.
Qed.

Lemma binary_value_width (U : helpers) (parseTime : bool) (col : mysqlField)
  (data : list Z) (pos : Z) (v : value) (pos' : Z) :
  binary_value U parseTime col data pos = Ok (v, pos') ->
  value_width U col (skipn (Z.to_nat pos) data) (pos' - pos).
Proof.
  unfold binary_value, value_width.
  destruct (ftype col) eqn:Et; cbn [is_lenenc_type is_temporal_type]; intros H;
    try (apply binary_int_width in H; lia);
    try (apply bind_ok in H; destruct H as (b & _ & H);
         repeat match type of H with
                | (if ?c then _ else _) = _ => destruct c
                end; inversion H; lia);
    try (inversion H; lia);
    try discriminate;
    try (apply bind_ok in H; destruct H as (d & Hd & H);
         apply from_ok in Hd; subst d;
         apply bind_ok in H; destruct H as ([[buf isNull] n] & Hr & H);
         inversion H; subst; exists buf, isNull;
         replace (pos + n - pos) with n by lia; exact Hr);
    try (apply bind_ok in H; destruct H as (d & Hd & H);
         apply from_ok in Hd; subst d;
         apply bind_ok in H; destruct H as ([[num isNull] n] & Hr & H);
         exists num, isNull, n; split; [exact Hr|];
         destruct isNull;
         [inversion H; lia
         |apply bind_ok in H; destruct H as (v' & _ & H); inversion H; lia]).
Qed.

(** ** The NULL bitmap *)

Lemma idx_ok (l : list Z) (i v : Z) :
  idx l i = Ok v -> 0 <= i < zlen l /\ v = nth (Z.to_nat i) l 0.
Proof.
  unfold idx. destruct (Z.ltb_spec i 0); [discriminate|].
  destruct (nth_error l (Z.to_nat i)) as [x|] eqn:E; [|discriminate].
  intros [= <-]. split.
  - assert (Hl : (Z.to_nat i < length l)%nat)
      by (apply nth_error_Some; rewrite E; discriminate).
    unfold zlen. lia.
  - symmetry. apply nth_error_nth. exact E.
Qed.

Lemma idx_nth (l : list Z) (i : Z) :
  0 <= i < zlen l -> idx l i = Ok (nth (Z.to_nat i) l 0).
Proof.
  intros Hi. unfold idx. destruct (Z.ltb_spec i 0); [lia|].
  destruct (nth_error l (Z.to_nat i)) as [x|] eqn:E.
  - f_equal. symmetry. apply nth_error_nth. exact E.
  - apply nth_error_None in E. unfold zlen in Hi. lia.
Qed.

(** The test of the decoder, [(nullMask[(i+2)>>3] >> ((i+2)&7)) & 1 == 1],
    reads bit [i + 2] of the bitmap. *)
Lemma null_bit_spec (nullMask : list Z) (i : Z) :
  0 <= (i + 2) / 8 < zlen nullMask ->
  null_bit nullMask i = Ok (bitmap_bit nullMask (i + 2)).
Proof.
  intros Hi. unfold null_bit, bitmap_bit.
  rewrite Z.shiftr_div_pow2 by lia. change (2 ^ 3) with 8.
  rewrite idx_nth by exact Hi. cbn [bind]. f_equal.
  change 7 with (Z.ones 3). rewrite Z.land_ones by lia. change (2 ^ 3) with 8.
  pose proof (Z.mod_pos_bound (i + 2) 8 ltac:(lia)) as Hm.
  change 1 with (Z.ones 1) at 1. rewrite Z.land_ones by lia.
  change (2 ^ 1) with 2.
  rewrite <- Z.bit0_eqb, Z.shiftr_spec by lia. reflexivity.
Qed.

Lemma null_bit_ok (nullMask : list Z) (i : Z) (b : bool) :
  null_bit nullMask i = Ok b -> b = bitmap_bit nullMask (i + 2).
Proof.
  intros H. assert (Hi : 0 <= (i + 2) / 8 < zlen nullMask).
  { unfold null_bit in H. apply bind_ok in H. destruct H as (x & Hx & _).
    apply idx_ok in Hx. rewrite Z.shiftr_div_pow2 in Hx by lia.
    exact (proj1 Hx). }
  rewrite (null_bit_spec nullMask i Hi) in H. now injection H.
Qed.

Lemma binary_fields_layout (U : helpers) (parseTime : bool)
  (cols : list mysqlField) (nullMask data : list Z) (n : nat) :
  forall (i pos : Z) (dest : list value) (pos' : Z),
  binary_fields U parseTime cols nullMask data n i pos = Ok (dest, pos') ->
  exists ws,
    length ws = n /\
    row_layout U cols nullMask data i pos ws /\
    pos' = pos + sumZ ws /\
    length dest = n.
Proof.
  induction n as [|n IH]; intros i pos dest pos' H; cbn [binary_fields] in H.
  - inversion H; subst. exists []. repeat split; [constructor|cbn; lia].
  - apply bind_ok in H. destruct H as (isNull & Hnull & H).
    apply bind_ok in H. destruct H as ([v p1] & Hv & H).
    apply bind_ok in H. destruct H as ([rest p2] & Hrest & H).
    cbn [fst snd] in *. inversion H; subst; clear H.
    destruct (IH _ _ _ _ Hrest) as (ws & Hlen & Hlay & Hpos & Hd).
    destruct isNull.
    + inversion Hv; subst. exists (0 :: ws).
      unfold sumZ in *. repeat split; cbn; try lia.
      apply layout_null; [|assumption].
      symmetry. exact (null_bit_ok _ _ _ Hnull).
    + destruct (nth_error cols (Z.to_nat i)) as [col|] eqn:Ecol; [|discriminate].
      apply binary_value_width in Hv.
      exists ((p1 - pos) :: ws).
      unfold sumZ in *. repeat split; cbn; try lia.
      eapply layout_value; eauto.
      * symmetry. exact (null_bit_ok _ _ _ Hnull).
      * replace (pos + (p1 - pos)) with p1 by lia. exact Hlay.
Qed.

(** C2.  When [binaryRows.readRow] decodes a row packet into [k]
    values, the packet starts with the byte 0x00, the NULL bitmap is the
    [(k + 2 + 7) / 8] bytes after it, with the bit of column [i] at
    offset [i + 2], and the decoder ends at position
    [1 + (k + 2 + 7) / 8 + sum ws], where [ws] are the widths of the
    columns: none for a NULL column, the type's width for another. *)
Theorem binaryRows_readRow_consumed (U : helpers) (rows : mysqlRows)
  (mc : mysqlConn) (k : nat) (dest : list value) (rows' : mysqlRows)
  (mc' : mysqlConn) :
  binaryRows_readRow U rows mc k = Some (Ok dest, rows', mc') ->
  exists data pos nullMask ws,
    readPacket mc = Some (Ok data, mc') /\
    idx data 0 = Ok 0x00 /\
    sub data 1 (1 + (Z.of_nat k + 2 + 7) / 8) = Ok nullMask /\
    length ws = k /\
    row_layout U (columns (rs rows)) nullMask data 0
      (1 + (Z.of_nat k + 2 + 7) / 8) ws /\
    binary_row U (mc_parseTime mc') (columns (rs rows)) data k
    = Ok (dest, pos) /\
    pos = 1 + (Z.of_nat k + 2 + 7) / 8 + sumZ ws.
Proof.
  unfold binaryRows_readRow. intros H.
  destruct (readPacket mc) as [[[data|e|] mc1]|]; try discriminate.
  destruct (idx data 0) as [d0| |] eqn:E0; try discriminate.
  destruct (Z.eqb_spec d0 iOK) as [->|Hne]; cbn [negb] in H.
  - destruct (binary_row U (mc_parseTime mc1) (columns (rs rows)) data k)
      as [[dest' pos]| |] eqn:Er; try discriminate.
    inversion H; subst; clear H.
    unfold binary_row in Er.
    replace (Z.shiftr (Z.of_nat k + 7 + 2) 3)
      with ((Z.of_nat k + 2 + 7) / 8) in Er
      by (rewrite Z.shiftr_div_pow2 by lia; f_equal; lia).
    pose proof Er as Er'.
    apply bind_ok in Er. destruct Er as (nullMask & Hm & Hf).
    apply binary_fields_layout in Hf.
    destruct Hf as (ws & Hlen & Hlay & Hpos & _).
    exists data, pos, nullMask, ws. repeat split; try assumption.
    unfold binary_row.
    replace (Z.shiftr (Z.of_nat k + 7 + 2) 3) with ((Z.of_nat k + 2 + 7) / 8)
      by (rewrite Z.shiftr_div_pow2 by lia; f_equal; lia).
    exact Er'.
  - destruct ((d0 =? iEOF) && (zlen data =? 5)).
    + destruct (bind _ _); discriminate.
    + pose proof (@fail_with_spec (list value) (handleErrorPacket mc1 data)) as [_ Hn].
      destruct (fail_with (handleErrorPacket mc1 data)) as [r m].
      inversion H; subst. destruct (Hn dest). reflexivity.
Qed.

(** A row of an unsigned INT column, a VARCHAR column and an INT column:
    1, NULL and 7.  Bit 3 of the bitmap is the second column's. *)
Lemma binaryRows_readRow_consumed_witness :
  let cols := [mkField [] [105] flagUnsigned fieldTypeLong 0;
               mkField [] [115] 0 fieldTypeVarString 0;
               mkField [] [106] 0 fieldTypeLong 0] in
  let rows := mkRows true (mkResultSet cols false) in
  let mc := exampleConn [10; 0; 0; 0; 0; 8; 1; 0; 0; 0; 7; 0; 0; 0] in
  let mc' := set_sequence (set_input mc []) 1 in
  exists data pos nullMask ws,
    readPacket mc = Some (Ok data, mc') /\
    idx data 0 = Ok 0x00 /\
    sub data 1 (1 + (Z.of_nat 3 + 2 + 7) / 8) = Ok nullMask /\
    length ws = 3%nat /\
    row_layout exampleHelpers (columns (rs rows)) nullMask data 0
      (1 + (Z.of_nat 3 + 2 + 7) / 8) ws /\
    binary_row exampleHelpers (mc_parseTime mc') (columns (rs rows)) data 3
    = Ok ([VInt64 1; VNil; VInt64 7], pos) /\
    pos = 1 + (Z.of_nat 3 + 2 + 7) / 8 + sumZ ws.
Proof.
  intros cols rows mc mc'.
  apply (binaryRows_readRow_consumed exampleHelpers rows mc 3
           [VInt64 1; VNil; VInt64 7] rows mc').
  vm_compute. reflexivity.
Defined.

(** C6 fails on the code.  A text row of an INT UNSIGNED column holding
    4294967295: [textRows.readRow] parses every TINY to LONG column with
    [ParseInt] at 32 bits, whatever the column's flags, and returns a
    range error; the binary decoder, for the same column and value,
    reads the flag and returns 4294967295. *)
Theorem textRows_readRow_unsigned_long_range :
  let col := mkField [] [105] flagUnsigned fieldTypeLong 0 in
  let rows := mkRows true (mkResultSet [col] false) in
  let mc := exampleConn [11; 0; 0; 0; 10; 52; 50; 57; 52; 57; 54; 55; 50; 57; 53] in
  textRows_readRow exampleHelpers rows mc 1
  = Some (Err ErrRange, rows, set_sequence (set_input mc []) 1) /\
  binary_value exampleHelpers false col [255; 255; 255; 255] 0
  = Ok (VInt64 4294967295, 4).
Proof. vm_compute. split; reflexivity. Qed.

(** ** Executing a prepared statement *)

(** Tactics that evaluate a definition on a list given cell by cell and
    a length known by its bounds only. *)
Ltac decide_cmp :=
  repeat match goal with
  | |- context [Z.ltb ?a ?b] =>
      first [ replace (Z.ltb a b) with true by (symmetry; apply Z.ltb_lt; lia)
            | replace (Z.ltb a b) with false by (symmetry; apply Z.ltb_ge; lia) ]
  | |- context [Z.leb ?a ?b] =>
      first [ replace (Z.leb a b) with true by (symmetry; apply Z.leb_le; lia)
            | replace (Z.leb a b) with false by (symmetry; apply Z.leb_gt; lia) ]
  | |- context [Z.eqb ?a ?b] =>
      first [ replace (Z.eqb a b) with true by (symmetry; apply Z.eqb_eq; lia)
            | replace (Z.eqb a b) with false by (symmetry; apply Z.eqb_neq; lia) ]
  end.

Ltac norm_nat :=
  repeat match goal with
  | |- context [Z.to_nat (Zpos ?p)] =>
      let n := eval vm_compute in (Z.to_nat (Zpos p)) in
      change (Z.to_nat (Zpos p)) with n
  | |- context [Z.to_nat 0] => change (Z.to_nat 0) with 0%nat
  end.

Ltac crunch :=
  repeat (progress (cbn [len arr bind upd_nat andb negb fst snd]; decide_cmp;
                    norm_nat)).

Lemma exec_head_cells (stmt : mysqlStmt) (L : Z)
  (c0 c1 c2 c3 c4 c5 c6 c7 c8 c9 c10 c11 c12 c13 : Z) (rest : list Z) :
  14 <= L ->
  exec_head stmt
    (mkSlice (c0 :: c1 :: c2 :: c3 :: c4 :: c5 :: c6 :: c7 :: c8 :: c9
              :: c10 :: c11 :: c12 :: c13 :: rest) L)
  = Ok (mkSlice (c0 :: c1 :: c2 :: c3 :: comStmtExecute
                 :: stmt_id stmt mod 256
                 :: Z.shiftr (stmt_id stmt) 8 mod 256
                 :: Z.shiftr (stmt_id stmt) 16 mod 256
                 :: Z.shiftr (stmt_id stmt) 24 mod 256
                 :: 0 :: 1 :: 0 :: 0 :: 0 :: rest) L).
Proof.
  intros HL. unfold exec_head, sset, upd. crunch. reflexivity.
Qed.

Ltac is_lit x :=
  lazymatch x with Z0 => idtac | Zpos _ => idtac | Zneg _ => idtac end.

Ltac eval_arith :=
  repeat match goal with
  | |- context [?f ?x ?y] =>
      lazymatch f with
      | Z.add => idtac | Z.sub => idtac | Z.mul => idtac | Z.div => idtac
      | Z.modulo => idtac | Z.shiftl => idtac | Z.shiftr => idtac
      | Z.lor => idtac | Z.land => idtac | Z.quot => idtac
      end;
      is_lit x; is_lit y;
      let r := eval vm_compute in (f x y) in change (f x y) with r
  end.

Ltac crunch2 :=
  repeat (progress (cbn [len arr bind upd_nat andb negb fst snd app firstn skipn
                         length repeat Nat.add nth_error ex_data
                         ex_paramValues fieldType_code];
                    eval_arith; decide_cmp; norm_nat)).

Lemma idx_elems (s : slice) (i : Z) :
  0 <= i < len s -> idx (elems s) i = idx (arr s) i.
Proof.
  intros H. unfold idx, elems.
  destruct (Z.ltb_spec i 0); [lia|].
  rewrite nth_error_firstn.
  destruct (Nat.ltb_spec (Z.to_nat i) (Z.to_nat (len s))); [reflexivity|lia].
Qed.

Lemma exec_args_null_int64 (net : writer) (U : helpers) (stmt : mysqlStmt)
  (lds L : Z) (mc : mysqlConn)
  (h0 h1 h2 h3 h4 h5 h6 h7 h8 h9 h10 h11 h12 h13 : Z)
  (c15 c16 c17 c18 c19 c20 c21 c22 c23 c24 c25 c26 c27 : Z)
  (dtail rest : list Z) :
  20 <= L ->
  exec_args net U stmt lds 14 16 [VNil; VInt64 42] 0
    (mkExec
       (mkSlice (h0 :: h1 :: h2 :: h3 :: h4 :: h5 :: h6 :: h7 :: h8 :: h9
                 :: h10 :: h11 :: h12 :: h13
                 :: 0 :: c15 :: c16 :: c17 :: c18 :: c19 :: dtail) L)
       (mkSlice (c20 :: c21 :: c22 :: c23 :: c24 :: c25 :: c26 :: c27
                 :: rest) 0)) mc
  = Some (Ok (mkExec
                (mkSlice (h0 :: h1 :: h2 :: h3 :: h4 :: h5 :: h6 :: h7 :: h8
                          :: h9 :: h10 :: h11 :: h12 :: h13
                          :: 1 :: c15 :: 6 :: 0 :: 8 :: 0 :: dtail) L)
                (mkSlice (42 :: 0 :: 0 :: 0 :: 0 :: 0 :: 0 :: 0 :: rest) 8)),
          mc).
Proof.
  intros HL. pose proof (zlen_nonneg rest) as Hr.
  set (zr := zlen rest) in *.
  cbn [exec_args]. unfold exec_arg at 1. cbn [ex_data ex_paramValues].
  unfold set_null, set_type. eval_arith.
  rewrite idx_elems by (cbn [len]; lia).
  unfold idx, sset, upd.
  repeat (progress (crunch2; rewrite ?zlen_cons; fold zr)).
  unfold exec_arg, set_type, sset, upd.
  repeat (progress (crunch2; rewrite ?zlen_cons; fold zr)).
  unfold put_value64, cap, write_at, to_uint64.
  repeat (progress (crunch2; rewrite ?zlen_cons; fold zr)).
  reflexivity.
Qed.

Lemma exec_params_null_int64 (net : writer) (U : helpers) (stmt : mysqlStmt)
  (lds L : Z) (mc : mysqlConn) (h : list Z)
  (c14 c15 c16 c17 c18 c19 c20 c21 c22 c23 c24 c25 c26 c27 : Z)
  (rest : list Z) :
  length h = 14%nat ->
  L = 28 + zlen rest ->
  exec_params net U stmt lds [VNil; VInt64 42]
    (mkSlice (h ++ c14 :: c15 :: c16 :: c17 :: c18 :: c19 :: c20 :: c21
              :: c22 :: c23 :: c24 :: c25 :: c26 :: c27 :: rest) L) mc
  = Some (Ok (mkSlice (h ++ [1; 1; 6; 0; 8; 0; 42; 0; 0; 0; 0; 0; 0; 0]
                       ++ rest) 28), mc).
Proof.
  intros Hh HL.
  do 14 (destruct h as [|? h]; [discriminate Hh|]).
  destruct h; [|discriminate Hh]. clear Hh.
  pose proof (zlen_nonneg rest) as Hr.
  set (zr := zlen rest) in *.
  unfold exec_params.
  change (zlen [VNil; VInt64 42]) with 2.
  unfold cap, sub, from, write_at, sset, upd.
  repeat (progress (crunch2; rewrite ?zlen_cons; fold zr)).
  rewrite exec_args_null_int64 by lia.
  unfold slice_to, cap.
  repeat (progress (crunch2; rewrite ?zlen_cons; fold zr)).
  reflexivity.
Qed.

Lemma cells28 (l : list Z) :
  28 <= zlen l ->
  exists h tl rest,
    l = h ++ tl ++ rest /\ length h = 14%nat /\ length tl = 14%nat.
Proof.
  intros H.
  exists (firstn 14 l), (firstn 14 (skipn 14 l)), (skipn 28 l).
  do 28 (destruct l as [|? l]; [unfold zlen in H; cbn in H; lia|]).
  repeat split.
Qed.

Lemma set_mcbuf_same (mc : mysqlConn) : set_mcbuf mc (mc_buf mc) = mc.
Proof. destruct mc. reflexivity. Qed.

(** C4.  For a statement of two parameters, on a connection whose
    buffer is free and at least [defaultBufSize] long,
    [writeExecutePacket] with the arguments NULL and int64 42 hands
    [writePacket] 28 bytes: the 4 reserved for the header, then
    [execute_payload]. *)
Theorem writeExecutePacket_null_int64 (net : writer) (U : helpers)
  (stmt : mysqlStmt) (mc : mysqlConn) :
  paramCount stmt = 2 ->
  b_length (mc_buf mc) <= 0 ->
  len (b_buf (mc_buf mc)) = cap (b_buf (mc_buf mc)) ->
  defaultBufSize <= cap (b_buf (mc_buf mc)) ->
  exists data,
    writeExecutePacket net U stmt mc [VNil; VInt64 42]
    = writePacket net (set_sequence mc 0) data /\
    zlen data = 28 /\
    skipn 4 data = execute_payload (stmt_id stmt).
Proof.
  intros Hpc Hlen Hlc Hcap.
  unfold defaultBufSize in Hcap. change (4 * 1024) with 4096 in Hcap.
  destruct (b_buf (mc_buf mc)) as [a L] eqn:Eb.
  unfold cap in *. cbn [arr len] in *.
  destruct (cells28 a ltac:(lia)) as (h & tl & rest & -> & Hh & Htl).
  assert (HL : L = 28 + zlen rest).
  { rewrite Hlc, !zlen_app. unfold zlen at 1 2. lia. }
  clear Hlc Hcap.
  do 14 (destruct h as [|? h]; [discriminate Hh|]).
  destruct h; [|discriminate Hh].
  do 14 (destruct tl as [|? tl]; [discriminate Htl|]).
  destruct tl; [|discriminate Htl]. cbn [app] in Eb.
  eexists. split.
  - unfold writeExecutePacket. rewrite Hpc.
    change (zlen [VNil; VInt64 42] =? 2) with true. cbn [negb].
    unfold takeCompleteBuffer.
    change (mc_buf (set_sequence mc 0)) with (mc_buf mc).
    replace (0 <? b_length (mc_buf mc)) with false
      by (symmetry; apply Z.ltb_ge; lia).
    rewrite Eb.
    change (set_mcbuf (set_sequence mc 0) (mc_buf mc))
      with (set_sequence (set_mcbuf mc (mc_buf mc)) 0).
    rewrite set_mcbuf_same.
    rewrite exec_head_cells by (pose proof (zlen_nonneg rest); lia).
    match goal with
    | |- context [exec_params ?n ?u ?s ?l ?args (mkSlice ?A ?L') ?m] =>
        pose proof (exec_params_null_int64 n u s l L' m
                   [z; z0; z1; z2; comStmtExecute; stmt_id stmt mod 256;
                    Z.shiftr (stmt_id stmt) 8 mod 256;
                    Z.shiftr (stmt_id stmt) 16 mod 256;
                    Z.shiftr (stmt_id stmt) 24 mod 256; 0; 1; 0; 0; 0]
                   z13 z14 z15 z16 z17 z18 z19 z20 z21 z22 z23 z24 z25 z26
                   rest eq_refl HL) as HB
    end.
    cbn [app] in HB. rewrite HB.
    unfold elems. cbn [len arr app firstn].
    change (Z.to_nat 28) with 28%nat. cbn [firstn]. reflexivity.
  - split; reflexivity.
Qed.


Lemma writeExecutePacket_null_int64_witness :
  exists data,
    writeExecutePacket fullWriter exampleHelpers (mkStmt 7 2) (exampleConn [])
      [VNil; VInt64 42]
    = writePacket fullWriter (set_sequence (exampleConn []) 0) data /\
    zlen data = 28 /\
    skipn 4 data = execute_payload 7.
Proof.
  apply (writeExecutePacket_null_int64 fullWriter exampleHelpers (mkStmt 7 2)
           (exampleConn [])).
  - reflexivity.
  - vm_compute. discriminate.
  - vm_compute. reflexivity.
  - vm_compute. discriminate.
Defined.

(** What goes to the writer for statement 7. *)
Example writeExecutePacket_statement_7 :
  exists mc',
    writeExecutePacket fullWriter exampleHelpers (mkStmt 7 2) (exampleConn [])
      [VNil; VInt64 42] = Some (Ok tt, mc') /\
    mc_sent mc' = [[24; 0; 0; 0; 0x17; 7; 0; 0; 0; 0; 1; 0; 0; 0; 1; 1;
                    6; 0; 8; 0; 42; 0; 0; 0; 0; 0; 0; 0]].
Proof. eexists. split; vm_compute; reflexivity. Qed.

(** ** Round trips of the packet codec *)

Lemma mod256_bits (a n : Z) :
  0 <= n -> Z.testbit (a mod 256) n = if n <? 8 then Z.testbit a n else false.
Proof.
  intros Hn. change 256 with (2 ^ 8).
  destruct (Z.ltb_spec n 8).
  - apply Z.mod_pow2_bits_low. lia.
  - apply Z.mod_pow2_bits_high. lia.
Qed.

(** The three length bytes of a header give back the length. *)
Lemma header_length (L : Z) :
  0 <= L < 2 ^ 24 ->
  Z.lor (Z.lor (L mod 256) (Z.shiftl (Z.shiftr L 8 mod 256) 8))
        (Z.shiftl (Z.shiftr L 16 mod 256) 16) = L.
Proof.
  intros HL. apply Z.bits_inj'. intros n Hn.
  rewrite !Z.lor_spec, !Z.shiftl_spec by lia.
  rewrite mod256_bits by lia.
  destruct (Z.ltb_spec n 8).
  - rewrite !(Z.testbit_neg_r _ (n - 8)), !(Z.testbit_neg_r _ (n - 16)) by lia.
    now rewrite !orb_false_r.
  - rewrite mod256_bits by lia. rewrite Z.shiftr_spec by lia.
    destruct (Z.ltb_spec (n - 8) 8).
    + rewrite (Z.testbit_neg_r _ (n - 16)) by lia.
      replace (n - 8 + 8) with n by lia. now rewrite orb_false_r.
    + cbn [orb]. rewrite mod256_bits by lia. rewrite Z.shiftr_spec by lia.
      replace (n - 16 + 16) with n by lia.
      destruct (Z.ltb_spec (n - 16) 8); [reflexivity|].
      symmetry. destruct (Z.eq_dec L 0) as [->|Hz]; [apply Z.bits_0|].
      apply Z.bits_above_log2; [lia|].
      apply Z.log2_lt_pow2; [lia|].
      apply Z.lt_le_trans with (2 ^ 24); [lia|].
      apply Z.pow_le_mono_r; lia.
Qed.

Lemma zlen_firstn_le {A} (l : list A) (n : Z) :
  0 <= n <= zlen l -> zlen (firstn (Z.to_nat n) l) = n.
Proof. intros H. unfold zlen in *. rewrite length_firstn. lia. Qed.

Lemma readNext_app (mc : mysqlConn) (p rest : list Z) :
  mc_input mc = p ++ rest ->
  readNext mc (zlen p) = (Ok p, set_input mc rest).
Proof.
  intros H. unfold readNext. rewrite H, zlen_app.
  pose proof (zlen_nonneg p). pose proof (zlen_nonneg rest).
  replace ((0 <=? zlen p) && (zlen p <=? zlen p + zlen rest)) with true
    by (symmetry; apply andb_true_iff; split; apply Z.leb_le; lia).
  unfold zlen. rewrite Nat2Z.id.
  rewrite firstn_app, Nat.sub_diag, firstn_all. cbn [firstn].
  rewrite app_nil_r, skipn_app, Nat.sub_diag, skipn_all. reflexivity.
Qed.

Lemma maxPacketSize_lt : maxPacketSize < 2 ^ 24.
Proof. reflexivity. Qed.

(** One turn of [readPacket] on a packet whose sequence byte is the one
    expected. *)
Lemma readPacket_turn_frame (prev : list Z) (mc : mysqlConn) (p rest : list Z) :
  zlen p <= maxPacketSize ->
  mc_input mc = frame (mc_sequence mc) p ++ rest ->
  readPacket_turn prev mc
  = readPacket_payload (zlen p) prev
      (set_sequence (set_input mc (p ++ rest)) ((mc_sequence mc + 1) mod 256)).
Proof.
  intros Hp Hin. unfold readPacket_turn.
  unfold frame in Hin. cbn [app] in Hin.
  rewrite (readNext_header mc _ _ _ _ _ Hin).
  cbn [nth]. change (mc_sequence (set_input mc (p ++ rest))) with (mc_sequence mc).
  rewrite Z.eqb_refl. cbn [negb].
  rewrite header_length; [reflexivity|].
  pose proof (zlen_nonneg p). pose proof maxPacketSize_lt. lia.
Qed.

(** [readPacket] on the packets that carry one payload. *)
Lemma readPacket_wire_frames (mc : mysqlConn) (p rest : list Z) :
  0 < zlen p <= maxPacketSize ->
  mc_input mc = concat (wire_frames (mc_sequence mc) p) ++ rest ->
  readPacket mc
  = Some (Ok p,
          set_sequence (set_input mc rest)
            (if zlen p <? maxPacketSize then (mc_sequence mc + 1) mod 256
             else ((mc_sequence mc + 1) mod 256 + 1) mod 256)).
Proof.
  intros Hp Hin. unfold readPacket.
  assert (Hlen : (2 <= length (mc_input mc))%nat).
  { rewrite Hin. unfold wire_frames, frame.
    destruct (zlen p <? maxPacketSize); cbn; lia. }
  destruct (length (mc_input mc)) as [|[|fuel]]; try lia.
  unfold wire_frames in Hin.
  destruct (Z.ltb_spec (zlen p) maxPacketSize) as [Hlt|Hge].
  - cbn [concat] in Hin. rewrite app_nil_r in Hin.
    cbn [readPacket_loop].
    rewrite (readPacket_turn_frame [] mc p rest) by (lia || exact Hin).
    unfold readPacket_payload.
    destruct (Z.eqb_spec (zlen p) 0); [lia|].
    rewrite (readNext_app _ p rest) by reflexivity.
    destruct (Z.ltb_spec (zlen p) maxPacketSize); [|lia].
    reflexivity.
  - cbn [concat] in Hin. rewrite app_nil_r, <- app_assoc in Hin.
    cbn [readPacket_loop].
    rewrite (readPacket_turn_frame [] mc p _) by (lia || exact Hin).
    unfold readPacket_payload at 1.
    destruct (Z.eqb_spec (zlen p) 0); [lia|].
    rewrite (readNext_app _ p (frame ((mc_sequence mc + 1) mod 256) [] ++ rest))
      by reflexivity.
    destruct (Z.ltb_spec (zlen p) maxPacketSize); [lia|].
    cbn [app].
    match goal with |- context [readPacket_turn ?pr ?m] =>
      rewrite (readPacket_turn_frame pr m [] rest)
        by (reflexivity || (change (zlen (@nil Z)) with 0; rewrite maxPacketSize_value; lia))
    end.
    unfold readPacket_payload. change (zlen (@nil Z) =? 0) with true. cbv iota.
    destruct p as [|x p]; [change (zlen (@nil Z)) with 0 in Hp; lia|].
    reflexivity.
Qed.

(** X1.  [readPacket] on the physical packets of one payload of 1 to
    [maxPacketSize] bytes, numbered from [mc.sequence]: it returns the
    payload, joining a full packet with the empty one that ends it,
    leaves what follows unread and has counted each packet. *)
Theorem readPacket_frames (mc : mysqlConn) (p rest : list Z) :
  0 < zlen p <= maxPacketSize ->
  mc_input mc = concat (wire_frames (mc_sequence mc) p) ++ rest ->
  readPacket mc
  = Some (Ok p,
          set_sequence (set_input mc rest)
            (if zlen p <? maxPacketSize then (mc_sequence mc + 1) mod 256
             else ((mc_sequence mc + 1) mod 256 + 1) mod 256)).
Proof. exact (readPacket_wire_frames mc p rest). Qed.

(** What a writer that takes everything has received after
    [writePacket], for a payload of at most [maxPacketSize] bytes. *)
Lemma writePacket_full_writer (mc : mysqlConn) (data : list Z) :
  4 <= zlen data ->
  zlen data - 4 <= mc_maxAllowedPacket mc ->
  zlen data - 4 <= maxPacketSize ->
  let payload := skipn 4 data in
  let seq := mc_sequence mc in
  exists mc',
    writePacket fullWriter mc data = Some (Ok tt, mc') /\
    mc_sent mc' = mc_sent mc ++ wire_frames seq payload /\
    mc_sequence mc'
    = (if zlen payload <? maxPacketSize then (seq + 1) mod 256
       else ((seq + 1) mod 256 + 1) mod 256) /\
    mc_closed mc' = mc_closed mc.
Proof.
  intros H4 Hmax Hsmall payload seq.
  assert (Hp : zlen payload = zlen data - 4) by (apply zlen_skipn4; exact H4).
  assert (Hw : writePacket fullWriter mc data
               = match writePacket_turn fullWriter (zlen data - 4) data mc with
                 | Return r m => Some (r, m)
                 | Again (p, d) m =>
                     writePacket_loop fullWriter
                       (S (Z.to_nat ((zlen data - 4) / maxPacketSize))) p d m
                 end).
  { unfold writePacket.
    destruct (Z.ltb_spec (mc_maxAllowedPacket mc) (zlen data - 4)); [lia|].
    reflexivity. }
  rewrite Hw, (writePacket_turn_first fullWriter mc data H4). cbv zeta.
  unfold fullWriter at 1. rewrite (zlen_first_chunk mc data H4).
  unfold wire_frames. rewrite Hp.
  destruct (Z.ltb_spec (zlen data - 4) maxPacketSize) as [Hlt|Hge].
  - (* one packet *)
    destruct (Z.leb_spec maxPacketSize (zlen data - 4)); [lia|].
    replace (zlen data =? 4 + (zlen data - 4)) with true
      by (symmetry; apply Z.eqb_eq; lia).
    destruct (Z.eqb_spec (zlen data - 4) maxPacketSize); [lia|].
    cbn [negb]. eexists. split; [reflexivity|].
    repeat split.
    cbn [mc_sent set_sequence send]. f_equal. f_equal.
    unfold first_chunk, frame.
    destruct (Z.leb_spec maxPacketSize (zlen data - 4)); [lia|].
    fold payload. rewrite Hp. reflexivity.
  - (* a full packet and an empty one *)
    assert (HL : zlen data - 4 = maxPacketSize) by lia.
    rewrite HL. rewrite Z.leb_refl, Z.eqb_refl. cbn [negb].
    replace (zlen data =? 4 + maxPacketSize) with true
      by (symmetry; apply Z.eqb_eq; lia).
    set (fc := first_chunk mc data).
    assert (Hfc : zlen fc = zlen data) by (apply zlen_first_chunk; exact H4).
    unfold from.
    replace ((0 <=? maxPacketSize) && (maxPacketSize <=? zlen fc)) with true
      by (symmetry; apply andb_true_iff; split; apply Z.leb_le;
          rewrite ?maxPacketSize_value in *; lia).
    set (data' := skipn (Z.to_nat maxPacketSize) fc).
    assert (Hd' : zlen data' = 4).
    { unfold data', zlen. rewrite length_skipn.
      unfold zlen in Hfc, HL. rewrite maxPacketSize_value in *. lia. }
    rewrite Z.div_same by (rewrite maxPacketSize_value; lia).
    rewrite Z.sub_diag.
    change (Z.to_nat 1) with 1%nat. cbn [writePacket_loop].
    set (mc1 := set_sequence (send mc fc) ((mc_sequence (send mc fc) + 1) mod 256)).
    replace (writePacket_turn fullWriter 0 data' mc1)
      with (writePacket_turn fullWriter (zlen data' - 4) data' mc1)
      by (rewrite Hd'; reflexivity).
    rewrite (writePacket_turn_first fullWriter mc1 data') by lia. cbv zeta.
    unfold fullWriter at 1. rewrite (zlen_first_chunk mc1 data') by lia.
    rewrite Hd'. change (4 - 4) with 0.
    change (maxPacketSize <=? 0) with false. cbv iota.
    change (4 =? 4 + 0) with true. change (0 =? maxPacketSize) with false.
    cbn [negb]. eexists. split; [reflexivity|].
    repeat split.
    cbn [mc_sent set_sequence send mc1]. rewrite <- app_assoc. f_equal.
    cbn [app]. f_equal.
    + unfold fc, first_chunk, frame. rewrite HL, Z.leb_refl.
      fold payload. rewrite Hp, HL. reflexivity.
    + f_equal. unfold first_chunk. rewrite Hd'.
      destruct (four_cells data' ltac:(lia)) as (a & b & c & d & t & E & Ht).
      rewrite E. cbn [skipn]. rewrite (zlen_nil_inv t) by lia.
      reflexivity.
Qed.

Lemma skipn_length_app {A} (l1 l2 : list A) : skipn (length l1) (l1 ++ l2) = l2.
Proof. rewrite skipn_app, Nat.sub_diag, skipn_all. reflexivity. Qed.

(** X2.  Loopback: what [writePacket] puts on the wire for a payload
    that is not empty, [readPacket] reads back as that payload, and both
    sides end on the same sequence number. *)
Theorem writePacket_readPacket_loopback (mc mcr : mysqlConn)
  (data rest : list Z) :
  4 <= zlen data ->
  0 < zlen data - 4 <= mc_maxAllowedPacket mc ->
  zlen data - 4 <= maxPacketSize ->
  mc_sequence mcr = mc_sequence mc ->
  exists mc',
    writePacket fullWriter mc data = Some (Ok tt, mc') /\
    (mc_input mcr = concat (skipn (length (mc_sent mc)) (mc_sent mc')) ++ rest ->
     readPacket mcr
     = Some (Ok (skipn 4 data), set_sequence (set_input mcr rest)
                                  (mc_sequence mc'))).
Proof.
  intros H4 HL Hsmall Hseq.
  destruct (writePacket_full_writer mc data H4 ltac:(lia) Hsmall)
    as (mc' & Hw & Hsent & Hs & _).
  exists mc'. split; [exact Hw|].
  rewrite Hsent, skipn_length_app, Hs, <- Hseq. intros Hin.
  apply readPacket_wire_frames; [|exact Hin].
  rewrite zlen_skipn4 by exact H4. lia.
Qed.

Lemma readPacket_payload_nonempty (pktLen : Z) (prev : list Z) (mc : mysqlConn) :
  match readPacket_payload pktLen prev mc with
  | Return (Ok data) _ => data <> []
  | Again prev' _ => prev' <> []
  | _ => True
  end.
Proof.
  unfold readPacket_payload.
  destruct (Z.eqb_spec pktLen 0) as [|Hn].
  - destruct prev; [exact I|discriminate].
  - destruct (readNext mc pktLen) as [[d|e|] mc1] eqn:E.
    + apply readNext_ok in E. destruct E as [_ Hd].
      assert (d <> []) by (intros ->; apply Hn; exact (eq_sym Hd)).
      destruct (pktLen <? maxPacketSize); [destruct prev|];
        try assumption; intros Happ; apply app_eq_nil in Happ;
        destruct Happ; contradiction.
    + destruct (mc_canceled mc1); exact I.
    + exact I.
Qed.

Lemma readPacket_loop_nonempty (fuel : nat) :
  forall (prev : list Z) (mc mc' : mysqlConn) (data : list Z),
  readPacket_loop fuel prev mc = Some (Ok data, mc') -> data <> [].
Proof.
  induction fuel as [|fuel IH]; intros prev mc mc' data H; [discriminate|].
  cbn [readPacket_loop] in H. unfold readPacket_turn in H.
  destruct (readNext mc 4) as [[d|e|] mc1].
  - destruct (negb _).
    + destruct (_ <? _); discriminate.
    + match type of H with
      | context [readPacket_payload ?p ?q ?m] =>
          pose proof (readPacket_payload_nonempty p q m) as Hne;
          destruct (readPacket_payload p q m) as [r m'|l m']
      end.
      * inversion H; subst. exact Hne.
      * eapply IH. exact H.
  - destruct (mc_canceled mc1); discriminate.
  - discriminate.
Qed.

(** X3.  A packet that [readPacket] returns without error is never
    empty: its first byte can be read. *)
Theorem readPacket_nonempty (mc mc' : mysqlConn) (data : list Z) :
  readPacket mc = Some (Ok data, mc') -> data <> [].
Proof. apply readPacket_loop_nonempty. Qed.

(** X4.  A packet of length 0 that follows no full packet, as
    [writePacket] sends for an empty payload, is malformed for
    [readPacket]: [ErrInvalidConn], the connection closed, [ErrMalformPkt]
    logged. *)
Theorem readPacket_empty_packet (mc : mysqlConn) (rest : list Z) :
  mc_input mc = [0; 0; 0; mc_sequence mc] ++ rest ->
  readPacket mc
  = Some (Err ErrInvalidConn,
          Close (logPrint (set_sequence (set_input mc rest)
                             ((mc_sequence mc + 1) mod 256)) ErrMalformPkt)).
Proof.
  intros Hin. unfold readPacket. cbn [readPacket_loop].
  unfold readPacket_turn. rewrite (readNext_header mc _ _ _ _ _ Hin).
  cbn [nth]. change (mc_sequence (set_input mc rest)) with (mc_sequence mc).
  rewrite Z.eqb_refl. reflexivity.
Qed.

(** X5.  When the header cannot be read: a pending cancellation is
    returned as it is, the connection untouched; without one the error
    is logged, the connection closed and [ErrInvalidConn] returned. *)
Theorem readPacket_short_header (mc : mysqlConn) :
  zlen (mc_input mc) < 4 ->
  readPacket mc
  = Some (match mc_canceled mc with
          | Some cerr => (Err cerr, mc)
          | None => (Err ErrInvalidConn, Close (logPrint mc (mc_readErr mc)))
          end).
Proof.
  intros H. unfold readPacket. cbn [readPacket_loop].
  unfold readPacket_turn, readNext.
  replace ((0 <=? 4) && (4 <=? zlen (mc_input mc))) with false
    by (symmetry; apply andb_false_iff; right; apply Z.leb_gt; lia).
  destruct (mc_canceled mc); reflexivity.
Qed.

(** X6.  After a chunk of [maxPacketSize] bytes went out, a write of the
    empty trailing packet that fails with nothing written makes
    [writePacket] return [errBadConnNoWrite] and clean nothing up. *)
Theorem writePacket_trailing_packet_no_write (net : writer) (mc : mysqlConn)
  (data : list Z) (e : error) :
  zlen data - 4 = maxPacketSize ->
  maxPacketSize <= mc_maxAllowedPacket mc ->
  mc_canceled mc = None ->
  let s1 := (mc_sequence mc + 1) mod 256 in
  let mc1 := set_sequence (send mc (first_chunk mc data)) s1 in
  net (length (mc_sent mc)) (first_chunk mc data)
  = WResult (4 + maxPacketSize) None ->
  net (length (mc_sent mc1)) [0; 0; 0; s1] = WResult 0 (Some e) ->
  writePacket net mc data
  = Some (Err errBadConnNoWrite, send mc1 [0; 0; 0; s1]).
Proof.
  intros HL Hmax Hc s1 mc1 Hn1 Hn2.
  assert (H4 : 4 <= zlen data) by (rewrite maxPacketSize_value in HL; lia).
  unfold writePacket.
  destruct (Z.ltb_spec (mc_maxAllowedPacket mc) (zlen data - 4)); [lia|].
  rewrite HL, Z.div_same by (rewrite maxPacketSize_value; lia).
  change (Z.to_nat 1) with 1%nat. cbn [writePacket_loop].
  rewrite <- HL at 1.
  rewrite (writePacket_turn_first net mc data H4). cbv zeta.
  rewrite Hn1, HL, Z.leb_refl, !Z.eqb_refl. cbn [negb].
  fold s1. change (mc_sequence (send mc (first_chunk mc data))) with (mc_sequence mc).
  fold s1. fold mc1.
  set (fc := first_chunk mc data).
  assert (Hfc : zlen fc = zlen data) by (apply zlen_first_chunk; exact H4).
  unfold from.
  replace ((0 <=? maxPacketSize) && (maxPacketSize <=? zlen fc)) with true
    by (symmetry; apply andb_true_iff; split; apply Z.leb_le;
        rewrite ?maxPacketSize_value in *; lia).
  set (data' := skipn (Z.to_nat maxPacketSize) fc).
  assert (Hd' : zlen data' = 4).
  { unfold data', zlen. rewrite length_skipn.
    unfold zlen in Hfc, HL. rewrite maxPacketSize_value in *. lia. }
  rewrite Z.sub_diag.
  replace (writePacket_turn net 0 data' mc1)
    with (writePacket_turn net (zlen data' - 4) data' mc1)
    by (rewrite Hd'; reflexivity).
  rewrite (writePacket_turn_first net mc1 data') by lia. cbv zeta.
  assert (Hf : first_chunk mc1 data' = [0; 0; 0; s1]).
  { unfold first_chunk. rewrite Hd'.
    destruct (four_cells data' ltac:(lia)) as (a & b & c & d & t & E & Ht).
    rewrite E. cbn [skipn]. rewrite (zlen_nil_inv t) by lia. reflexivity. }
  rewrite Hf, Hn2.
  change (mc_canceled (send mc1 [0; 0; 0; s1])) with (mc_canceled mc).
  rewrite Hc, Hd'. reflexivity.
Qed.


Lemma readPacket_one (mc : mysqlConn) (p rest : list Z) :
  one_packet p ->
  mc_input mc = frame (mc_sequence mc) p ++ rest ->
  readPacket mc
  = Some (Ok p, set_sequence (set_input mc rest) ((mc_sequence mc + 1) mod 256)).
Proof.
  intros [H0 H1] Hin.
  rewrite (readPacket_wire_frames mc p rest).
  - destruct (Z.ltb_spec (zlen p) maxPacketSize); [reflexivity|lia].
  - lia.
  - unfold wire_frames.
    destruct (Z.ltb_spec (zlen p) maxPacketSize); [|lia].
    cbn [concat]. rewrite app_nil_r. exact Hin.
Qed.

Lemma idx_head (p : list Z) : p <> [] -> idx p 0 = Ok (nth 0 p 0).
Proof. destruct p; [contradiction|reflexivity]. Qed.

Lemma one_packet_nonempty (p : list Z) : one_packet p -> p <> [].
Proof. intros [H _] ->. change (zlen (@nil Z)) with 0 in H. lia. Qed.

Lemma succ_mod (s n : Z) : ((s + n) mod 256 + 1) mod 256 = (s + (n + 1)) mod 256.
Proof. rewrite Z.add_mod_idemp_l by lia. f_equal. lia. Qed.

Lemma readUntilEOF_loop_packets (ps : list (list Z)) :
  forall (fuel : nat) (mc : mysqlConn) (w0 w1 s0 s1 : Z) (rest : list Z),
  (length ps < fuel)%nat ->
  Forall data_packet ps ->
  mc_input mc
  = packets (mc_sequence mc) (ps ++ [[iEOF; w0; w1; s0; s1]]) ++ rest ->
  readUntilEOF_loop fuel mc
  = Some (Ok tt,
          set_status
            (set_sequence (set_input mc rest)
               ((mc_sequence mc + (zlen ps + 1)) mod 256))
            (Z.lor s0 (Z.shiftl s1 8))).
Proof.
  induction ps as [|p ps IH]; intros fuel mc w0 w1 s0 s1 rest Hf Hps Hin.
  - destruct fuel as [|fuel]; [cbn in Hf; lia|].
    cbn [app packets] in Hin. rewrite app_nil_r in Hin.
    cbn [readUntilEOF_loop]. unfold readUntilEOF_turn.
    rewrite (readPacket_one mc [iEOF; w0; w1; s0; s1] rest);
      [|split; vm_compute; reflexivity|exact Hin].
    reflexivity.
  - destruct fuel as [|fuel]; [cbn in Hf; lia|].
    inversion Hps as [|? ? [Hp [He Hr]] Hps']; subst.
    cbn [app packets] in Hin. rewrite <- app_assoc in Hin.
    cbn [readUntilEOF_loop]. unfold readUntilEOF_turn.
    rewrite (readPacket_one mc p _ Hp Hin).
    rewrite (idx_head p (one_packet_nonempty p Hp)).
    destruct (Z.eqb_spec (nth 0 p 0) iERR); [contradiction|].
    destruct (Z.eqb_spec (nth 0 p 0) iEOF); [contradiction|].
    rewrite (IH fuel _ w0 w1 s0 s1 rest); [| cbn in Hf; lia | exact Hps' | reflexivity].
    cbn [mc_sequence set_sequence set_input].
    rewrite zlen_cons.
    rewrite Z.add_mod_idemp_l by lia.
    replace (mc_sequence mc + 1 + (zlen ps + 1))
      with (mc_sequence mc + (zlen ps + 1 + 1)) by lia.
    reflexivity.
Qed.

Lemma length_packets_ge (seq : Z) (ps : list (list Z)) :
  (length ps <= length (packets seq ps))%nat.
Proof.
  revert seq. induction ps as [|p ps IH]; intros seq; [cbn; lia|].
  cbn [packets]. unfold frame. cbn [app length]. rewrite length_app.
  specialize (IH ((seq + 1) mod 256)). lia.
Qed.

(** X7.  [readUntilEOF] on a run of packets that ends with an EOF packet
    of 5 bytes: it reads through that packet and no further, takes the
    status from its last two bytes, and has counted every packet. *)
Theorem readUntilEOF_packets (mc : mysqlConn) (ps : list (list Z))
  (w0 w1 s0 s1 : Z) (rest : list Z) :
  Forall data_packet ps ->
  mc_input mc
  = packets (mc_sequence mc) (ps ++ [[iEOF; w0; w1; s0; s1]]) ++ rest ->
  readUntilEOF mc
  = Some (Ok tt,
          set_status
            (set_sequence (set_input mc rest)
               ((mc_sequence mc + (zlen ps + 1)) mod 256))
            (Z.lor s0 (Z.shiftl s1 8))).
Proof.
  intros Hps Hin. unfold readUntilEOF.
  apply (readUntilEOF_loop_packets ps _ mc w0 w1 s0 s1 rest);
    [|exact Hps|exact Hin].
  rewrite Hin, length_app.
  pose proof (length_packets_ge (mc_sequence mc) (ps ++ [[iEOF; w0; w1; s0; s1]])).
  rewrite length_app in H. cbn [length] in H. lia.
Qed.

(** ** A row that starts with 0xfe *)

(** [readPacket] on a payload sent as a full packet and a shorter one. *)
Lemma readPacket_two_fragments (mc : mysqlConn) (a b rest : list Z) :
  zlen a = maxPacketSize ->
  0 < zlen b < maxPacketSize ->
  mc_input mc
  = frame (mc_sequence mc) a ++ frame ((mc_sequence mc + 1) mod 256) b ++ rest ->
  readPacket mc
  = Some (Ok (a ++ b),
          set_sequence (set_input mc rest)
            (((mc_sequence mc + 1) mod 256 + 1) mod 256)).
Proof.
  intros Ha Hb Hin. unfold readPacket.
  assert (Hlen : (2 <= length (mc_input mc))%nat).
  { rewrite Hin. unfold frame. cbn. lia. }
  destruct (length (mc_input mc)) as [|[|fuel]]; try lia.
  cbn [readPacket_loop].
  rewrite (readPacket_turn_frame [] mc a _) by (lia || exact Hin).
  unfold readPacket_payload at 1.
  destruct (Z.eqb_spec (zlen a) 0); [rewrite maxPacketSize_value in *; lia|].
  rewrite (readNext_app _ a (frame ((mc_sequence mc + 1) mod 256) b ++ rest))
    by reflexivity.
  destruct (Z.ltb_spec (zlen a) maxPacketSize); [lia|].
  cbn [app].
  match goal with |- context [readPacket_turn ?pr ?m] =>
    rewrite (readPacket_turn_frame pr m b rest) by (reflexivity || lia)
  end.
  unfold readPacket_payload.
  destruct (Z.eqb_spec (zlen b) 0); [lia|].
  match goal with |- context [readNext ?m (zlen b)] =>
    rewrite (readNext_app m b rest) by reflexivity
  end.
  destruct (Z.ltb_spec (zlen b) maxPacketSize); [|lia].
  destruct a as [|x a]; [change (zlen (@nil Z)) with 0 in Ha;
                         rewrite maxPacketSize_value in Ha; lia|].
  reflexivity.
Qed.

(** [readUntilEOF] returns at a packet that starts with 0xfe, whatever
    its length; only one of 5 bytes gives the status. *)
Lemma readUntilEOF_stops (mc : mysqlConn) (p : list Z) (mc1 : mysqlConn) :
  readPacket mc = Some (Ok p, mc1) ->
  p <> [] -> nth 0 p 0 = iEOF -> zlen p <> 5 ->
  readUntilEOF mc = Some (Ok tt, mc1).
Proof.
  intros E Hne H0 H5. unfold readUntilEOF. cbn [readUntilEOF_loop].
  unfold readUntilEOF_turn. rewrite E, (idx_head p Hne), H0.
  change (iEOF =? iERR) with false. change (iEOF =? iEOF) with true.
  cbv iota. destruct (Z.eqb_spec (zlen p) 5); [contradiction|reflexivity].
Qed.

Lemma mysqlRows_Close_long_row (U : helpers) (rows : mysqlRows)
  (mc : mysqlConn) (a b rest : list Z) :
  attached rows = true -> isBroken mc = false -> done (rs rows) = false ->
  Z.land (mc_status mc) statusMoreResultsExists = 0 ->
  nth 0 a 0 = iEOF ->
  zlen a = maxPacketSize -> 0 < zlen b < maxPacketSize ->
  mc_input mc
  = frame (mc_sequence mc) a ++ frame ((mc_sequence mc + 1) mod 256) b ++ rest ->
  mysqlRows_Close U rows mc
  = Some (Ok tt, detach rows,
          finish (set_sequence (set_input mc rest)
                    (((mc_sequence mc + 1) mod 256 + 1) mod 256))).
Proof.
  intros Hatt Hbr Hd Hst H0 Ha Hb Hin.
  unfold mysqlRows_Close. rewrite Hatt, Hbr, Hd. cbn [negb].
  pose proof (zlen_nonneg b) as Hb0.
  rewrite (readUntilEOF_stops mc (a ++ b) _
             (readPacket_two_fragments mc a b rest Ha Hb Hin)).
  - unfold discardResults. cbn [discardResults_loop].
    change (mc_status (set_sequence (set_input mc rest) _))
      with (mc_status mc).
    rewrite Hst. reflexivity.
  - destruct a; [|discriminate].
    change (zlen (@nil Z)) with 0 in Ha. rewrite maxPacketSize_value in Ha. lia.
  - destruct a; [|exact H0].
    change (zlen (@nil Z)) with 0 in Ha. rewrite maxPacketSize_value in Ha. lia.
  - rewrite zlen_app, Ha, maxPacketSize_value. lia.
Qed.

(** C9 fails on the code.  The unread rest of a result set is a row
    whose first column holds 2^24 bytes, then the EOF packet.  The row
    starts with 0xfe, the marker of a length in 8 bytes, and takes a full
    packet and one of 10 bytes.  [readUntilEOF] takes the row for the end
    of the rows: [Close] returns no error and leaves the EOF packet
    unread.  The row readers take a packet for the EOF packet only when
    it has 5 bytes. *)
Theorem rows_Close_long_row_unread :
  let a := 254 :: [0; 0; 0; 1; 0; 0; 0; 0]
           ++ repeat 97 (Z.to_nat (maxPacketSize - 9)) in
  let b := repeat 97 10 in
  let eof := [5; 0; 0; 7; 254; 0; 0; 2; 0] in
  let rows := mkRows true (mkResultSet [] false) in
  let mc := set_sequence (exampleConn (frame 5 a ++ frame 6 b ++ eof)) 5 in
  exists mc',
    mysqlRows_Close exampleHelpers rows mc = Some (Ok tt, detach rows, mc') /\
    mc_input mc' = eof.
Proof.
  intros a b eof rows mc. eexists. split.
  - apply (mysqlRows_Close_long_row exampleHelpers rows mc a b eof).
    + reflexivity.
    + reflexivity.
    + reflexivity.
    + reflexivity.
    + reflexivity.
    + unfold a. rewrite zlen_cons, zlen_app, zlen_repeat
        by (vm_compute; discriminate).
      reflexivity.
    + split; vm_compute; reflexivity.
    + reflexivity.
  - reflexivity.
Qed.

(** ** Draining result sets *)













(** ** Little-endian integers *)

Lemma le_uint_le_bytes (n : nat) : forall v : Z,
  le_uint (le_bytes n v) = v mod 256 ^ Z.of_nat n.
Proof.
  induction n as [|n IH]; intros v.
  - cbn. now rewrite Z.mod_1_r.
  - cbn [le_bytes le_uint]. rewrite IH.
    rewrite Nat2Z.inj_succ, Z.pow_succ_r by lia.
    rewrite Z.rem_mul_r by lia. lia.
Qed.

Ltac crunch3 :=
  repeat (progress (cbn [len arr bind upd_nat andb negb orb fst snd app firstn
                         skipn length repeat Nat.add nth_error nth le_bytes
                         Z.of_nat];
                    rewrite ?zlen_cons; eval_arith; decide_cmp; norm_nat)).

(** ** Error packets *)

(** X8.  [handleErrorPacket] on an ERR packet: the error number is the
    two bytes after the marker, little-endian; the SQL state is the five
    bytes after a '#', or zero without one; the message is the rest.
    Errors 1792 and 1290 under [RejectReadOnly] close the connection and
    give [ErrBadConn] instead. *)
Theorem handleErrorPacket_fields (mc : mysqlConn)
  (e0 e1 c s0 s1 s2 s3 s4 : Z) (msg : list Z) :
  let errno := e0 + 256 * e1 in
  let readOnly := ((errno =? 1792) || (errno =? 1290)) && mc_rejectReadOnly mc in
  handleErrorPacket mc
    (iERR :: e0 :: e1 :: 0x23 :: s0 :: s1 :: s2 :: s3 :: s4 :: msg)
  = (if readOnly then (Ok ErrBadConn, Close mc)
     else (Ok (MySQLError errno [s0; s1; s2; s3; s4] msg), mc)) /\
  (c <> 0x23 ->
   handleErrorPacket mc (iERR :: e0 :: e1 :: c :: msg)
   = if readOnly then (Ok ErrBadConn, Close mc)
     else (Ok (MySQLError errno [0; 0; 0; 0; 0] (c :: msg)), mc)).
Proof.
  intros errno readOnly.
  assert (He : le_uint [e0; e1] = errno) by (unfold errno; cbn [le_uint]; lia).
  pose proof (zlen_nonneg msg) as Hm.
  split; [|intros Hc]; unfold handleErrorPacket, idx, sub, from.
  - change (nth_error (iERR :: e0 :: e1 :: 35 :: s0 :: s1 :: s2 :: s3 :: s4 :: msg)
              (Z.to_nat 0)) with (Some iERR).
    change (0 <? 0) with false. cbv iota. rewrite Z.eqb_refl. cbn [negb].
    crunch3. rewrite He. fold readOnly.
    destruct readOnly; reflexivity.
  - change (nth_error (iERR :: e0 :: e1 :: c :: msg) (Z.to_nat 0))
      with (Some iERR).
    change (0 <? 0) with false. cbv iota. rewrite Z.eqb_refl. cbn [negb].
    crunch3. rewrite He. fold readOnly.
    destruct readOnly; reflexivity.
Qed.

(** ** The answer to COM_STMT_PREPARE *)

(** X9.  [readPrepareResultPacket] on a prepare-OK packet: the statement
    takes the id and the parameter count of the packet, the column count
    is returned. *)
Theorem readPrepareResultPacket_ok (stmt : mysqlStmt) (mc : mysqlConn)
  (id cc pc : Z) (tail rest : list Z) :
  0 <= id < 2 ^ 32 -> 0 <= cc < 2 ^ 16 -> 0 <= pc < 2 ^ 16 ->
  let payload := iOK :: le_bytes 4 id ++ le_bytes 2 cc ++ le_bytes 2 pc ++ tail in
  zlen payload < maxPacketSize ->
  mc_input mc = frame (mc_sequence mc) payload ++ rest ->
  readPrepareResultPacket stmt mc
  = Some (Ok cc, mkStmt id pc,
          set_sequence (set_input mc rest) ((mc_sequence mc + 1) mod 256)).
Proof.
  intros Hid Hcc Hpc payload Hlen Hin.
  unfold readPrepareResultPacket.
  rewrite (readPacket_one mc payload rest); [| |exact Hin].
  2:{ split; [|exact Hlen]. unfold payload. rewrite zlen_cons.
      pose proof (zlen_nonneg (le_bytes 4 id ++ le_bytes 2 cc ++ le_bytes 2 pc ++ tail)).
      lia. }
  assert (H4 : le_uint (le_bytes 4 id) = id)
    by (rewrite le_uint_le_bytes; apply Z.mod_small; exact Hid).
  assert (H2 : le_uint (le_bytes 2 cc) = cc)
    by (rewrite le_uint_le_bytes; apply Z.mod_small; exact Hcc).
  assert (H2' : le_uint (le_bytes 2 pc) = pc)
    by (rewrite le_uint_le_bytes; apply Z.mod_small; exact Hpc).
  clear Hlen Hin. unfold payload. cbn [le_bytes] in *.
  pose proof (zlen_nonneg tail) as Ht.
  unfold idx, sub. crunch3.
  rewrite ?Z.eqb_refl. crunch3.
  cbn [stmt_id]. rewrite H4, H2, H2'. reflexivity.
Qed.

(** ** Authentication results *)

Lemma IndexByte_nonneg (b : list Z) (c : Z) : -1 <= IndexByte b c.
Proof.
  induction b as [|x b IH]; cbn [IndexByte]; [lia|].
  destruct (x =? c); [lia|]. destruct (IndexByte b c <? 0); lia.
Qed.

Lemma IndexByte_first (pre post : list Z) (c : Z) :
  Forall (fun x => x <> c) pre ->
  IndexByte (pre ++ c :: post) c = zlen pre.
Proof.
  induction 1 as [|x pre Hx _ IH]; cbn [app IndexByte].
  - rewrite Z.eqb_refl. reflexivity.
  - destruct (Z.eqb_spec x c); [contradiction|].
    rewrite IH, zlen_cons. pose proof (zlen_nonneg pre).
    destruct (Z.ltb_spec (zlen pre) 0); lia.
Qed.

(** X10.  [readAuthResult] on an auth switch request: the plugin name is
    what stands between the marker and the first NUL, the auth data all
    that follows. *)
Theorem readAuthResult_switch (U : helpers) (mc : mysqlConn)
  (plugin authData rest : list Z) :
  Forall (fun x => x <> 0) plugin ->
  let data := iEOF :: plugin ++ 0 :: authData in
  zlen data < maxPacketSize ->
  mc_input mc = frame (mc_sequence mc) data ++ rest ->
  readAuthResult U mc
  = Some (Ok (authData, plugin),
          set_sequence (set_input mc rest) ((mc_sequence mc + 1) mod 256)).
Proof.
  intros Hp data Hlen Hin. unfold readAuthResult.
  pose proof (zlen_nonneg plugin) as Hzp.
  pose proof (zlen_nonneg authData) as Hza.
  assert (Hd : zlen data = zlen plugin + zlen authData + 2).
  { unfold data. rewrite zlen_cons, zlen_app, zlen_cons. lia. }
  rewrite (readPacket_one mc data rest); [|unfold one_packet; lia|exact Hin].
  change (idx data 0) with (Ok iEOF). cbv beta iota.
  change (iEOF =? iOK) with false. change (iEOF =? iAuthMoreData) with false.
  change (iEOF =? iEOF) with true. cbv iota.
  destruct (Z.eqb_spec (zlen data) 1); [lia|].
  assert (Hi : IndexByte data 0 = zlen plugin + 1).
  { change data with ((iEOF :: plugin) ++ 0 :: authData).
    rewrite IndexByte_first, zlen_cons; [reflexivity|].
    constructor; [discriminate|exact Hp]. }
  rewrite Hi. destruct (Z.ltb_spec (zlen plugin + 1) 0); [lia|].
  unfold sub, from. rewrite Hd.
  replace ((0 <=? 1) && (1 <=? zlen plugin + 1)
           && (zlen plugin + 1 <=? zlen plugin + zlen authData + 2)) with true
    by (symmetry; rewrite !andb_true_iff; repeat split; apply Z.leb_le; lia).
  replace ((0 <=? zlen plugin + 1 + 1)
           && (zlen plugin + 1 + 1 <=? zlen plugin + zlen authData + 2)) with true
    by (symmetry; rewrite !andb_true_iff; repeat split; apply Z.leb_le; lia).
  cbn [bind]. do 2 f_equal.
  replace (Z.to_nat (zlen plugin + 1 + 1)) with (S (length plugin + 1))
    by (unfold zlen; lia).
  replace (Z.to_nat (zlen plugin + 1 - 1)) with (length plugin)
    by (unfold zlen; lia).
  change (Z.to_nat 1) with 1%nat. unfold data. cbn [skipn].
  rewrite skipn_app, firstn_app, Nat.sub_diag, firstn_all.
  replace (length plugin + 1 - length plugin)%nat with 1%nat by lia.
  rewrite (@skipn_all2 Z (length plugin + 1) plugin) by lia.
  cbn [firstn skipn app]. rewrite app_nil_r. reflexivity.
Qed.


(** ** The framing buffer, continued *)

Lemma buffer_ok_newBuffer : buffer_ok newBuffer.
Proof. split; vm_compute; [reflexivity|discriminate]. Qed.

(** X11.  [takeBuffer], [store] and [flip] keep the primary buffer's
    length equal to its capacity and never make it smaller. *)
Theorem buffer_ok_preserved (b : buffer) :
  buffer_ok b ->
  (forall n, buffer_ok (snd (takeBuffer b n)) /\
             cap (b_buf b) <= cap (b_buf (snd (takeBuffer b n)))) /\
  (forall buf, buffer_ok (snd (store b buf)) /\
               cap (b_buf b) <= cap (b_buf (snd (store b buf)))) /\
  buffer_ok (flip b).
Proof.
  intros Hok. pose proof Hok as [Hl Hc]. unfold defaultBufSize in Hc.
  split; [|split].
  - intros n. unfold takeBuffer.
    destruct (0 <? b_length b); [split; [exact Hok|cbn [snd]; lia]|].
    destruct (Z.leb_spec n (cap (b_buf b))); [split; [exact Hok|cbn [snd]; lia]|].
    destruct (n <? maxPacketSize); [|split; [exact Hok|cbn [snd]; lia]].
    cbn [snd]. unfold buffer_ok, set_buf. cbn [b_buf].
    rewrite cap_make by lia. cbn [make len]. unfold defaultBufSize. lia.
  - intros buf. unfold store.
    destruct (0 <? b_length b); [split; [exact Hok|cbn [snd]; lia]|].
    destruct (Z.leb_spec (cap buf) maxPacketSize);
      destruct (Z.ltb_spec (cap (b_buf b)) (cap buf)); cbn [andb snd];
      try (split; [exact Hok|lia]).
    unfold buffer_ok, slice_full, set_buf, cap, defaultBufSize in *.
    cbn [b_buf len arr]. lia.
  - exact Hok.
Qed.

(** X12.  [takeBuffer(n)] on a free buffer returns a slice of length
    [n]: on the primary buffer's array when [n] fits its capacity, a new
    zeroed array otherwise, kept as the primary buffer when
    [n < maxPacketSize]. *)
Theorem takeBuffer_free (b : buffer) (n : Z) :
  buffer_ok b -> b_length b <= 0 -> 0 <= n ->
  exists s,
    fst (takeBuffer b n) = Ok s /\ len s = n /\ n <= cap s /\
    (n <= cap (b_buf b) ->
       arr s = arr (b_buf b) /\ snd (takeBuffer b n) = b) /\
    (cap (b_buf b) < n ->
       s = make n /\
       snd (takeBuffer b n) = if n <? maxPacketSize then set_buf b s else b).
Proof.
  intros [Hl Hc] Hfree Hn. unfold takeBuffer.
  destruct (Z.ltb_spec 0 (b_length b)); [lia|].
  destruct (Z.leb_spec n (cap (b_buf b))).
  - unfold slice_to.
    destruct (Z.leb_spec 0 n); [|lia].
    destruct (Z.leb_spec n (cap (b_buf b))); [|lia].
    eexists. cbn [fst snd andb]. split; [reflexivity|].
    cbn [len arr]. unfold cap at 1. cbn [arr]. fold (cap (b_buf b)).
    repeat split; try lia.
  - exists (make n).
    destruct (n <? maxPacketSize); cbn [fst snd];
      (split; [reflexivity|]); rewrite cap_make by lia; cbn [make len];
      repeat split; try lia.
Qed.

(** ** connection_go18.go *)

(** X13.  [namedValueToValue] succeeds exactly when no parameter has a
    name, and then returns the values in order. *)
Theorem namedValueToValue_ok (named : list (list Z * value))
  (dargs : list value) :
  namedValueToValue named = Ok dargs <->
  Forall (fun p => fst p = []) named /\ dargs = map snd named.
Proof.
  revert dargs. induction named as [|[nm v] named IH]; intros dargs; cbn.
  - split.
    + intros H. inversion H. split; [constructor|reflexivity].
    + intros [_ ->]. reflexivity.
  - destruct nm as [|c nm].
    + change (0 <? zlen (@nil Z)) with false. cbv iota.
      destruct (namedValueToValue named) as [d| |] eqn:E; cbn [bind].
      * split.
        -- intros H. inversion H; subst.
           destruct (proj1 (IH d) eq_refl) as [Hf ->].
           split; [constructor; [reflexivity|exact Hf]|reflexivity].
        -- intros [Hf ->]. inversion Hf; subst.
           pose proof (proj2 (IH (map snd named)) (conj H2 eq_refl)) as Hd.
           inversion Hd. reflexivity.
      * split; [discriminate|]. intros [Hf ->]. inversion Hf; subst.
        discriminate (proj2 (IH (map snd named)) (conj H2 eq_refl)).
      * split; [discriminate|]. intros [Hf ->]. inversion Hf; subst.
        discriminate (proj2 (IH (map snd named)) (conj H2 eq_refl)).
    + rewrite zlen_cons. pose proof (zlen_nonneg nm).
      destruct (Z.ltb_spec 0 (zlen nm + 1)); [|lia].
      split; [discriminate|]. intros [Hf _]. inversion Hf; subst. discriminate.
Qed.

(** ** Integers in binary rows *)


Lemma zlen_le_bytes (n : nat) : forall v, zlen (le_bytes n v) = Z.of_nat n.
Proof.
  induction n as [|n IH]; intros v; [reflexivity|].
  cbn [le_bytes]. rewrite zlen_cons, IH. lia.
Qed.

Lemma sub_app (pre b post : list Z) :
  sub (pre ++ b ++ post) (zlen pre) (zlen pre + zlen b) = Ok b.
Proof.
  unfold sub. rewrite !zlen_app.
  pose proof (zlen_nonneg pre). pose proof (zlen_nonneg b).
  pose proof (zlen_nonneg post).
  replace ((0 <=? zlen pre) && (zlen pre <=? zlen pre + zlen b)
           && (zlen pre + zlen b <=? zlen pre + (zlen b + zlen post)))
    with true
    by (symmetry; rewrite !andb_true_iff; repeat split; apply Z.leb_le; lia).
  replace (Z.to_nat (zlen pre + zlen b - zlen pre)) with (length b)
    by (unfold zlen; lia).
  replace (Z.to_nat (zlen pre)) with (length pre) by (unfold zlen; lia).
  rewrite skipn_length_app, firstn_app, Nat.sub_diag, firstn_all.
  cbn [firstn]. rewrite app_nil_r. reflexivity.
Qed.

Lemma idx_app (pre : list Z) (x : Z) (post : list Z) :
  idx (pre ++ x :: post) (zlen pre) = Ok x.
Proof.
  unfold idx. pose proof (zlen_nonneg pre).
  destruct (Z.ltb_spec (zlen pre) 0); [lia|].
  replace (Z.to_nat (zlen pre)) with (length pre) by (unfold zlen; lia).
  rewrite nth_error_app2, Nat.sub_diag by lia. reflexivity.
Qed.

Lemma to_signed_mod (bits v : Z) :
  0 < bits -> - 2 ^ (bits - 1) <= v < 2 ^ (bits - 1) ->
  to_signed bits (v mod 2 ^ bits) = v.
Proof.
  intros Hb Hv. unfold to_signed.
  assert (Hp : 2 ^ bits = 2 * 2 ^ (bits - 1)).
  { replace bits with (Z.succ (bits - 1)) at 1 by lia.
    rewrite Z.pow_succ_r by lia. reflexivity. }
  assert (0 < 2 ^ (bits - 1)) by (apply Z.pow_pos_nonneg; lia).
  destruct (Z.le_gt_cases 0 v).
  - rewrite Z.mod_small by lia.
    destruct (Z.ltb_spec v (2 ^ (bits - 1))); lia.
  - replace (v mod 2 ^ bits) with (v + 2 ^ bits)
      by (apply Z.mod_unique with (q := -1); lia).
    destruct (Z.ltb_spec (v + 2 ^ bits) (2 ^ (bits - 1))); lia.
Qed.

(** X14.  The integer columns of a binary row: the little-endian bytes
    of a number, in two's complement for a signed column, decode to that
    number, for every width and at every position of the packet. *)
Theorem binary_value_integer (U : helpers) (parseTime : bool)
  (col : mysqlField) (w : nat) (v : Z) (pre post : list Z) :
  int_width (ftype col) = Some w ->
  (if is_unsigned col then 0 <= v < 2 ^ (8 * Z.of_nat w) /\ v < 2 ^ 63
   else - 2 ^ (8 * Z.of_nat w - 1) <= v < 2 ^ (8 * Z.of_nat w - 1)) ->
  binary_value U parseTime col
    (pre ++ le_bytes w (v mod 2 ^ (8 * Z.of_nat w)) ++ post) (zlen pre)
  = Ok (VInt64 v, zlen pre + Z.of_nat w).
Proof.
  intros Hw Hv.
  assert (Hpow : 2 ^ (8 * Z.of_nat w) = 256 ^ Z.of_nat w).
  { change 256 with (2 ^ 8). rewrite <- Z.pow_mul_r by lia. reflexivity. }
  assert (Hle : le_uint (le_bytes w (v mod 2 ^ (8 * Z.of_nat w)))
                = v mod 2 ^ (8 * Z.of_nat w)).
  { rewrite le_uint_le_bytes, <- Hpow. apply Z.mod_mod.
    apply Z.pow_nonzero; lia. }
  assert (Hval : (if is_unsigned col then v mod 2 ^ (8 * Z.of_nat w)
                  else to_signed (8 * Z.of_nat w) (v mod 2 ^ (8 * Z.of_nat w)))
                 = v).
  { destruct (is_unsigned col).
    - apply Z.mod_small. lia.
    - apply to_signed_mod; [|exact Hv].
      destruct w; [destruct (ftype col); discriminate|lia]. }
  assert (Hsub : sub (pre ++ le_bytes w (v mod 2 ^ (8 * Z.of_nat w)) ++ post)
                   (zlen pre) (zlen pre + Z.of_nat w)
                 = Ok (le_bytes w (v mod 2 ^ (8 * Z.of_nat w)))).
  { pose proof (sub_app pre (le_bytes w (v mod 2 ^ (8 * Z.of_nat w))) post)
      as Hs.
    rewrite zlen_le_bytes in Hs. exact Hs. }
  unfold binary_value.
  destruct (ftype col); cbn [int_width] in Hw; try discriminate;
    inversion Hw; subst w; clear Hw.
  - (* TINY *)
    cbn [le_bytes app] in *. rewrite idx_app. cbn [bind].
    cbn [le_uint] in Hle. change (Z.of_nat 1) with 1 in *.
    replace (8 * 1) with 8 in * by lia.
    replace (v mod 2 ^ 8 + 256 * 0) with (v mod 2 ^ 8) in Hle by lia.
    change (v mod 2 ^ 8) with (v mod 256) in *.
    rewrite Z.mod_mod by lia. rewrite Hval. reflexivity.
  - unfold binary_int. change (Z.of_nat 2) with 2 in *.
    rewrite Hsub. cbn [bind]. rewrite Hle, Hval. reflexivity.
  - unfold binary_int. change (Z.of_nat 4) with 4 in *.
    rewrite Hsub. cbn [bind]. rewrite Hle, Hval. reflexivity.
  - change (Z.of_nat 8) with 8 in *. change (8 * 8) with 64 in *.
    rewrite Hsub. cbn [bind]. rewrite Hle.
    destruct (is_unsigned col).
    + rewrite Hval. destruct (Z.ltb_spec (2 ^ 63 - 1) v); [lia|reflexivity].
    + rewrite Hval. reflexivity.
  - unfold binary_int. change (Z.of_nat 4) with 4 in *.
    rewrite Hsub. cbn [bind]. rewrite Hle, Hval. reflexivity.
  - unfold binary_int. change (Z.of_nat 2) with 2 in *.
    rewrite Hsub. cbn [bind]. rewrite Hle, Hval. reflexivity.
Qed.

(** ** Instances of the properties above *)

Lemma readPacket_frames_witness :
  let mc := set_sequence (exampleConn [2; 0; 0; 7; 3; 49; 99]) 7 in
  readPacket mc = Some (Ok [3; 49], set_sequence (set_input mc [99]) 8).
Proof.
  intros mc.
  apply (readPacket_frames mc [3; 49] [99]).
  - vm_compute. split; [reflexivity|discriminate].
  - reflexivity.
Defined.

Lemma writePacket_readPacket_loopback_witness :
  let mc := exampleConn [] in
  exists mc',
    writePacket fullWriter mc [0; 0; 0; 0; 3; 49] = Some (Ok tt, mc') /\
    (mc_input (exampleConn [2; 0; 0; 0; 3; 49])
     = concat (skipn (length (mc_sent mc)) (mc_sent mc')) ++ [] ->
     readPacket (exampleConn [2; 0; 0; 0; 3; 49])
     = Some (Ok (skipn 4 [0; 0; 0; 0; 3; 49]),
             set_sequence (set_input (exampleConn [2; 0; 0; 0; 3; 49]) [])
               (mc_sequence mc'))).
Proof.
  intros mc.
  apply (writePacket_readPacket_loopback mc (exampleConn [2; 0; 0; 0; 3; 49])
           [0; 0; 0; 0; 3; 49] []).
  - vm_compute. discriminate.
  - vm_compute. split; [reflexivity|discriminate].
  - vm_compute. discriminate.
  - reflexivity.
Defined.

Lemma readPacket_nonempty_witness : [3; 49] <> [].
Proof.
  apply (readPacket_nonempty (exampleConn [2; 0; 0; 0; 3; 49])
           (set_sequence (set_input (exampleConn [2; 0; 0; 0; 3; 49]) []) 1)
           [3; 49]).
  vm_compute. reflexivity.
Defined.

Lemma readPacket_empty_packet_witness :
  let mc := exampleConn [0; 0; 0; 0] in
  readPacket mc
  = Some (Err ErrInvalidConn,
          Close (logPrint (set_sequence (set_input mc [])
                             ((mc_sequence mc + 1) mod 256)) ErrMalformPkt)).
Proof.
  intros mc. apply (readPacket_empty_packet mc []). reflexivity.
Defined.

Lemma readPacket_short_header_witness :
  let mc := exampleConn [5; 0] in
  readPacket mc
  = Some (match mc_canceled mc with
          | Some cerr => (Err cerr, mc)
          | None => (Err ErrInvalidConn, Close (logPrint mc (mc_readErr mc)))
          end).
Proof.
  intros mc. apply (readPacket_short_header mc). vm_compute. reflexivity.
Defined.

Lemma readUntilEOF_packets_witness :
  let mc := set_sequence (exampleConn twoResultSets) 5 in
  readUntilEOF mc
  = Some (Ok tt,
          set_status
            (set_sequence
               (set_input mc (skipn 15 twoResultSets))
               ((mc_sequence mc + (zlen [[1; 49]] + 1)) mod 256))
            (Z.lor 10 (Z.shiftl 0 8))).
Proof.
  intros mc.
  apply (readUntilEOF_packets mc [[1; 49]] 0 0 10 0 (skipn 15 twoResultSets)).
  - constructor; [|constructor].
    split; [|split]; vm_compute; try discriminate.
    split; reflexivity.
  - reflexivity.
Defined.

Lemma handleErrorPacket_fields_witness :
  let mc := exampleConn [] in
  handleErrorPacket mc [iERR; 0x28; 0x04; 78; 111]
  = (Ok (MySQLError 1064 [0; 0; 0; 0; 0] [78; 111]), mc).
Proof.
  intros mc.
  apply (proj2 (handleErrorPacket_fields mc 0x28 0x04 78 0 0 0 0 0 [111])).
  discriminate.
Defined.

Lemma readPrepareResultPacket_ok_witness :
  let mc := set_sequence
              (exampleConn [12; 0; 0; 1; 0; 7; 0; 0; 0; 1; 0; 2; 0; 0; 0; 0]) 1 in
  readPrepareResultPacket (mkStmt 0 0) mc
  = Some (Ok 1, mkStmt 7 2, set_sequence (set_input mc []) 2).
Proof.
  intros mc.
  apply (readPrepareResultPacket_ok (mkStmt 0 0) mc 7 1 2 [0; 0; 0] []).
  - vm_compute. split; [discriminate|reflexivity].
  - vm_compute. split; [discriminate|reflexivity].
  - vm_compute. split; [discriminate|reflexivity].
  - vm_compute. reflexivity.
  - reflexivity.
Defined.

Lemma readAuthResult_switch_witness :
  let mc := set_sequence (exampleConn [5; 0; 0; 2; 254; 97; 98; 0; 9]) 2 in
  readAuthResult exampleHelpers mc
  = Some (Ok ([9], [97; 98]), set_sequence (set_input mc []) 3).
Proof.
  intros mc.
  apply (readAuthResult_switch exampleHelpers mc [97; 98] [9] []).
  - repeat constructor; discriminate.
  - vm_compute. reflexivity.
  - reflexivity.
Defined.

Lemma buffer_ok_preserved_witness :
  (forall n, buffer_ok (snd (takeBuffer newBuffer n)) /\
             cap (b_buf newBuffer)
             <= cap (b_buf (snd (takeBuffer newBuffer n)))) /\
  (forall buf, buffer_ok (snd (store newBuffer buf)) /\
               cap (b_buf newBuffer)
               <= cap (b_buf (snd (store newBuffer buf)))) /\
  buffer_ok (flip newBuffer).
Proof. apply (buffer_ok_preserved newBuffer). exact buffer_ok_newBuffer. Defined.

Lemma takeBuffer_free_witness :
  exists s,
    fst (takeBuffer newBuffer 5000) = Ok s /\ len s = 5000 /\ 5000 <= cap s /\
    (5000 <= cap (b_buf newBuffer) ->
       arr s = arr (b_buf newBuffer) /\ snd (takeBuffer newBuffer 5000) = newBuffer) /\
    (cap (b_buf newBuffer) < 5000 ->
       s = make 5000 /\
       snd (takeBuffer newBuffer 5000)
       = if 5000 <? maxPacketSize then set_buf newBuffer s else newBuffer).
Proof.
  apply (takeBuffer_free newBuffer 5000).
  - exact buffer_ok_newBuffer.
  - vm_compute. discriminate.
  - vm_compute. discriminate.
Defined.

Lemma binary_value_integer_witness :
  binary_value exampleHelpers false (mkField [] [105] 0 fieldTypeShort 0)
    ([0; 0] ++ le_bytes 2 (-2 mod 2 ^ (8 * Z.of_nat 2)) ++ [7]) (zlen [0; 0])
  = Ok (VInt64 (-2), zlen [0; 0] + Z.of_nat 2).
Proof.
  apply (binary_value_integer exampleHelpers false
           (mkField [] [105] 0 fieldTypeShort 0) 2 (-2) [0; 0] [7]).
  - reflexivity.
  - vm_compute. split; [discriminate|reflexivity].
Defined.

Lemma writePacket_trailing_packet_no_write_witness :
  let data := repeat 0 (Z.to_nat (maxPacketSize + 4)) in
  let mc := mkConn newBuffer 0 (2 ^ 25) 0 0 (mkResult [] []) false false
              false None false [] [] io_EOF [] in
  let net : writer :=
    fun k _ => match k with
               | O => WResult (4 + maxPacketSize) None
               | S _ => WResult 0 (Some (ErrIO 32))
               end in
  writePacket net mc data
  = Some (Err errBadConnNoWrite,
          send (set_sequence (send mc (first_chunk mc data)) 1) [0; 0; 0; 1]).
Proof.
  intros data mc net.
  apply (writePacket_trailing_packet_no_write net mc data (ErrIO 32)).
  - unfold data. rewrite zlen_repeat by (vm_compute; discriminate).
    reflexivity.
  - vm_compute. discriminate.
  - reflexivity.
  - reflexivity.
  - reflexivity.
Defined.

Lemma writePacket_split_sends_whole_witness :
  let data := repeat 0 (Z.to_nat (maxPacketSize + 5)) in
  let mc := mkConn newBuffer 0 (2 ^ 25) 0 0 (mkResult [] []) false false
              false None false [] [] io_EOF [] in
  writePacket fullWriter mc data
  = Some (Err ErrInvalidConn,
          logPrint (cleanup (send mc ([255; 255; 255; mc_sequence mc]
                                      ++ skipn 4 data)))
            ErrMalformPkt).
Proof.
  intros data mc.
  apply (writePacket_split_sends_whole mc data).
  - unfold data. rewrite zlen_repeat by (vm_compute; discriminate).
    vm_compute. reflexivity.
  - unfold data. rewrite zlen_repeat by (vm_compute; discriminate).
    vm_compute. discriminate.
Defined.

(** ** Command packets *)

(** [writePacket] of one small packet to a writer that takes it. *)
Lemma writePacket_one_packet (mc : mysqlConn) (h0 h1 h2 h3 : Z)
  (payload : list Z) :
  zlen payload <= mc_maxAllowedPacket mc ->
  zlen payload < maxPacketSize ->
  exists mc',
    writePacket fullWriter mc (h0 :: h1 :: h2 :: h3 :: payload)
    = Some (Ok tt, mc') /\
    mc_sent mc' = mc_sent mc ++ [frame (mc_sequence mc) payload] /\
    mc_sequence mc' = (mc_sequence mc + 1) mod 256 /\
    mc_closed mc' = mc_closed mc.
Proof.
  intros Hmax Hsmall.
  pose proof (zlen_nonneg payload) as Hp.
  destruct (writePacket_full_writer mc (h0 :: h1 :: h2 :: h3 :: payload))
    as (mc' & Hw & Hsent & Hseq & Hcl).
  - rewrite !zlen_cons. lia.
  - rewrite !zlen_cons. lia.
  - rewrite !zlen_cons. lia.
  - exists mc'. cbn [skipn] in Hsent, Hseq. unfold wire_frames in Hsent.
    destruct (Z.ltb_spec (zlen payload) maxPacketSize); [|lia].
    repeat split; assumption.
Qed.

(** X16.  [writeCommandPacket] and [writeCommandPacketUint32] to a
    writer that takes everything: one packet with sequence number 0,
    whatever the sequence number was, holding the command byte, and for
    the second the argument in 4 bytes little-endian; the sequence number
    is 1 afterwards. *)
Theorem writeCommandPacket_sends (mc : mysqlConn) (scratch : list Z)
  (command arg : Z) :
  9 <= zlen scratch ->
  5 <= mc_maxAllowedPacket mc ->
  (exists mc',
     writeCommandPacket fullWriter mc scratch command = Some (Ok tt, mc') /\
     mc_sent mc' = mc_sent mc ++ [[1; 0; 0; 0; command]] /\
     mc_sequence mc' = 1) /\
  (exists mc',
     writeCommandPacketUint32 fullWriter mc scratch command arg
     = Some (Ok tt, mc') /\
     mc_sent mc'
     = mc_sent mc ++ [[5; 0; 0; 0; command; arg mod 256;
                       Z.shiftr arg 8 mod 256; Z.shiftr arg 16 mod 256;
                       Z.shiftr arg 24 mod 256]] /\
     mc_sequence mc' = 1).
Proof.
  intros Hs Hmax.
  do 9 (destruct scratch as [|? scratch];
        [unfold zlen in Hs; cbn in Hs; lia|]).
  pose proof (zlen_nonneg scratch) as Hr.
  split.
  - unfold writeCommandPacket, upd, sub. crunch3.
    destruct (writePacket_one_packet (set_sequence mc 0) z z0 z1 z2 [command])
      as (mc' & Hw & Hsent & Hseq & _).
    + cbn. lia.
    + vm_compute. reflexivity.
    + exists mc'. repeat split; assumption.
  - unfold writeCommandPacketUint32, upd, sub.
    set (a0 := arg mod 256). set (a1 := Z.shiftr arg 8 mod 256).
    set (a2 := Z.shiftr arg 16 mod 256). set (a3 := Z.shiftr arg 24 mod 256).
    crunch3.
    destruct (writePacket_one_packet (set_sequence mc 0) z z0 z1 z2
                [command; a0; a1; a2; a3])
      as (mc' & Hw & Hsent & Hseq & _).
    + cbn. lia.
    + vm_compute. reflexivity.
    + exists mc'. repeat split; assumption.
Qed.

(** [takeBuffer] on a free buffer: a slice of the asked length within its
    capacity. *)
Lemma takeBuffer_free_slice (b : buffer) (n : Z) :
  b_length b <= 0 -> 0 <= n ->
  exists s b', takeBuffer b n = (Ok s, b') /\ len s = n /\ n <= cap s.
Proof.
  intros Hfree Hn. unfold takeBuffer.
  destruct (Z.ltb_spec 0 (b_length b)); [lia|].
  destruct (Z.leb_spec n (cap (b_buf b))).
  - unfold slice_to.
    destruct (Z.leb_spec 0 n); [|lia].
    destruct (Z.leb_spec n (cap (b_buf b))); [|lia].
    eexists; eexists. split; [reflexivity|]. cbn [len]. split; [lia|].
    unfold cap in *. cbn [arr]. lia.
  - exists (make n).
    destruct (n <? maxPacketSize); eexists; (split; [reflexivity|]);
      rewrite cap_make by lia; cbn [make len]; lia.
Qed.

(** The command byte and the argument written after the four header
    cells of a slice that is exactly long enough. *)
Lemma command_str_cells (s : slice) (command : Z) (arg : list Z) :
  len s = 5 + zlen arg -> len s <= cap s ->
  exists c0 c1 c2 c3 d,
    (d <- sset s 4 command ;; copy_to d 5 arg) = Ok d /\
    elems d = c0 :: c1 :: c2 :: c3 :: command :: arg.
Proof.
  destruct s as [a n]. unfold cap. cbn [len arr]. intros -> Hc.
  pose proof (zlen_nonneg arg) as Ha.
  do 5 (destruct a as [|? a];
        [rewrite ?zlen_cons in Hc; change (zlen (@nil Z)) with 0 in Hc; lia|]).
  rewrite !zlen_cons in Hc.
  exists z, z0, z1, z2. eexists.
  unfold sset, upd. cbn [len arr].
  destruct (Z.leb_spec 0 4); [|lia].
  destruct (Z.ltb_spec 4 (5 + zlen arg)); [|lia].
  destruct (Z.ltb_spec 4 0); [lia|].
  change (Z.to_nat 4) with 4%nat. cbn [andb upd_nat bind].
  unfold copy_to. cbn [len arr].
  destruct (Z.leb_spec 0 5); [|lia].
  destruct (Z.leb_spec 5 (5 + zlen arg)); [|lia].
  cbn [andb]. split; [reflexivity|].
  unfold elems, write_at. cbn [len arr].
  replace (5 + zlen arg - 5) with (zlen arg) by lia.
  rewrite Z.min_id. unfold zlen at 2. rewrite Nat2Z.id, firstn_all.
  replace (Z.to_nat (5 + zlen arg)) with (5 + length arg)%nat
    by (unfold zlen; lia).
  change (Z.to_nat 5) with 5%nat. cbn [firstn app Nat.add]. do 5 f_equal.
  rewrite firstn_app, firstn_all, Nat.sub_diag. cbn [firstn].
  apply app_nil_r.
Qed.

(** X17.  [writeCommandPacketStr] on a free buffer, to a writer that
    takes everything: one packet with sequence number 0 whose payload is
    the command byte and the bytes of the argument, for an argument of
    any length under [maxPacketSize] that the server allows; the
    sequence number is 1 afterwards. *)
Theorem writeCommandPacketStr_sends (mc : mysqlConn) (command : Z)
  (arg : list Z) :
  b_length (mc_buf mc) <= 0 ->
  1 + zlen arg <= mc_maxAllowedPacket mc ->
  1 + zlen arg < maxPacketSize ->
  exists mc',
    writeCommandPacketStr fullWriter mc command arg = Some (Ok tt, mc') /\
    mc_sent mc' = mc_sent mc ++ [frame 0 (command :: arg)] /\
    mc_sequence mc' = 1.
Proof.
  intros Hfree Hmax Hsmall. pose proof (zlen_nonneg arg) as Ha.
  unfold writeCommandPacketStr.
  destruct (takeBuffer_free_slice (mc_buf (set_sequence mc 0))
              (1 + zlen arg + 4)) as (s & b' & Ht & Hlen & Hcap);
    [exact Hfree | lia |].
  rewrite Ht.
  destruct (command_str_cells s command arg) as (c0 & c1 & c2 & c3 & d & Hd & He);
    [lia | lia |].
  rewrite Hd, He.
  destruct (writePacket_one_packet (set_mcbuf (set_sequence mc 0) b')
              c0 c1 c2 c3 (command :: arg))
    as (mc' & Hw & Hsent & Hseq & _).
  - rewrite zlen_cons. cbn. lia.
  - rewrite zlen_cons. lia.
  - exists mc'. repeat split; assumption.
Qed.

(** X18.  [writeAuthSwitchPacket] on a free buffer: auth data that fits
    the buffer with the header goes out as one packet under the current
    sequence number, which is not reset; auth data that does not fit
    makes [takeSmallBuffer] slice beyond the capacity, a panic, and
    nothing is sent. *)
Theorem writeAuthSwitchPacket_sends (mc : mysqlConn) (authData : list Z) :
  b_length (mc_buf mc) <= 0 ->
  zlen authData <= mc_maxAllowedPacket mc ->
  zlen authData < maxPacketSize ->
  (4 + zlen authData <= cap (b_buf (mc_buf mc)) ->
   exists mc',
     writeAuthSwitchPacket fullWriter mc authData = Some (Ok tt, mc') /\
     mc_sent mc' = mc_sent mc ++ [frame (mc_sequence mc) authData] /\
     mc_sequence mc' = (mc_sequence mc + 1) mod 256) /\
  (cap (b_buf (mc_buf mc)) < 4 + zlen authData ->
   writeAuthSwitchPacket fullWriter mc authData = Some (Panic, mc)).
Proof.
  intros Hfree Hmax Hsmall. pose proof (zlen_nonneg authData) as Ha.
  unfold writeAuthSwitchPacket, takeSmallBuffer, slice_to.
  destruct (Z.ltb_spec 0 (b_length (mc_buf mc))); [lia|].
  destruct (Z.leb_spec 0 (4 + zlen authData)); [|lia].
  split; intros Hc.
  - destruct (Z.leb_spec (4 + zlen authData) (cap (b_buf (mc_buf mc)))); [|lia].
    cbn [andb]. unfold copy_to. cbn [len arr].
    destruct (Z.leb_spec 0 4); [|lia].
    destruct (Z.leb_spec 4 (4 + zlen authData)); [|lia].
    cbn [andb]. unfold elems, write_at. cbn [len arr].
    unfold cap in Hc.
    destruct (arr (b_buf (mc_buf mc))) as [|c0 [|c1 [|c2 [|c3 a]]]];
      try (rewrite ?zlen_cons in Hc; change (zlen (@nil Z)) with 0 in Hc; lia).
    replace (4 + zlen authData - 4) with (zlen authData) by lia.
    rewrite Z.min_id. unfold zlen at 2. rewrite Nat2Z.id, firstn_all.
    replace (Z.to_nat (4 + zlen authData)) with (4 + length authData)%nat
      by (unfold zlen; lia).
    change (Z.to_nat 4) with 4%nat. cbn [firstn app Nat.add].
    rewrite firstn_app, firstn_all, Nat.sub_diag. cbn [firstn].
    rewrite app_nil_r.
    destruct (writePacket_one_packet mc c0 c1 c2 c3 authData)
      as (mc' & Hw & Hsent & Hseq & _); [lia | lia |].
    exists mc'. repeat split; assumption.
  - destruct (Z.leb_spec (4 + zlen authData) (cap (b_buf (mc_buf mc)))); [lia|].
    reflexivity.
Qed.

(** X19.  [writeExecutePacket] for a statement without parameters, on a
    free buffer, to a writer that takes everything: one packet with
    sequence number 0 and the 10 bytes command, statement id, flags 0,
    iteration count 1. *)
Theorem writeExecutePacket_no_args (U : helpers) (stmt : mysqlStmt)
  (mc : mysqlConn) :
  paramCount stmt = 0 ->
  b_length (mc_buf mc) <= 0 ->
  10 <= mc_maxAllowedPacket mc ->
  exists mc',
    writeExecutePacket fullWriter U stmt mc [] = Some (Ok tt, mc') /\
    mc_sent mc'
    = mc_sent mc ++
      [[10; 0; 0; 0; comStmtExecute; stmt_id stmt mod 256;
        Z.shiftr (stmt_id stmt) 8 mod 256; Z.shiftr (stmt_id stmt) 16 mod 256;
        Z.shiftr (stmt_id stmt) 24 mod 256; 0; 1; 0; 0; 0]] /\
    mc_sequence mc' = 1.
Proof.
  intros Hp Hfree Hmax. unfold writeExecutePacket. rewrite Hp.
  change (negb (zlen (@nil value) =? 0)) with false. cbv beta iota.
  destruct (takeBuffer_free_slice (mc_buf (set_sequence mc 0))
              (4 + 1 + 4 + 1 + 4)) as (s & b' & Ht & Hlen & Hcap);
    [exact Hfree | lia |].
  cbv zeta. rewrite Ht. destruct s as [a n]. cbn [len] in Hlen. subst n.
  unfold cap in Hcap. cbn [arr] in Hcap.
  do 14 (destruct a as [|? a];
         [rewrite ?zlen_cons in Hcap; change (zlen (@nil Z)) with 0 in Hcap;
          lia|]).
  change (4 + 1 + 4 + 1 + 4) with 14.
  rewrite exec_head_cells by lia.
  unfold elems. cbn [len arr]. change (Z.to_nat 14) with 14%nat.
  cbn [firstn].
  match goal with
  | |- context [writePacket _ ?m (?c0 :: ?c1 :: ?c2 :: ?c3 :: ?p)] =>
      destruct (writePacket_one_packet m c0 c1 c2 c3 p)
        as (mc' & Hw & Hsent & Hseq & _)
  end.
  - cbn. lia.
  - vm_compute. reflexivity.
  - exists mc'. repeat split; assumption.
Qed.

(** ** Long data *)

Lemma chunks_fuel_enough (size : nat) :
  (0 < size)%nat ->
  forall (fuel : nat) (l : list Z),
  (length l <= fuel)%nat -> chunks_fuel fuel size l = chunks size l.
Proof.
  intros Hs. unfold chunks.
  assert (H : forall n fuel l, (length l <= n)%nat -> (n <= fuel)%nat ->
              chunks_fuel fuel size l = chunks_fuel n size l).
  { induction n as [|n IH]; intros fuel l Hl Hf.
    - destruct l; [|cbn in Hl; lia]. destruct fuel; reflexivity.
    - destruct fuel as [|fuel]; [lia|].
      destruct l as [|x l]; [reflexivity|].
      cbn [chunks_fuel]. f_equal. apply IH; [|lia].
      rewrite length_skipn. cbn [length] in *. lia. }
  intros fuel l Hl. apply H; [lia | exact Hl].
Qed.

Lemma chunks_cons (size : nat) (l : list Z) :
  (0 < size)%nat -> l <> [] ->
  chunks size l = firstn size l :: chunks size (skipn size l).
Proof.
  intros Hs Hl. destruct l as [|x l]; [congruence|].
  unfold chunks at 1. cbn [length chunks_fuel]. f_equal.
  apply chunks_fuel_enough; [exact Hs|].
  rewrite length_skipn. cbn [length]. lia.
Qed.

(** [writePacket] of one small packet to a writer that takes it all. *)
Lemma writePacket_one_exact (mc : mysqlConn) (h0 h1 h2 h3 : Z)
  (payload : list Z) :
  zlen payload <= mc_maxAllowedPacket mc ->
  zlen payload < maxPacketSize ->
  writePacket fullWriter mc (h0 :: h1 :: h2 :: h3 :: payload)
  = Some (Ok tt, set_sequence (send mc (frame (mc_sequence mc) payload))
                   ((mc_sequence mc + 1) mod 256)).
Proof.
  intros Hmax Hsmall. pose proof (zlen_nonneg payload) as Hp.
  set (data := h0 :: h1 :: h2 :: h3 :: payload).
  assert (Hd : zlen data - 4 = zlen payload)
    by (unfold data; rewrite !zlen_cons; lia).
  unfold writePacket. rewrite Hd.
  destruct (Z.ltb_spec (mc_maxAllowedPacket mc) (zlen payload)); [lia|].
  cbn [writePacket_loop]. rewrite <- Hd.
  rewrite (writePacket_turn_first fullWriter mc data) by lia.
  cbv zeta. unfold fullWriter at 1.
  rewrite (zlen_first_chunk mc data) by lia. rewrite Hd.
  destruct (Z.leb_spec maxPacketSize (zlen payload)); [lia|].
  replace (zlen data =? 4 + zlen payload) with true
    by (symmetry; apply Z.eqb_eq; lia).
  destruct (Z.eqb_spec (zlen payload) maxPacketSize); [lia|].
  cbn [negb]. unfold first_chunk, frame. rewrite Hd.
  destruct (Z.leb_spec maxPacketSize (zlen payload)); [lia|].
  reflexivity.
Qed.

Lemma firstn_skipn_pre (pre rem : list Z) (c : nat) :
  length pre = 11%nat -> (c <= length rem)%nat ->
  exists pre', length pre' = 11%nat /\
               skipn c (pre ++ rem) = pre' ++ skipn c rem.
Proof.
  intros Hp Hc. exists (firstn 11 (skipn c (pre ++ rem))). split.
  - rewrite length_firstn, length_skipn, length_app. lia.
  - rewrite <- (firstn_skipn 11 (skipn c (pre ++ rem))) at 1. f_equal.
    rewrite skipn_skipn, skipn_app.
    rewrite skipn_all2 by lia. cbn [app]. f_equal. lia.
Qed.

Lemma writeCommandLongData_loop_chunks (stmt : mysqlStmt) (paramID maxLen : Z) :
  7 < maxLen -> maxLen < maxPacketSize ->
  forall (fuel : nat) (rem pre : list Z) (pktLen : Z) (mc : mysqlConn),
  (length rem < fuel)%nat ->
  length pre = 11%nat ->
  pktLen = maxLen \/ rem = [] ->
  mc_maxAllowedPacket mc = maxLen + 1 ->
  exists mc',
    writeCommandLongData_loop fullWriter fuel stmt paramID maxLen (zlen rem)
      pktLen (pre ++ rem) mc = Some (Ok tt, mc') /\
    mc_sent mc'
    = mc_sent mc ++
      map (fun c => frame 0 (longDataHead stmt paramID ++ c))
          (chunks (Z.to_nat (maxLen - 7)) rem) /\
    mc_sequence mc' = 0.
Proof.
  intros H7 Hbig. induction fuel as [|fuel IH];
    intros rem pre pktLen mc Hf Hpre Hpk Hmax; [lia|].
  cbn [writeCommandLongData_loop].
  destruct rem as [|x rem'] eqn:Erem.
  - change (zlen (@nil Z)) with 0. change (0 <? 0) with false. cbv iota.
    eexists. split; [reflexivity|]. split; [|reflexivity].
    cbn. rewrite app_nil_r. reflexivity.
  - rewrite <- Erem in *. assert (Hne : rem <> []) by (rewrite Erem; discriminate).
    clear Erem x rem'.
    assert (Hlen : 0 < zlen rem).
    { destruct rem; [congruence|]. rewrite zlen_cons.
      pose proof (zlen_nonneg rem). lia. }
    destruct (Z.ltb_spec 0 (zlen rem)); [|lia].
    destruct Hpk as [-> | ->]; [|congruence].
    unfold writeCommandLongData_turn.
    set (pk := if 1 + 4 + 2 + zlen rem <? maxLen then 1 + 4 + 2 + zlen rem
               else maxLen).
    set (c := Z.to_nat (pk - 7)).
    assert (Hc : (c <= length rem)%nat /\ (0 < c)%nat /\ 7 < pk <= maxLen /\
                 pk - 7 = Z.of_nat c /\
                 firstn c rem = firstn (Z.to_nat (maxLen - 7)) rem /\
                 skipn c rem = skipn (Z.to_nat (maxLen - 7)) rem).
    { unfold c, pk. unfold zlen in *.
      destruct (Z.ltb_spec (1 + 4 + 2 + Z.of_nat (length rem)) maxLen).
      - replace (Z.to_nat (1 + 4 + 2 + Z.of_nat (length rem) - 7))
          with (length rem) by lia.
        repeat split; try lia.
        + rewrite firstn_all. symmetry. apply firstn_all2. lia.
        + rewrite skipn_all. symmetry. apply skipn_all2. lia.
      - repeat split; try lia. }
    destruct Hc as (Hc1 & Hc0 & Hpk & Hpkc & Hfn & Hsk).
    do 11 (destruct pre as [|? pre]; [cbn in Hpre; lia|]).
    destruct pre; [|cbn in Hpre; lia]. clear Hpre.
    cbn [app]. unfold upd. crunch3.
    match goal with
    | |- context [sub (?a :: ?b :: ?c0 :: ?d0 :: ?t) 0 (4 + pk)] =>
        set (hd4 := [a; b; c0; d0]);
        change (a :: b :: c0 :: d0 :: t)
          with (hd4 ++ longDataHead stmt paramID ++ rem)
    end.
    assert (Hsub : sub (hd4 ++ longDataHead stmt paramID ++ rem) 0 (4 + pk)
                   = Ok (hd4 ++ longDataHead stmt paramID ++ firstn c rem)).
    { unfold sub. rewrite !zlen_app. change (zlen hd4) with 4.
      change (zlen (longDataHead stmt paramID)) with 7.
      assert (Hz : Z.of_nat c <= zlen rem) by (unfold zlen; lia).
      destruct (Z.leb_spec 0 0); [|lia].
      destruct (Z.leb_spec 0 (4 + pk)); [|lia].
      destruct (Z.leb_spec (4 + pk) (4 + (7 + zlen rem))); [|lia].
      cbn [andb]. change (Z.to_nat 0) with 0%nat. cbn [skipn].
      replace (Z.to_nat (4 + pk - 0)) with (11 + c)%nat by lia.
      rewrite app_assoc.
      rewrite firstn_app.
      change (length (hd4 ++ longDataHead stmt paramID)) with 11%nat.
      rewrite firstn_all2 by (cbn; lia).
      replace (11 + c - 11)%nat with c by lia.
      rewrite <- app_assoc. reflexivity. }
    rewrite Hsub. cbn [bind].
    change (hd4 ++ longDataHead stmt paramID ++ firstn c rem)
      with (z :: z0 :: z1 :: z2 :: longDataHead stmt paramID ++ firstn c rem).
    rewrite writePacket_one_exact.
    2:{ change (mc_maxAllowedPacket (set_sequence mc 0))
          with (mc_maxAllowedPacket mc). rewrite Hmax, zlen_app.
        change (zlen (longDataHead stmt paramID)) with 7.
        unfold zlen. rewrite length_firstn. lia. }
    2:{ rewrite zlen_app. change (zlen (longDataHead stmt paramID)) with 7.
        unfold zlen. rewrite length_firstn. lia. }
    destruct (firstn_skipn_pre (hd4 ++ longDataHead stmt paramID) rem c)
      as (pre' & Hpre' & Hskip); [reflexivity | exact Hc1 |].
    assert (Hfrom : from (hd4 ++ longDataHead stmt paramID ++ rem) (pk - 7)
                    = Ok (pre' ++ skipn c rem)).
    { unfold from. rewrite !zlen_app. change (zlen hd4) with 4.
      change (zlen (longDataHead stmt paramID)) with 7.
      assert (Hz : Z.of_nat c <= zlen rem) by (unfold zlen; lia).
      destruct (Z.leb_spec 0 (pk - 7)); [|lia].
      destruct (Z.leb_spec (pk - 7) (4 + (7 + zlen rem))); [|lia].
      cbn [andb]. fold c. rewrite app_assoc. rewrite Hskip. reflexivity. }
    rewrite Hfrom.
    replace (zlen rem - (pk - 7)) with (zlen (skipn c rem))
      by (unfold zlen; rewrite length_skipn; lia).
    match goal with
    | |- context [writeCommandLongData_loop _ _ _ _ _ _ _ _ ?m] =>
        destruct (IH (skipn c rem) pre' pk m) as (mc' & Hl & Hsent & Hseq)
    end.
    + rewrite length_skipn. lia.
    + exact Hpre'.
    + unfold pk in *. unfold c.
      destruct (Z.ltb_spec (1 + 4 + 2 + zlen rem) maxLen); [right|left; reflexivity].
      apply skipn_all2. unfold zlen. lia.
    + exact Hmax.
    + exists mc'. split; [exact Hl|]. split; [|exact Hseq].
      rewrite Hsent. cbn [mc_sent set_sequence send mc_sequence].
      rewrite <- app_assoc. f_equal.
      rewrite (chunks_cons (Z.to_nat (maxLen - 7)) rem) by (try lia; exact Hne).
      cbn [map app]. rewrite <- Hfn, <- Hsk. reflexivity.
Qed.

(** X20.  [writeCommandLongData] to a writer that takes everything, for
    [maxAllowedPacket] between 9 and [maxPacketSize]: the argument goes
    out in pieces of [maxAllowedPacket - 8] bytes, the last one shorter
    when it does not divide; every piece is a packet of its own with
    sequence number 0 and the head command, statement id, parameter id;
    an empty argument sends nothing; the sequence number is 0
    afterwards. *)
Theorem writeCommandLongData_chunks (stmt : mysqlStmt) (mc : mysqlConn)
  (paramID : Z) (arg : list Z) :
  9 <= mc_maxAllowedPacket mc <= maxPacketSize ->
  exists mc',
    writeCommandLongData fullWriter stmt mc paramID arg = Some (Ok tt, mc') /\
    mc_sent mc'
    = mc_sent mc ++
      map (fun c => frame 0 (longDataHead stmt paramID ++ c))
          (chunks (Z.to_nat (mc_maxAllowedPacket mc - 8)) arg) /\
    mc_sequence mc' = 0.
Proof.
  intros Hmax. unfold writeCommandLongData. cbv zeta.
  destruct (writeCommandLongData_loop_chunks stmt paramID
              (mc_maxAllowedPacket mc - 1) ltac:(lia) ltac:(lia)
              (S (length arg)) arg (repeat 0 (4 + 1 + 4 + 2))
              (mc_maxAllowedPacket mc - 1) mc)
    as (mc' & Hl & Hsent & Hseq).
  - lia.
  - reflexivity.
  - left; reflexivity.
  - lia.
  - exists mc'. split; [exact Hl|]. split; [|exact Hseq].
    rewrite Hsent.
    replace (mc_maxAllowedPacket mc - 1 - 7) with (mc_maxAllowedPacket mc - 8)
      by lia.
    reflexivity.
Qed.

(** ** The byte buffer *)

Lemma elems_write_at (a got : list Z) (l : nat) :
  (l <= length a)%nat ->
  firstn (l + length got) (write_at a (Z.of_nat l) got) = firstn l a ++ got.
Proof.
  intros Hl. unfold write_at. rewrite Nat2Z.id.
  rewrite app_assoc, firstn_app.
  rewrite length_app, length_firstn, Nat.min_l by exact Hl.
  rewrite Nat.sub_diag. cbn [firstn]. rewrite app_nil_r.
  apply firstn_all2. rewrite length_app, length_firstn. lia.
Qed.

(** X21.  [buffer.readN]: the buffer grows by [n] whether the reader
    gives all [n] bytes or fewer with an error; the bytes it had stay; the
    bytes read follow them. *)
Theorem buffer_readN_appends (U : helpers) (b : slice) (r : reader) (n : Z)
  (got : list Z) (err : option error) :
  0 <= len b <= cap b -> 0 <= n ->
  r n = (got, err) -> zlen got <= n ->
  exists b',
    buffer_readN U b r n = Ok (err, b') /\
    firstn (Z.to_nat (len b) + length got) (elems b') = elems b ++ got /\
    buffer_len b' = buffer_len b + n.
Proof.
  intros Hb Hn Hr Hg. unfold buffer_readN, buffer_len. cbv zeta.
  assert (Hfit : forall (a : list Z) (k : Z), len b + n <= zlen a ->
            firstn (Z.to_nat (len b)) a = elems b ->
            exists b',
              (b2 <- slice_to (mkSlice a k) (len b + n) ;;
               (if (0 <=? len b) && (len b <=? len b + n)
                then let '(got, err) := r n in
                     Ok (err, mkSlice (write_at (arr b2) (len b) got) (len b2))
                else Panic)) = Ok (err, b') /\
              firstn (Z.to_nat (len b) + length got) (elems b')
              = elems b ++ got /\ len b' = len b + n).
  { intros a k Ha Hpre. unfold slice_to, cap. cbn [arr].
    destruct (Z.leb_spec 0 (len b + n)); [|lia].
    destruct (Z.leb_spec (len b + n) (zlen a)); [|lia].
    destruct (Z.leb_spec 0 (len b)); [|lia].
    destruct (Z.leb_spec (len b) (len b + n)); [|lia].
    cbn [andb bind]. rewrite Hr. eexists. split; [reflexivity|].
    cbn [len arr]. split; [|reflexivity].
    unfold elems at 1. cbn [len arr].
    rewrite firstn_firstn, Nat.min_l by (unfold zlen in Hg; lia).
    rewrite <- (Z2Nat.id (len b)) at 2 by lia.
    rewrite elems_write_at by (unfold zlen in Ha; lia).
    rewrite Hpre. reflexivity. }
  destruct (Z.ltb_spec (cap b) (len b + n)) as [Hgrow|Hkeep].
  - destruct (Z.leb_spec 0 n); [|lia]. cbn [bind].
    unfold append_slice. rewrite zlen_repeat by lia. cbv zeta.
    destruct (Z.leb_spec (len b + n) (cap b)); [lia|].
    match goal with
    | |- context [slice_to (mkSlice ?a ?k) _] =>
        destruct (Hfit a k) as (b' & Hb' & He & Hl)
    end.
    + rewrite !zlen_app, !zlen_repeat by lia.
      unfold elems, zlen. rewrite length_firstn.
      unfold cap, zlen in Hb. lia.
    + rewrite firstn_app.
      assert (He : length (elems b) = Z.to_nat (len b)).
      { unfold elems. rewrite length_firstn. unfold cap, zlen in Hb. lia. }
      rewrite He, Nat.sub_diag. cbn [firstn]. rewrite app_nil_r.
      apply firstn_all2. lia.
    + exists b'. repeat split; assumption.
  - cbn [bind]. destruct b as [a k]. cbn [len] in *.
    destruct (Hfit a k) as (b' & Hb' & He & Hl).
    + unfold cap in Hkeep. cbn [arr] in Hkeep. lia.
    + reflexivity.
    + exists b'. repeat split; assumption.
Qed.

(** ** The next result set *)




(** ** The end of the rows *)

(** X23.  Both row readers on the EOF packet that ends the rows: the
    status is taken from its last two bytes, the result set is done, the
    rows stay attached exactly when the status has
    [MORE_RESULTS_EXISTS], and [io.EOF] is returned. *)
Theorem readRow_end_of_rows (U : helpers) (rows : mysqlRows) (mc : mysqlConn) (ndest : nat)
  (w0 w1 s0 s1 : Z) (rest : list Z) :
  attached rows = true ->
  done (rs rows) = false ->
  mc_input mc = frame (mc_sequence mc) [iEOF; w0; w1; s0; s1] ++ rest ->
  let status := Z.lor s0 (Z.shiftl s1 8) in
  let more := negb (Z.land status statusMoreResultsExists =? 0) in
  let rows' := mkRows more (mkResultSet (columns (rs rows)) true) in
  let mc' := set_status (set_sequence (set_input mc rest)
                           ((mc_sequence mc + 1) mod 256)) status in
  textRows_readRow U rows mc ndest = Some (Err io_EOF, rows', mc') /\
  binaryRows_readRow U rows mc ndest = Some (Err io_EOF, rows', mc').
Proof.
  intros Ha Hd Hin status more rows' mc'.
  assert (Hp : one_packet [iEOF; w0; w1; s0; s1])
    by (split; vm_compute; reflexivity).
  unfold textRows_readRow, binaryRows_readRow. rewrite Hd.
  rewrite (readPacket_one mc _ rest Hp Hin).
  change (idx [iEOF; w0; w1; s0; s1] 0) with (Ok iEOF).
  change (negb (iEOF =? iOK)) with true.
  change ((iEOF =? iEOF) && (zlen [iEOF; w0; w1; s0; s1] =? 5)) with true.
  cbv beta iota.
  change (s <- from [iEOF; w0; w1; s0; s1] 3 ;; readStatus s)
    with (Ok status).
  cbv beta iota zeta. fold mc'.
  unfold HasNextResultSet, set_done. cbn [attached]. rewrite Ha. cbn [negb].
  change (mc_status mc') with status. fold more.
  unfold rows', detach. cbn [rs attached].
  destruct more; split; reflexivity.
Qed.

(** X24.  Both row readers on an ERR packet: the rows are detached from
    the connection and the error of [handleErrorPacket] is returned. *)
Theorem readRow_error_packet (U : helpers) (rows : mysqlRows) (mc : mysqlConn) (ndest : nat)
  (body rest : list Z) (e : error) (mc2 : mysqlConn) :
  done (rs rows) = false ->
  one_packet (iERR :: body) ->
  mc_input mc = frame (mc_sequence mc) (iERR :: body) ++ rest ->
  handleErrorPacket
    (set_sequence (set_input mc rest) ((mc_sequence mc + 1) mod 256))
    (iERR :: body) = (Ok e, mc2) ->
  textRows_readRow U rows mc ndest = Some (Err e, detach rows, mc2) /\
  binaryRows_readRow U rows mc ndest = Some (Err e, detach rows, mc2).
Proof.
  intros Hd Hp Hin He.
  unfold textRows_readRow, binaryRows_readRow. rewrite Hd.
  rewrite (readPacket_one mc _ rest Hp Hin).
  change (idx (iERR :: body) 0) with (Ok iERR).
  change (negb (iERR =? iOK)) with true.
  change (iERR =? iEOF) with false.
  change (iERR =? iERR) with true.
  cbv beta iota. cbn [andb]. rewrite He. split; reflexivity.
Qed.

(** ** What the packet codec leaves behind *)

Lemma readPacket_turn_outcome (prev : list Z) (mc : mysqlConn) :
  match readPacket_turn prev mc with
  | Return r mc' => read_outcome r mc'
  | Again _ _ => True
  end.
Proof.
  assert (Hclosed : forall m e,
            e = ErrInvalidConn \/ e = ErrPktSync \/ e = ErrPktSyncMul ->
            read_outcome (Err e) (Close m)).
  { intros m e He. split; [discriminate|]. intros e' [= <-]. right.
    split; [reflexivity|exact He]. }
  assert (Hok : forall d m, read_outcome (Ok d) m).
  { intros d m. split; discriminate. }
  unfold readPacket_turn, readPacket_payload, readNext.
  destruct ((0 <=? 4) && (4 <=? zlen (mc_input mc))).
  - destruct (negb _).
    + destruct (_ <? _); apply Hclosed; auto.
    + destruct (_ =? 0).
      * destruct prev; [apply Hclosed; auto|apply Hok].
      * match goal with
        | |- context [if ?c then (Ok ?a, ?m1) else (Err ?e, ?m2)] =>
            destruct c
        end.
        -- destruct (_ <? maxPacketSize); [|exact I].
           destruct prev; apply Hok.
        -- match goal with
           | |- context [mc_canceled ?m] => destruct (mc_canceled m) eqn:Ec
           end.
           ++ split; [discriminate|]. intros e' [= <-]. left. exact Ec.
           ++ apply Hclosed; auto.
  - destruct (mc_canceled mc) eqn:Ec.
    + split; [discriminate|]. intros e' [= <-]. left. exact Ec.
    + apply Hclosed; auto.
Qed.

Lemma readPacket_loop_outcome (fuel : nat) :
  forall (prev : list Z) (mc : mysqlConn) r mc',
  readPacket_loop fuel prev mc = Some (r, mc') -> read_outcome r mc'.
Proof.
  induction fuel as [|fuel IH]; intros prev mc r mc' H; [discriminate|].
  cbn [readPacket_loop] in H.
  pose proof (readPacket_turn_outcome prev mc) as Ht.
  destruct (readPacket_turn prev mc) as [r1 mc1|p mc1].
  - injection H as <- <-. exact Ht.
  - exact (IH p mc1 r mc' H).
Qed.

(** X25.  [readPacket] returns and does not panic; an error it returns
    is the pending cancellation, or else one of [ErrInvalidConn],
    [ErrPktSync], [ErrPktSyncMul] with the connection closed. *)
Theorem readPacket_error_closes (mc : mysqlConn) :
  exists r mc',
    readPacket mc = Some (r, mc') /\
    r <> Panic /\
    forall e, r = Err e ->
      mc_canceled mc' = Some e \/
      (isBroken mc' = true /\
       (e = ErrInvalidConn \/ e = ErrPktSync \/ e = ErrPktSyncMul)).
Proof.
  destruct (readPacket_total mc) as (r & mc' & E & _).
  exists r, mc'. split; [exact E|].
  exact (readPacket_loop_outcome _ _ _ _ _ E).
Qed.

Lemma writePacket_loop_outcome (net : writer) (fuel : nat) :
  forall (data : list Z) (mc : mysqlConn),
  4 <= zlen data ->
  (zlen data - 4) / maxPacketSize < Z.of_nat fuel ->
  exists r mc',
    writePacket_loop net fuel (zlen data - 4) data mc = Some (r, mc') /\
    write_outcome r mc'.
Proof.
  induction fuel as [|fuel IH]; intros data mc H4 Hf.
  { pose proof (Z.div_pos (zlen data - 4) maxPacketSize).
    rewrite maxPacketSize_value in *. lia. }
  cbn [writePacket_loop].
  rewrite (writePacket_turn_first net mc data H4). cbv zeta.
  pose proof (zlen_first_chunk mc data H4) as Hfc.
  set (fc := first_chunk mc data) in *.
  assert (Hinv : forall m, write_outcome (Err ErrInvalidConn) m).
  { intros m. split; [discriminate|]. intros e [= <-]. auto. }
  destruct (net (length (mc_sent mc)) fc) as [| |n err].
  - eexists _, _. split; [reflexivity|apply Hinv].
  - eexists _, _. split; [reflexivity|apply Hinv].
  - destruct err as [err|].
    + change (mc_canceled (send mc fc)) with (mc_canceled mc).
      destruct (mc_canceled mc) as [cerr|] eqn:Ec.
      * eexists _, _. split; [reflexivity|]. split; [discriminate|].
        intros e [= <-]. right. right. exact Ec.
      * destruct (_ && _); eexists _, _; (split; [reflexivity|]);
          [|apply Hinv].
        split; [discriminate|]. intros e [= <-]. auto.
    + destruct (n =? _); [|eexists _, _; split; [reflexivity|apply Hinv]].
      destruct (Z.leb_spec maxPacketSize (zlen data - 4)) as [Hbig|Hsmall].
      * rewrite Z.eqb_refl. cbn [negb]. unfold from.
        destruct (Z.leb_spec 0 maxPacketSize);
          [|rewrite maxPacketSize_value in *; lia].
        destruct (Z.leb_spec maxPacketSize (zlen fc)); [|lia].
        cbn [andb].
        set (data' := skipn (Z.to_nat maxPacketSize) fc).
        assert (Hd' : zlen data' = zlen data - maxPacketSize).
        { unfold data', zlen. rewrite length_skipn.
          unfold zlen in Hfc, Hbig. rewrite maxPacketSize_value in *. lia. }
        replace (zlen data - 4 - maxPacketSize) with (zlen data' - 4) by lia.
        apply IH; [lia|].
        replace (zlen data - 4) with (zlen data' - 4 + 1 * maxPacketSize) in Hf
          by lia.
        rewrite Z.div_add in Hf by (rewrite maxPacketSize_value; lia). lia.
      * destruct (Z.eqb_spec (zlen data - 4) maxPacketSize); [lia|].
        cbn [negb]. eexists _, _. split; [reflexivity|].
        split; discriminate.
Qed.

(** X26.  [writePacket] of a slice with room for the header returns,
    whatever the writer answers, and does not panic; an error it returns
    is [ErrPktTooLarge] with the connection untouched, [ErrInvalidConn],
    [errBadConnNoWrite], or the pending cancellation. *)
Theorem writePacket_outcome (net : writer) (mc : mysqlConn) (data : list Z) :
  4 <= zlen data ->
  exists r mc',
    writePacket net mc data = Some (r, mc') /\
    r <> Panic /\
    forall e, r = Err e ->
      (e = ErrPktTooLarge /\ mc' = mc) \/ e = ErrInvalidConn \/
      e = errBadConnNoWrite \/ mc_canceled mc' = Some e.
Proof.
  intros H4. unfold writePacket. cbv zeta.
  destruct (mc_maxAllowedPacket mc <? zlen data - 4).
  - eexists _, _. split; [reflexivity|]. split; [discriminate|].
    intros e [= <-]. left. split; reflexivity.
  - destruct (writePacket_loop_outcome net
                (S (S (Z.to_nat ((zlen data - 4) / maxPacketSize)))) data mc H4)
      as (r & mc' & E & Hp & He).
    + pose proof (Z.div_pos (zlen data - 4) maxPacketSize).
      rewrite maxPacketSize_value in *. lia.
    + exists r, mc'. split; [exact E|]. split; [exact Hp|].
      intros e Hr. right. exact (He e Hr).
Qed.

(** ** NULL columns of a binary row *)

Lemma binary_fields_all_null (U : helpers) (parseTime : bool)
  (cols : list mysqlField) (nullMask data : list Z) (n : nat) :
  forall i pos : Z,
  (forall j, i <= j < i + Z.of_nat n -> null_bit nullMask j = Ok true) ->
  binary_fields U parseTime cols nullMask data n i pos
  = Ok (repeat VNil n, pos).
Proof.
  induction n as [|n IH]; intros i pos H; [reflexivity|].
  cbn [binary_fields]. rewrite H by lia. cbn [bind snd fst].
  rewrite IH by (intros j Hj; apply H; lia). reflexivity.
Qed.

(** X27.  A binary row whose NULL bitmap has bit [i + 2] set for every
    column [i] decodes to that many nils and ends after the bitmap,
    whatever the columns and the rest of the packet are. *)
Theorem binary_row_all_null (U : helpers) (parseTime : bool)
  (cols : list mysqlField) (n : nat) (d0 : Z) (mask rest : list Z) :
  zlen mask = (Z.of_nat n + 2 + 7) / 8 ->
  (forall i, 0 <= i < Z.of_nat n -> bitmap_bit mask (i + 2) = true) ->
  binary_row U parseTime cols (d0 :: mask ++ rest) n
  = Ok (repeat VNil n, 1 + zlen mask).
Proof.
  intros Hk Hbits. unfold binary_row.
  replace (Z.shiftr (Z.of_nat n + 7 + 2) 3) with (zlen mask)
    by (rewrite Hk, Z.shiftr_div_pow2 by lia; f_equal; lia).
  pose proof (zlen_nonneg mask) as Hm. pose proof (zlen_nonneg rest) as Hr.
  assert (Hsub : sub (d0 :: mask ++ rest) 1 (1 + zlen mask) = Ok mask).
  { unfold sub. rewrite zlen_cons, zlen_app.
    destruct (Z.leb_spec 0 1); [|lia].
    destruct (Z.leb_spec 1 (1 + zlen mask)); [|lia].
    destruct (Z.leb_spec (1 + zlen mask) (zlen mask + zlen rest + 1)); [|lia].
    cbn [andb]. change (Z.to_nat 1) with 1%nat. cbn [skipn].
    replace (Z.to_nat (1 + zlen mask - 1)) with (length mask)
      by (unfold zlen; lia).
    rewrite firstn_app, Nat.sub_diag, firstn_all. cbn [firstn].
    rewrite app_nil_r. reflexivity. }
  cbv zeta. rewrite Hsub. cbn [bind].
  apply binary_fields_all_null. intros j Hj.
  assert (Hin : 0 <= (j + 2) / 8 < zlen mask).
  { rewrite Hk. split; [apply Z.div_pos; lia|].
    apply Z.div_lt_upper_bound; [lia|].
    pose proof (Z.mod_pos_bound (Z.of_nat n + 2 + 7) 8 ltac:(lia)).
    pose proof (Z.div_mod (Z.of_nat n + 2 + 7) 8 ltac:(lia)). lia. }
  rewrite (null_bit_spec mask j Hin), Hbits by lia.
  reflexivity.
Qed.

(** ** The results of a statement *)







(** ** Instances of the further properties *)

Lemma writeCommandPacket_sends_witness :
  let mc := set_sequence (exampleConn []) 7 in
  let scratch := [0; 0; 0; 0; 0; 0; 0; 0; 0] in
  (exists mc',
     writeCommandPacket fullWriter mc scratch 25 = Some (Ok tt, mc') /\
     mc_sent mc' = mc_sent mc ++ [[1; 0; 0; 0; 25]] /\
     mc_sequence mc' = 1) /\
  (exists mc',
     writeCommandPacketUint32 fullWriter mc scratch 25 258
     = Some (Ok tt, mc') /\
     mc_sent mc'
     = mc_sent mc ++ [[5; 0; 0; 0; 25; 258 mod 256;
                       Z.shiftr 258 8 mod 256; Z.shiftr 258 16 mod 256;
                       Z.shiftr 258 24 mod 256]] /\
     mc_sequence mc' = 1).
Proof.
  intros mc scratch.
  apply (writeCommandPacket_sends mc scratch 25 258).
  - vm_compute. discriminate.
  - vm_compute. discriminate.
Defined.

(** COM_QUERY with the text [SELECT 1]. *)
Lemma writeCommandPacketStr_sends_witness :
  let mc := set_sequence (exampleConn []) 7 in
  let arg := [83; 69; 76; 69; 67; 84; 32; 49] in
  exists mc',
    writeCommandPacketStr fullWriter mc 3 arg = Some (Ok tt, mc') /\
    mc_sent mc' = mc_sent mc ++ [frame 0 (3 :: arg)] /\
    mc_sequence mc' = 1.
Proof.
  intros mc arg.
  apply (writeCommandPacketStr_sends mc 3 arg).
  - vm_compute. discriminate.
  - vm_compute. discriminate.
  - vm_compute. reflexivity.
Defined.

Lemma writeAuthSwitchPacket_sends_witness :
  let mc := set_sequence (exampleConn []) 3 in
  exists mc',
    writeAuthSwitchPacket fullWriter mc [1; 2; 3] = Some (Ok tt, mc') /\
    mc_sent mc' = mc_sent mc ++ [frame (mc_sequence mc) [1; 2; 3]] /\
    mc_sequence mc' = (mc_sequence mc + 1) mod 256.
Proof.
  intros mc.
  refine (proj1 (writeAuthSwitchPacket_sends mc [1; 2; 3] _ _ _) _).
  - vm_compute. discriminate.
  - vm_compute. discriminate.
  - vm_compute. reflexivity.
  - vm_compute. discriminate.
Defined.

Lemma writeExecutePacket_no_args_witness :
  let mc := exampleConn [] in
  let stmt := mkStmt 7 0 in
  exists mc',
    writeExecutePacket fullWriter exampleHelpers stmt mc [] = Some (Ok tt, mc') /\
    mc_sent mc'
    = mc_sent mc ++
      [[10; 0; 0; 0; comStmtExecute; stmt_id stmt mod 256;
        Z.shiftr (stmt_id stmt) 8 mod 256; Z.shiftr (stmt_id stmt) 16 mod 256;
        Z.shiftr (stmt_id stmt) 24 mod 256; 0; 1; 0; 0; 0]] /\
    mc_sequence mc' = 1.
Proof.
  intros mc stmt.
  apply (writeExecutePacket_no_args exampleHelpers stmt mc).
  - reflexivity.
  - vm_compute. discriminate.
  - vm_compute. discriminate.
Defined.

(** Six bytes for a server that allows packets of 12: pieces of 4. *)
Lemma writeCommandLongData_chunks_witness :
  let mc := mkConn newBuffer 0 12 0 0 (mkResult [] []) false false false None
              false [] [] io_EOF [] in
  let stmt := mkStmt 7 1 in
  exists mc',
    writeCommandLongData fullWriter stmt mc 0 [1; 2; 3; 4; 5; 6]
    = Some (Ok tt, mc') /\
    mc_sent mc'
    = mc_sent mc ++
      map (fun c => frame 0 (longDataHead stmt 0 ++ c))
          (chunks (Z.to_nat (mc_maxAllowedPacket mc - 8)) [1; 2; 3; 4; 5; 6]) /\
    mc_sequence mc' = 0.
Proof.
  intros mc stmt.
  apply (writeCommandLongData_chunks stmt mc 0 [1; 2; 3; 4; 5; 6]).
  split; vm_compute; discriminate.
Defined.

(** A reader that gives three bytes to a buffer with room for two more. *)
Lemma buffer_readN_appends_witness :
  let b := mkSlice [1; 2; 0; 0] 2 in
  let r := fun _ : Z => ([7; 8; 9], @None error) in
  exists b',
    buffer_readN exampleHelpers b r 3 = Ok (None, b') /\
    firstn (Z.to_nat (len b) + length [7; 8; 9]) (elems b')
    = elems b ++ [7; 8; 9] /\
    buffer_len b' = buffer_len b + 3.
Proof.
  intros b r.
  apply (buffer_readN_appends exampleHelpers b r 3 [7; 8; 9] None).
  - split; vm_compute; discriminate.
  - vm_compute. discriminate.
  - reflexivity.
  - vm_compute. discriminate.
Defined.


(** The EOF packet of the last result set: status 2, no more results. *)
Lemma readRow_end_of_rows_witness :
  let rows := mkRows true (mkResultSet [] false) in
  let mc := set_sequence (exampleConn [5; 0; 0; 3; 254; 0; 0; 2; 0]) 3 in
  let rows' := mkRows false (mkResultSet [] true) in
  let mc' := set_status (set_sequence (set_input mc []) 4) 2 in
  textRows_readRow exampleHelpers rows mc 1 = Some (Err io_EOF, rows', mc') /\
  binaryRows_readRow exampleHelpers rows mc 1 = Some (Err io_EOF, rows', mc').
Proof.
  intros rows mc rows' mc'.
  apply (readRow_end_of_rows exampleHelpers rows mc 1 0 0 2 0 []);
    reflexivity.
Defined.

(** Error 1064 with the message [No]. *)
Lemma readRow_error_packet_witness :
  let rows := mkRows true (mkResultSet [] false) in
  let mc := set_sequence (exampleConn [5; 0; 0; 1; 255; 0x28; 0x04; 78; 111]) 1 in
  let e := MySQLError 1064 [0; 0; 0; 0; 0] [78; 111] in
  let mc2 := set_sequence (set_input mc []) 2 in
  textRows_readRow exampleHelpers rows mc 1 = Some (Err e, detach rows, mc2) /\
  binaryRows_readRow exampleHelpers rows mc 1 = Some (Err e, detach rows, mc2).
Proof.
  intros rows mc e mc2.
  apply (readRow_error_packet exampleHelpers rows mc 1 [0x28; 0x04; 78; 111] []
           e mc2).
  - reflexivity.
  - split; vm_compute; reflexivity.
  - reflexivity.
  - reflexivity.
Defined.

Lemma writePacket_outcome_witness :
  let mc := exampleConn [] in
  exists r mc',
    writePacket fullWriter mc [0; 0; 0; 0; 14] = Some (r, mc') /\
    r <> Panic /\
    forall e, r = Err e ->
      (e = ErrPktTooLarge /\ mc' = mc) \/ e = ErrInvalidConn \/
      e = errBadConnNoWrite \/ mc_canceled mc' = Some e.
Proof.
  intros mc.
  apply (writePacket_outcome fullWriter mc [0; 0; 0; 0; 14]).
  vm_compute. discriminate.
Defined.

(** Three columns, all NULL: bits 2, 3 and 4 of the bitmap. *)
Lemma binary_row_all_null_witness :
  binary_row exampleHelpers false [] ([0] ++ [28] ++ [9; 9]) 3
  = Ok ([VNil; VNil; VNil], 2).
Proof.
  apply (binary_row_all_null exampleHelpers false [] 3 0 [28] [9; 9]).
  - reflexivity.
  - intros i Hi.
    assert (Hc : i = 0 \/ i = 1 \/ i = 2) by lia.
    destruct Hc as [-> | [-> | ->]]; reflexivity.
Defined.

